(** * Attribute trees, deep-path updates and lookups of terraform graph blocks

    A shallow embedding of
    [checkov/terraform/graph_builder/graph_components/blocks.py] (the class
    [Block] and the function [get_inner_attributes]), of
    [checkov/terraform/checks_infra/solvers/attribute_solvers/within_attribute_solver.py]
    and of
    [checkov/kubernetes/checks/resource/k8s/ApiServerStrongCryptographicCiphers.py],
    with the properties of the attribute tree, of the deep-path update, of the
    export, of the lookups and of the two checks.

    - A Python value is [None], a [bool], an [int], a [str], a list or a
      dict; a dict is an association list in insertion order with string or
      integer keys.  A string is a sequence of characters with code points
      below 256.
    - The two mappings a [Block] receives by reference ([config] and
      [attributes]) are objects of a store, so that what the caller and the
      block share is visible.  The breadcrumb list [update_attribute]
      receives is an object of a second store: the method appends to the
      caller's list and records that same list in [changed_attributes].  The
      lists and dicts nested inside a mapping are values: an object shared by
      two entries of one mapping is two equal values here, and the properties
      speak of the entries a call writes and of the paths it rewrites.
    - A method that mutates [self] takes the store and the block and returns
      them; an exception is an outcome of the call next to the state it
      leaves. *)

From Stdlib Require Import String Ascii List ZArith Bool Arith Lia.
From Stdlib Require Import Permutation Sorted DecimalString DecimalNat.
Import ListNotations.
Open Scope string_scope.
Open Scope list_scope.

(** ** Python values *)

(** A dict key: a string, or an integer as produced by [int(curr_key)]. *)
Inductive key : Type :=
| KStr (s : string)
| KInt (n : nat).

(** A value: [None], a [bool], an [int], a [str], a list, a dict. *)
Unset Elimination Schemes.
Inductive value : Type :=
| VNone
| VBool (b : bool)
| VInt (z : Z)
| VStr (s : string)
| VList (l : list value)
| VDict (d : list (key * value)).
Set Elimination Schemes.

(** The entries of a dict, in insertion order. *)
Definition dict : Type := list (key * value).

Section value_induction.
Variable P : value -> Prop.
Hypothesis HNone : P VNone.
Hypothesis HBool : forall b, P (VBool b).
Hypothesis HInt : forall z, P (VInt z).
Hypothesis HStr : forall s, P (VStr s).
Hypothesis HList : forall l, Forall P l -> P (VList l).
Hypothesis HDict : forall d, Forall (fun kv => P (snd kv)) d -> P (VDict d).

(** Induction over a value, with the hypotheses for the elements of a list
    and for the values of a dict. *)
Fixpoint value_ind (v : value) : P v :=
  match v with
  | VNone => HNone
  | VBool b => HBool b
  | VInt z => HInt z
  | VStr s => HStr s
  | VList l =>
      HList l
        ((fix elements (l : list value) : Forall P l :=
            match l with
            | [] => Forall_nil P
            | x :: l' => Forall_cons x (value_ind x) (elements l')
            end) l)
  | VDict d =>
      HDict d
        ((fix entries (d : dict) : Forall (fun kv => P (snd kv)) d :=
            match d with
            | [] => Forall_nil _
            | kv :: d' =>
                Forall_cons (P := fun kv => P (snd kv)) kv
                  (value_ind (snd kv)) (entries d')
            end) d)
  end.
End value_induction.

(** Equality of keys. *)
Definition key_eqb (a b : key) : bool :=
  match a, b with
  | KStr s, KStr t => String.eqb s t
  | KInt n, KInt m => Nat.eqb n m
  | _, _ => false
  end.

(** [bool(v)]: the truth value Python gives a value. *)
Definition truthy (v : value) : bool :=
  match v with
  | VNone => false
  | VBool b => b
  | VInt z => negb (Z.eqb z 0)
  | VStr s => negb (String.eqb s "")
  | VList l => match l with [] => false | _ => true end
  | VDict d => match d with [] => false | _ => true end
  end.

(** [v is not None] *)
Definition is_not_None (v : value) : bool :=
  match v with VNone => false | _ => true end.

(** ** Strings: [split], [join], [isnumeric], [int], [str] *)

(** [s.split(sep)] for a one-character separator. *)
Fixpoint py_split (sep : ascii) (s : string) : list string :=
  match s with
  | EmptyString => [EmptyString]
  | String c s' =>
      if Ascii.eqb c sep then EmptyString :: py_split sep s'
      else match py_split sep s' with
           | [] => [String c EmptyString]
           | p :: ps => String c p :: ps
           end
  end.

(** [sep.join(l)] *)
Definition py_join (sep : string) (l : list string) : string := String.concat sep l.

(** A decimal digit: below 256 these are the characters ['0'] to ['9']. *)
Definition is_digit (c : ascii) : bool :=
  let n := nat_of_ascii c in Nat.leb 48 n && Nat.leb n 57.

(** A numeric character: below 256 these are the decimal digits, the
    superscripts [U+00B2], [U+00B3] and [U+00B9], and the fractions [U+00BC],
    [U+00BD] and [U+00BE]. *)
Definition is_numeric_char (c : ascii) : bool :=
  is_digit c || existsb (Nat.eqb (nat_of_ascii c)) [178; 179; 185; 188; 189; 190].

(** Every character is a decimal digit. *)
Fixpoint all_digits (s : string) : bool :=
  match s with
  | EmptyString => true
  | String c s' => is_digit c && all_digits s'
  end.

(** Every character is numeric. *)
Fixpoint all_numeric (s : string) : bool :=
  match s with
  | EmptyString => true
  | String c s' => is_numeric_char c && all_numeric s'
  end.

(** [s.isnumeric()]: at least one character, all of them numeric. *)
Definition isnumeric (s : string) : bool :=
  match s with
  | EmptyString => false
  | _ => all_numeric s
  end.

(** The decimal reading of [s] after the digits read into [acc]. *)
Fixpoint int_acc (acc : nat) (s : string) : nat :=
  match s with
  | EmptyString => acc
  | String c s' => int_acc (10 * acc + (nat_of_ascii c - 48)) s'
  end.

(** [int(s)] for a string [s] that [isnumeric] accepts; [None] is
    [ValueError]: [int] reads decimal digits, and no other numeric
    character. *)
Definition int (s : string) : option nat :=
  match s with
  | EmptyString => None
  | _ => if all_digits s then Some (int_acc 0 s) else None
  end.

(** [str(n)] *)
Definition str_of_nat (n : nat) : string := NilEmpty.string_of_uint (Nat.to_uint n).

(** [f'{key}'] *)
Definition key_str (k : key) : string :=
  match k with
  | KStr s => s
  | KInt n => str_of_nat n
  end.

(** [s.find('.') > -1] *)
Fixpoint has_dot (s : string) : bool :=
  match s with
  | EmptyString => false
  | String c s' => Ascii.eqb c "."%char || has_dot s'
  end.

(** ** Dicts in insertion order *)

(** [d[k]], with [None] for [KeyError]. *)
Fixpoint dict_get (k : key) (d : dict) : option value :=
  match d with
  | [] => None
  | (k', v) :: d' => if key_eqb k' k then Some v else dict_get k d'
  end.

(** [d.get(k)] *)
Definition py_get (k : key) (d : dict) : value :=
  match dict_get k d with
  | Some v => v
  | None => VNone
  end.

(** [d[k] = v]: an existing key keeps its position, a new key goes last. *)
Fixpoint dict_set (k : key) (v : value) (d : dict) : dict :=
  match d with
  | [] => [(k, v)]
  | (k', v') :: d' =>
      if key_eqb k' k then (k', v) :: d' else (k', v') :: dict_set k v d'
  end.

(** [del d[k]] *)
Fixpoint dict_del (k : key) (d : dict) : dict :=
  match d with
  | [] => []
  | (k', v') :: d' => if key_eqb k' k then d' else (k', v') :: dict_del k d'
  end.

(** [d.update(other)] *)
Definition dict_update (d other : dict) : dict :=
  fold_left (fun acc kv => dict_set (fst kv) (snd kv) acc) other d.

(** [list(d.keys())] *)
Definition dict_keys (d : dict) : list key := map fst d.

(** [l[i] = v] for [i] in range. *)
Fixpoint list_set (i : nat) (v : value) (l : list value) : list value :=
  match l, i with
  | [], _ => []
  | _ :: l', O => v :: l'
  | x :: l', S i' => x :: list_set i' v l'
  end.

(** ** [get_inner_attributes] *)

(** [f'{attribute_key}.{key}'] *)
Definition inner_key_of (attribute_key : key) (k : key) : string :=
  key_str attribute_key ++ "." ++ key_str k.

(** [container[k] = x] on the list or dict under construction. *)
Definition set_item (container : value) (k : key) (x : value) : value :=
  match container, k with
  | VList l, KInt i => VList (list_set i x l)
  | VDict d, _ => VDict (dict_set k x d)
  | _, _ => container
  end.

(** One turn of the loop of [get_inner_attributes]:
    [inner_attributes.update(sub)] and then
    [inner_attributes[attribute_key][key] = inner_attributes[inner_key]].
    Both lookups succeed in every turn (lemma [loop_step_assigns]), so the
    last branch is never taken. *)
Definition loop_step (attribute_key k : key) (sub : dict) (inner_attributes : dict) : dict :=
  let inner_attributes := dict_update inner_attributes sub in
  match dict_get (KStr (inner_key_of attribute_key k)) inner_attributes,
        dict_get attribute_key inner_attributes with
  | Some x, Some container =>
      dict_set attribute_key (set_item container k x) inner_attributes
  | _, _ => inner_attributes
  end.

Section get_inner_attributes_loops.
Variable rec : key -> value -> dict.
Variable attribute_key : key.

(** [for key in range(len(attribute_value))], from index [i] on. *)
Fixpoint loop_list (i : nat) (l : list value) (inner_attributes : dict) : dict :=
  match l with
  | [] => inner_attributes
  | x :: l' =>
      loop_list (S i) l'
        (loop_step attribute_key (KInt i)
           (rec (KStr (inner_key_of attribute_key (KInt i))) x) inner_attributes)
  end.

(** [for key in list(attribute_value.keys())]: a dict has one entry per
    key, so the keys in order with [attribute_value[key]] are its entries. *)
Fixpoint loop_dict (d : dict) (inner_attributes : dict) : dict :=
  match d with
  | [] => inner_attributes
  | (k, x) :: d' =>
      loop_dict d'
        (loop_step attribute_key k
           (rec (KStr (inner_key_of attribute_key k)) x) inner_attributes)
  end.
End get_inner_attributes_loops.

(** The singleton unwrapping that opens [get_inner_attributes] and
    [get_origin_attributes]. *)
Definition unwrap_singleton (v : value) : value :=
  match v with
  | VList [x] => x
  | _ => v
  end.

(** The function: a singleton list is replaced by its element, then a list
    or a dict is rebuilt entry by entry next to the flattened entries of its
    elements, and any other value is the one entry. *)
Fixpoint get_inner_attributes (attribute_key : key) (attribute_value : value)
  {struct attribute_value} : dict :=
  match
    match attribute_value with
    | VList [x] => x
    | _ => attribute_value
    end
  with
  | VList l =>
      loop_list get_inner_attributes attribute_key 0 l
        [(attribute_key, VList (repeat VNone (length l)))]
  | VDict d =>
      loop_dict get_inner_attributes attribute_key d [(attribute_key, VDict [])]
  | v => [(attribute_key, v)]
  end.

(** ** Equality and membership of values *)

(** [a == b] *)
Fixpoint py_eq (a b : value) {struct a} : bool :=
  match a, b with
  | VNone, VNone => true
  | VBool x, VBool y => Bool.eqb x y
  | VBool x, VInt y => Z.eqb (Z.b2z x) y
  | VInt x, VBool y => Z.eqb x (Z.b2z y)
  | VInt x, VInt y => Z.eqb x y
  | VStr x, VStr y => String.eqb x y
  | VList l, VList m =>
      (fix elements (l m : list value) : bool :=
         match l, m with
         | [], [] => true
         | x :: l', y :: m' => py_eq x y && elements l' m'
         | _, _ => false
         end) l m
  | VDict d, VDict e =>
      Nat.eqb (length d) (length e)
      && (fix entries (d : dict) : bool :=
            match d with
            | [] => true
            | (k, x) :: d' =>
                match dict_get k e with
                | Some y => py_eq x y
                | None => false
                end && entries d'
            end) d
  | _, _ => false
  end.

(** [x in l] for a list [l] *)
Definition py_in (x : value) (l : list value) : bool := existsb (py_eq x) l.

(** ** The recursive rewrite [Block.update_inner_attribute] *)

(** The exceptions the code meets. *)
Inductive exn : Type := KeyError | IndexError | TypeError | AttributeError | ValueError.

(** What a call gives: a value, or an exception. *)
Inductive result (A : Type) : Type :=
| Returns (a : A)
| Raises (e : exn).
Arguments Returns {A} a.
Arguments Raises {A} e.

(** How a call ends: it falls off the end, it logs the warning and returns
    the exception it caught, or it raises. *)
Inductive outcome : Type :=
| Return_None
| Return_exn (e : exn)
| Raise (e : exn).

Section in_place.
Variable f : value -> value * outcome.

(** [for inner in nested_attributes: f(inner)]; a raise ends the loop. *)
Fixpoint for_each (l : list value) : list value * outcome :=
  match l with
  | [] => ([], Return_None)
  | x :: l' =>
      match f x with
      | (x', Raise e) => (x' :: l', Raise e)
      | (x', _) => let (l'', o) := for_each l' in (x' :: l'', o)
      end
  end.

(** [f(l[i])], the element being rewritten in place; [None] is [IndexError]. *)
Fixpoint at_index (i : nat) (l : list value) {struct l} :
  option (list value * outcome) :=
  match l, i with
  | [], _ => None
  | x :: l', O => let (x', o) := f x in Some (x' :: l', o)
  | x :: l', S i' =>
      match at_index i' l' with
      | Some (l'', o) => Some (x :: l'', o)
      | None => None
      end
  end.

(** [f(d[k])], the entry being rewritten in place; [None] is [KeyError]. *)
Fixpoint at_key (k : key) (d : dict) : option (dict * outcome) :=
  match d with
  | [] => None
  | (k', x) :: d' =>
      if key_eqb k' k then let (x', o) := f x in Some ((k', x') :: d', o)
      else match at_key k d' with
           | Some (d'', o) => Some ((k', x) :: d'', o)
           | None => None
           end
  end.
End in_place.

(** [curr_key]: the first component, as an [int] when it is numeric;
    [None] when [int(curr_key)] raises [ValueError]. *)
Definition curr_key_of (split_key : list string) : option key :=
  let curr_key := hd "" split_key in
  if isnumeric curr_key then option_map KInt (int curr_key) else Some (KStr curr_key).

(** The [except] branch when [nested_attributes] is a dict. *)
Definition except_dict (attribute_key : string) (value_to_update : value)
  (d : dict) (e : exn) : value * outcome :=
  if is_not_None (py_get (KStr attribute_key) d)
  then (VDict (dict_set (KStr attribute_key) value_to_update d), Return_None)
  else (VDict d, Return_exn e).

(** The first [if] of the method: [nested_attributes[attribute_key] =
    value_to_update] when the dict holds a truthy value at the whole key. *)
Definition first_if (attribute_key : string) (value_to_update : value) (d : dict) : dict :=
  if truthy (py_get (KStr attribute_key) d)
  then dict_set (KStr attribute_key) value_to_update d
  else d.

(** The method, by recursion on the container it rewrites.  [int(curr_key)]
    comes first and can raise [ValueError], before anything is written.  On
    the dict branch that recurses, the key has at least two components, so the entry
    the first [if] writes (at [attribute_key]) is not the entry the recursive
    call rewrites (at [curr_key]): the recursive call is made on the entry of
    [d] and the write of the first [if] is applied around it.  The lemma
    [update_inner_attribute_dict] below states the equation in the order of
    the source. *)
Fixpoint update_inner_attribute (attribute_key : string) (nested_attributes : value)
  (value_to_update : value) {struct nested_attributes} : value * outcome :=
  let split_key := py_split "."%char attribute_key in
  let rest := py_join "." (tl split_key) in
  match curr_key_of split_key with
  | None => (nested_attributes, Raise ValueError)
  | Some curr_key =>
      match nested_attributes with
      | VDict d =>
          let hit := truthy (py_get (KStr attribute_key) d) in
          let written := fun d' : dict =>
            if hit then dict_set (KStr attribute_key) value_to_update d' else d' in
          if Nat.eqb (length split_key) 1
          then (VDict (dict_set curr_key value_to_update (written d)), Return_None)
          else
            match at_key (fun inner => update_inner_attribute rest inner value_to_update)
                    curr_key d with
            | Some (d', Raise e) => except_dict attribute_key value_to_update (written d') e
            | Some (d', _) => (VDict (written d'), Return_None)
            | None => except_dict attribute_key value_to_update (written d) KeyError
            end
      | VList l =>
          match curr_key with
          | KStr c =>
              let (l', o) :=
                for_each (fun inner => update_inner_attribute c inner value_to_update) l in
              (VList l', o)
          | KInt i =>
              if Nat.eqb (length split_key) 1
              then if Nat.ltb i (length l)
                   then (VList (list_set i value_to_update l), Return_None)
                   else (VList l, Raise IndexError)
              else
                match at_index (fun inner => update_inner_attribute rest inner value_to_update)
                        i l with
                | Some (l', Raise _) => (VList l', Raise AttributeError)
                | Some (l', _) => (VList l', Return_None)
                | None => (VList l, Raise AttributeError)
                end
          end
      | _ =>
          if Nat.eqb (length split_key) 1
          then (nested_attributes, Raise TypeError)
          else (nested_attributes, Raise AttributeError)
      end
  end.

(** ** The store of shared dict objects *)

(** A reference to a dict object. *)
Definition loc : Type := nat.

(** The dict objects allocated so far; a reference is an index. *)
Definition heap : Type := list dict.

(** The contents of an object. *)
Definition deref (h : heap) (l : loc) : dict := nth l h [].

(** The store after the object at [l] has been mutated into [d]. *)
Fixpoint store (h : heap) (l : loc) (d : dict) : heap :=
  match h, l with
  | [], _ => []
  | _ :: h', O => d :: h'
  | x :: h', S l' => x :: store h' l' d
  end.

(** A new object. *)
Definition alloc (h : heap) (d : dict) : heap * loc := (h ++ [d], length h).

(** [deepcopy(obj)]: a new object with the same contents. *)
Definition deepcopy (h : heap) (l : loc) : heap * loc := alloc h (deref h l).

(** ** The store of breadcrumb lists *)

(** A reference to a list object. *)
Definition chain : Type := nat.

(** The list objects allocated so far; a reference is an index. *)
Definition chains : Type := list (list value).

(** The contents of a list object. *)
Definition chain_of (c : chains) (r : chain) : list value := nth r c [].

(** The store after the list at [r] has been mutated into [l]. *)
Fixpoint store_chain (c : chains) (r : chain) (l : list value) : chains :=
  match c, r with
  | [], _ => []
  | _ :: c', O => l :: c'
  | x :: c', S r' => x :: store_chain c' r' l
  end.

(** ** What the block module imports from outside [src] *)

(** Modelled from the spec: the enumeration [BlockType] of
    [block_types.py], which is not under [src]; the spec lists the construct
    kinds resource, module, variable, output, provider and locals. *)
Inductive BlockType : Type :=
| RESOURCE | MODULE | VARIABLE | OUTPUT | PROVIDER | LOCALS.

(** The constants and helpers the module imports and [src] does not
    define: [RESOLVED_MODULE_ENTRY_NAME], the names of [CustomAttributes],
    the value and the printed form of a [BlockType],
    [remove_module_dependency_in_path], [os.path.realpath], [calculate_hash]
    and [encode_graph_property_value].  Every definition below that uses one
    of them takes the environment as a parameter. *)
Record Env : Type := {
  RESOLVED_MODULE_ENTRY_NAME : string;
  BLOCK_NAME : string;
  BLOCK_TYPE : string;
  FILE_PATH : string;
  CONFIG : string;
  LABEL : string;
  ID : string;
  SOURCE : string;
  HASH : string;
  RENDERING_BREADCRUMBS : string;
  BlockType_value : BlockType -> string;
  BlockType_str : BlockType -> string;
  remove_module_dependency_in_path : string -> string * string * string;
  realpath : string -> string;
  calculate_hash : dict -> value;
  encode_graph_property_value : value -> value
}.

(** Modelled from the spec: [join_trimmed_strings] of
    [checkov.terraform.checks.utils.utils], which is not under [src]; the spec
    says the path and every strict prefix of it are written, so trimming [i]
    components off the end of the path gives the prefix that is joined. *)
Definition join_trimmed_strings (char_to_join : string) (str_lst : list string)
  (num_to_trim : nat) : string :=
  py_join char_to_join (firstn (length str_lst - num_to_trim) str_lst).

(** ** The class [Block] *)

(** The fields [__init__] sets.  [config] and [attributes] are references;
    [changed_attributes] maps a key to the breadcrumb list recorded for it,
    a reference to the list object [update_attribute] was given. *)
Record Block : Type := {
  name : string;
  config : loc;
  module_dependency : string;
  module_dependency_num : string;
  path : string;
  block_type : BlockType;
  attributes : loc;
  id : string;
  source : string;
  changed_attributes : list (string * chain);
  breadcrumbs : list (string * value);
  module_connections : list (string * list value);
  source_module : list value;
  encode : bool
}.

(** [m[k] = v] on a mapping with string keys (the provenance ledger, the
    module connections). *)
Fixpoint ledger_set {A : Type} (k : string) (v : A) (m : list (string * A)) :
  list (string * A) :=
  match m with
  | [] => [(k, v)]
  | (k', v') :: m' =>
      if String.eqb k' k then (k', v) :: m' else (k', v') :: ledger_set k v m'
  end.

(** The block after an assignment into [self.changed_attributes]. *)
Definition with_changed_attributes (b : Block) (c : list (string * chain)) : Block :=
  {| name := name b; config := config b;
     module_dependency := module_dependency b;
     module_dependency_num := module_dependency_num b;
     path := path b; block_type := block_type b; attributes := attributes b;
     id := id b; source := source b; changed_attributes := c;
     breadcrumbs := breadcrumbs b; module_connections := module_connections b;
     source_module := source_module b; encode := encode b |}.

(** [type(v) is list and len(v) > 0 and type(v[0]) is dict] *)
Definition is_list_of_dict (v : value) : bool :=
  match v with
  | VList (VDict _ :: _) => true
  | _ => false
  end.

(** [Block._extract_inner_attributes], on the contents of [self.attributes]. *)
Definition _extract_inner_attributes (attrs : dict) : dict :=
  fold_left
    (fun attributes_to_add kv =>
       if is_list_of_dict (snd kv)
       then dict_update attributes_to_add (get_inner_attributes (fst kv) (snd kv))
       else attributes_to_add)
    attrs [].

Section Block_methods.
Variable E : Env.

(** The path fields [__init__] sets: [(self.path, self.module_dependency,
    self.module_dependency_num)]. *)
Definition init_path (path : string) : string * string * string :=
  if truthy (VStr path) then
    let '(p, dependency, num) := remove_module_dependency_in_path E path in
    if truthy (VStr dependency)
    then (realpath E p, dependency, num)
    else (realpath E p, "", "")
  else (path, "", "").

(** What [__init__] does to the dict object it is given as [attributes]:
    the reserved entry is deleted when its value is truthy, and the entries
    of [_extract_inner_attributes] are added. *)
Definition init_attributes (attrs : dict) : dict :=
  let attrs :=
    if truthy (py_get (KStr (RESOLVED_MODULE_ENTRY_NAME E)) attrs)
    then dict_del (KStr (RESOLVED_MODULE_ENTRY_NAME E)) attrs
    else attrs in
  dict_update attrs (_extract_inner_attributes attrs).

(** [Block.__init__].  [config] and [attributes] are references to the
    caller's mappings; the store after the call and the new block are
    returned.  [self.config] is a deep copy, [self.attributes] is the
    caller's object. *)
Definition Block_init (h : heap) (name : string) (config : loc) (path : string)
  (block_type : BlockType) (attributes : loc) (id source : string) (encode : bool) :
  heap * Block :=
  let copied := deepcopy h config in
  let paths := init_path path in
  (store (fst copied) attributes (init_attributes (deref (fst copied) attributes)),
   {| name := name; config := snd copied;
      module_dependency := snd (fst paths);
      module_dependency_num := snd paths;
      path := fst (fst paths); block_type := block_type; attributes := attributes;
      id := id; source := source; changed_attributes := [];
      breadcrumbs := []; module_connections := []; source_module := [];
      encode := encode |}).

(** [Block.__str__] *)
Definition Block_str (b : Block) : string :=
  BlockType_str E (block_type b) ++ ": " ++ name b.

(** [d[k] = v] with a string key *)
Definition set_field (k : string) (v : value) (d : dict) : dict := dict_set (KStr k) v d.

(** [Block.get_base_attributes]: the dict display, entry by entry. *)
Definition get_base_attributes (h : heap) (b : Block) : dict :=
  set_field (SOURCE E) (VStr (source b))
    (set_field (ID E) (VStr (id b))
       (set_field (LABEL E) (VStr (Block_str b))
          (set_field (CONFIG E) (VDict (deref h (config b)))
             (set_field (FILE_PATH E) (VStr (path b))
                (set_field (BLOCK_TYPE E) (VStr (BlockType_value E (block_type b)))
                   (set_field (BLOCK_NAME E) (VStr (name b)) [])))))).
End Block_methods.

(** Insertion of a string in a sorted list. *)
Fixpoint insert_sorted (s : string) (l : list string) : list string :=
  match l with
  | [] => [s]
  | x :: l' => if String.leb s x then s :: l else x :: insert_sorted s l'
  end.

(** [keys.sort()] *)
Definition sort_strings (l : list string) : list string :=
  fold_right insert_sorted [] l.

(** Insertion of an item in a list sorted by key. *)
Fixpoint insert_item (kv : string * value) (l : list (string * value)) :
  list (string * value) :=
  match l with
  | [] => [kv]
  | x :: l' => if String.leb (fst kv) (fst x) then kv :: l else x :: insert_item kv l'
  end.

(** [sorted(m.items())] on a mapping with string keys *)
Definition sort_items (l : list (string * value)) : list (string * value) :=
  fold_right insert_item [] l.

(** One turn of the loop of [Block.get_origin_attributes]; iterating over
    the keys of a dict and indexing it by each key visits its entries in
    insertion order. *)
Definition origin_step (base_attributes : dict) (kv : key * value) : dict :=
  let attribute_key := fst kv in
  let attribute_value := unwrap_singleton (snd kv) in
  let base_attributes :=
    match attribute_value with
    | VList _ | VDict _ =>
        dict_update base_attributes (get_inner_attributes attribute_key attribute_value)
    | _ => base_attributes
    end in
  if key_eqb attribute_key (KStr "self")
  then dict_set (KStr "self_") attribute_value base_attributes
  else dict_set attribute_key attribute_value base_attributes.

(** [Block.get_origin_attributes] *)
Definition get_origin_attributes (attrs : dict) (base_attributes : dict) : dict :=
  fold_left origin_step attrs base_attributes.

Section Block_export.
Variable E : Env.

(** The mapping [calculate_hash] is applied to in [Block.get_attribute_dict]:
    the base fields, the flattened attributes, the sorted changed keys and
    the sorted breadcrumbs, encoded when the block encodes. *)
Definition hashed_attributes (h : heap) (b : Block) : dict :=
  let base_attributes := get_base_attributes E h b in
  let base_attributes := get_origin_attributes (deref h (attributes b)) base_attributes in
  let base_attributes :=
    match changed_attributes b with
    | [] => base_attributes
    | _ =>
        dict_set (KStr "changed_attributes")
          (VList (map VStr (sort_strings (map fst (changed_attributes b)))))
          base_attributes
    end in
  let base_attributes :=
    match breadcrumbs b with
    | [] => base_attributes
    | _ =>
        dict_set (KStr (RENDERING_BREADCRUMBS E))
          (VDict (map (fun kv => (KStr (fst kv), snd kv)) (sort_items (breadcrumbs b))))
          base_attributes
    end in
  if encode b
  then map (fun kv => (fst kv, encode_graph_property_value E (snd kv))) base_attributes
  else base_attributes.

(** [Block.get_attribute_dict] *)
Definition get_attribute_dict (h : heap) (b : Block) : dict :=
  let base_attributes := hashed_attributes h b in
  let base_attributes :=
    dict_set (KStr (HASH E)) (calculate_hash E base_attributes) base_attributes in
  if truthy (py_get (KStr "changed_attributes") base_attributes)
  then dict_del (KStr "changed_attributes") base_attributes
  else base_attributes.

(** [Block.get_hash] *)
Definition get_hash (h : heap) (b : Block) : value :=
  py_get (KStr (HASH E)) (get_attribute_dict h b).
End Block_export.

(** ** [Block.update_attribute] *)

(** The breadcrumb update that opens the method. *)
Definition extend_breadcrumbs (previous_breadcrumbs : list value) (change_origin_id : value) :
  list value :=
  match previous_breadcrumbs with
  | [] => previous_breadcrumbs ++ [change_origin_id]
  | _ =>
      if negb (py_eq (last previous_breadcrumbs VNone) change_origin_id)
      then previous_breadcrumbs ++ [change_origin_id]
      else previous_breadcrumbs
  end.

(** One turn of the loop over [range(len(attribute_key_parts))]; the state
    is the contents of [self.attributes], the current [attribute_value] and
    [self.changed_attributes]. *)
Definition sync_step (attribute_key_parts : list string) (previous_breadcrumbs : chain)
  (st : dict * value * list (string * chain)) (i : nat) :
  dict * value * list (string * chain) :=
  let '(attrs, attribute_value, changed) := st in
  let key := join_trimmed_strings "." attribute_key_parts i in
  if has_dot key then
    (dict_set (KStr key) attribute_value attrs,
     VDict [(KStr (nth (length attribute_key_parts - 1 - i) attribute_key_parts ""),
             attribute_value)],
     ledger_set key previous_breadcrumbs changed)
  else st.

(** The contents of a dict object after a rewrite that kept it a dict. *)
Definition dict_of (v : value) : dict :=
  match v with
  | VDict d => d
  | _ => []
  end.

(** What a call of [update_attribute] leaves: the two stores, the block,
    and the exception it raised, if any. *)
Record updated : Type := {
  heap_after : heap;
  chains_after : chains;
  block_after : Block;
  raised : option exn
}.

(** The method returns nothing; the model returns the stores and the block
    after the call, and the exception when the call raises.
    [previous_breadcrumbs] is the caller's list object: the method appends to
    it in place and stores that same object in [self.changed_attributes].
    [self.attributes] is one dict object throughout the call: its contents
    are read once and written back once.  What [update_inner_attribute]
    returns is dropped, as in the source; what it raises ends the call. *)
Definition update_attribute (h : heap) (c : chains) (b : Block) (attribute_key : string)
  (attribute_value change_origin_id : value) (previous_breadcrumbs : chain) : updated :=
  let c :=
    store_chain c previous_breadcrumbs
      (extend_breadcrumbs (chain_of c previous_breadcrumbs) change_origin_id) in
  let rewritten :=
    update_inner_attribute attribute_key (VDict (deref h (attributes b))) attribute_value in
  let attrs := dict_of (fst rewritten) in
  match snd rewritten with
  | Raise e =>
      {| heap_after := store h (attributes b) attrs; chains_after := c;
         block_after := b; raised := Some e |}
  | _ =>
      let attribute_key_parts := py_split "."%char attribute_key in
      if Nat.eqb (length attribute_key_parts) 1 then
        {| heap_after := store h (attributes b) attrs; chains_after := c;
           block_after :=
             with_changed_attributes b
               (ledger_set attribute_key previous_breadcrumbs (changed_attributes b));
           raised := None |}
      else
        let '(attrs, _, changed) :=
          fold_left (sync_step attribute_key_parts previous_breadcrumbs)
            (seq 0 (length attribute_key_parts))
            (attrs, attribute_value, changed_attributes b) in
        {| heap_after := store h (attributes b) attrs; chains_after := c;
           block_after := with_changed_attributes b changed; raised := None |}
  end.

(** ** [Block.find_attribute] *)

(** The method reads [self.attributes] with [get] and returns a key or
    [None]; it writes nothing, so the model returns the result alone. *)
Definition find_attribute (h : heap) (b : Block) (attribute : list string) : option string :=
  match attribute with
  | [] => None
  | first :: others =>
      let attrs := deref h (attributes b) in
      if truthy (py_get (KStr first) attrs) then Some first
      else
        match block_type b with
        | VARIABLE =>
            if truthy (py_get (KStr "default") attrs) then Some "default" else None
        | OUTPUT =>
            if truthy (py_get (KStr "value") attrs) then Some "value" else None
        | RESOURCE =>
            match others with
            | second :: _ =>
                if String.eqb (name b) first && truthy (py_get (KStr second) attrs)
                then Some second
                else None
            | [] => None
            end
        | _ => None
        end
  end.

(** ** [WithinAttributeSolver] *)

Module WithinAttributeSolver.

(** What the constructor is given as [value], the comparison value: a set,
    given by its elements, or any other object, a list as a check definition
    spells it, or a string, a dict, a number, [None]. *)
Inductive comparison : Type :=
| SetOf (elements : list value)
| Object (v : value).

(** [hash(x)] is defined: a list and a dict are not hashable. *)
Definition hashable (x : value) : bool :=
  match x with
  | VList _ | VDict _ => false
  | _ => true
  end.

(** [t in s] for two strings: [t] occurs in [s]. *)
Fixpoint occurs (t s : string) : bool :=
  String.prefix t s
  || match s with
     | EmptyString => false
     | String _ s' => occurs t s'
     end.

(** The dict key a hashable value is equal to, when there is one. *)
Definition key_of (x : value) : option key :=
  match x with
  | VStr s => Some (KStr s)
  | VInt z => if Z.leb 0 z then Some (KInt (Z.to_nat z)) else None
  | VBool b => Some (KInt (if b then 1 else 0))
  | _ => None
  end.

(** [x in c]: membership by [==] in a list, by hash and [==] in a set or
    among the keys of a dict, occurrence in a string; [TypeError] for a value
    that cannot be hashed, for a left operand of a string that is not a
    string, and for a right operand that is not a container. *)
Definition contains (x : value) (c : comparison) : result bool :=
  match c with
  | SetOf s => if hashable x then Returns (py_in x s) else Raises TypeError
  | Object (VList l) => Returns (py_in x l)
  | Object (VDict d) =>
      if hashable x
      then Returns match key_of x with
                   | Some k => existsb (key_eqb k) (dict_keys d)
                   | None => false
                   end
      else Raises TypeError
  | Object (VStr s) =>
      match x with
      | VStr t => Returns (occurs t s)
      | _ => Raises TypeError
      end
  | Object _ => Raises TypeError
  end.

(** The elements of a comparison value that is a list or a set. *)
Definition elements_of (c : comparison) : option (list value) :=
  match c with
  | SetOf s => Some s
  | Object (VList l) => Some l
  | Object _ => None
  end.

(** The comparison value is a set. *)
Definition is_set (c : comparison) : bool :=
  match c with
  | SetOf _ => true
  | Object _ => false
  end.

(** The solver object. *)
Record t : Type := {
  resource_types : list string;
  attribute : string;
  value : comparison
}.

(** [vertex.get(attribute) in self.value] *)
Definition _get_operation (self : t) (vertex : dict) (attribute : string) : result bool :=
  contains (py_get (KStr attribute) vertex) (value self).

End WithinAttributeSolver.

(** ** Readers and shapes used to state the properties *)

(** [m.get(k)] on a mapping with string keys *)
Fixpoint ledger_get {A : Type} (k : string) (m : list (string * A)) : option A :=
  match m with
  | [] => None
  | (k', v) :: m' => if String.eqb k' k then Some v else ledger_get k m'
  end.


(** The path can be assigned through mappings and indices: every component
    but the last, read as [update_inner_attribute] reads it, is a key of the
    mapping or an index in range of the list it meets, and the last container
    is a dict, or a list the last component indexes in range. *)
Fixpoint assignable (parts : list string) (v : value) : bool :=
  match parts with
  | [] => false
  | c :: rest =>
      match v, curr_key_of [c] with
      | VDict d, Some k =>
          match rest with
          | [] => true
          | _ =>
              match dict_get k d with
              | Some x => assignable rest x
              | None => false
              end
          end
      | VList l, Some (KInt i) =>
          match rest with
          | [] => Nat.ltb i (length l)
          | _ =>
              match nth_error l i with
              | Some x => assignable rest x
              | None => false
              end
          end
      | _, _ => false
      end
  end.

(** The traversal of the path reaches a list with a component that is not
    numeric, the case in which the rewrite loops over the elements. *)
Fixpoint broadcasts (parts : list string) (v : value) : bool :=
  match parts with
  | [] => false
  | c :: rest =>
      match v, curr_key_of [c] with
      | VList _, Some (KStr _) => true
      | VList l, Some (KInt i) =>
          match rest with
          | [] => false
          | _ =>
              match nth_error l i with
              | Some x => broadcasts rest x
              | None => false
              end
          end
      | VDict d, Some k =>
          match rest with
          | [] => false
          | _ =>
              match dict_get k d with
              | Some x => broadcasts rest x
              | None => false
              end
          end
      | _, _ => false
      end
  end.

(** The call logged the warning and returned the exception. *)
Definition returned_exception (o : outcome) : bool :=
  match o with
  | Return_exn _ => true
  | _ => false
  end.

(** The traversal fails: one of the calls the rewrite makes one inside the
    other along the path (on the tree, on the entry or element the first
    component names, and so on) ends in the [except] branch that logs the
    warning and returns the exception.  Only the outermost call hands that
    exception to its caller: a call drops what the call inside it returns. *)
Fixpoint fails (parts : list string) (t v : value) : bool :=
  match parts with
  | [] => false
  | c :: rest =>
      returned_exception (snd (update_inner_attribute (py_join "." parts) t v))
      || match rest with
         | [] => false
         | _ =>
             match t, curr_key_of [c] with
             | VDict d, Some k =>
                 match dict_get k d with
                 | Some x => fails rest x v
                 | None => false
                 end
             | VList l, Some (KInt i) =>
                 match nth_error l i with
                 | Some x => fails rest x v
                 | None => false
                 end
             | _, _ => false
             end
         end
  end.

(** No mapping the traversal reaches with two components or more left holds
    what is left of the path as a key. *)
Fixpoint no_shortcut (parts : list string) (t : value) : bool :=
  match parts with
  | [] => true
  | c :: rest =>
      match rest with
      | [] => true
      | _ =>
          match t, curr_key_of [c] with
          | VDict d, k =>
              match dict_get (KStr (py_join "." parts)) d with
              | Some _ => false
              | None =>
                  match k with
                  | Some k =>
                      match dict_get k d with
                      | Some x => no_shortcut rest x
                      | None => true
                      end
                  | None => true
                  end
              end
          | VList l, Some (KInt i) =>
              match nth_error l i with
              | Some x => no_shortcut rest x
              | None => true
              end
          | _, _ => true
          end
      end
  end.

(** [{c1: {c2: ... {cn: v}}}] *)
Definition wrap_path (parts : list string) (v : value) : value :=
  fold_right (fun c acc => VDict [(KStr c, acc)]) v parts.

(** A singleton list is replaced by its element once, and the elements of
    what remains are treated the same way. *)
Fixpoint unwrap_levels (v : value) : value :=
  match
    match v with
    | VList [x] => x
    | _ => v
    end
  with
  | VList l => VList (map unwrap_levels l)
  | VDict d => VDict (map (fun kv => (fst kv, unwrap_levels (snd kv))) d)
  | u => u
  end.

(** Every singleton list is replaced by its element. *)
Fixpoint unwrap_all (v : value) : value :=
  match v with
  | VList l =>
      match map unwrap_all l with
      | [x] => x
      | l' => VList l'
      end
  | VDict d => VDict (map (fun kv => (fst kv, unwrap_all (snd kv))) d)
  | u => u
  end.

(** No key occurs twice. *)
Fixpoint unique_keys (ks : list key) : bool :=
  match ks with
  | [] => true
  | k :: ks' => negb (existsb (key_eqb k) ks') && unique_keys ks'
  end.

(** A value of Python: every dict in it has one entry per key. *)
Fixpoint well_formed (v : value) : bool :=
  match v with
  | VList l => forallb well_formed l
  | VDict d => unique_keys (map fst d) && forallb (fun kv => well_formed (snd kv)) d
  | _ => true
  end.

(** No singleton list has a singleton list as its element. *)
Fixpoint no_nested_singleton (v : value) : bool :=
  match v with
  | VList l =>
      match l with
      | [VList [_]] => false
      | _ => true
      end && forallb no_nested_singleton l
  | VDict d => forallb (fun kv => no_nested_singleton (snd kv)) d
  | _ => true
  end.

(** [get_inner_attributes] after its opening unwrapping. *)
Definition flatten_from (attribute_key : key) (u : value) : dict :=
  match u with
  | VList l =>
      loop_list get_inner_attributes attribute_key 0 l
        [(attribute_key, VList (repeat VNone (length l)))]
  | VDict d =>
      loop_dict get_inner_attributes attribute_key d [(attribute_key, VDict [])]
  | v => [(attribute_key, v)]
  end.

(** [unwrap_levels] after its opening unwrapping. *)
Definition levels_from (u : value) : value :=
  match u with
  | VList l => VList (map unwrap_levels l)
  | VDict d => VDict (map (fun kv => (fst kv, unwrap_levels (snd kv))) d)
  | v => v
  end.

(** A string key longer than the printed form of [k]. *)
Definition longer (k k' : key) : Prop :=
  match k' with
  | KStr s => String.length (key_str k) < String.length s
  | KInt _ => False
  end.

(** The keys of a flattened mapping: the root key and longer ones. *)
Definition keys_within (k : key) (d : dict) : Prop :=
  forall k', In k' (dict_keys d) -> k' = k \/ longer k k'.

(** The one-character string of [U+00B2], superscript two: numeric for
    [isnumeric], rejected by [int]. *)
Definition superscript_two : string := String (ascii_of_nat 178) EmptyString.

(** A block as the constructor leaves it, for a given kind, name and
    attribute object. *)
Definition new_block (name : string) (block_type : BlockType) (config attributes : loc) : Block :=
  {| name := name; config := config; module_dependency := "";
     module_dependency_num := ""; path := ""; block_type := block_type;
     attributes := attributes; id := ""; source := ""; changed_attributes := [];
     breadcrumbs := []; module_connections := []; source_module := [];
     encode := false |}.

(** One environment, to run the definitions on examples: the names are
    placeholders for the imported constants, the path helpers leave the path
    alone, the hash is the number of entries and the encoding is the
    identity.  No property below depends on these choices except where it
    names [sample_env]. *)
Definition sample_env : Env :=
  {| RESOLVED_MODULE_ENTRY_NAME := "resolved_module_entry";
     BLOCK_NAME := "block_name_"; BLOCK_TYPE := "block_type_";
     FILE_PATH := "file_path_"; CONFIG := "config_"; LABEL := "label_";
     ID := "id_"; SOURCE := "source_"; HASH := "hash";
     RENDERING_BREADCRUMBS := "rendering_breadcrumbs_";
     BlockType_value := fun _ => "block";
     BlockType_str := fun _ => "block";
     remove_module_dependency_in_path := fun p => (p, "", "");
     realpath := fun p => p;
     calculate_hash := fun d => VInt (Z.of_nat (length d));
     encode_graph_property_value := fun v => v |}.

(** ** Predicates and shapes used in the proofs *)

(** The separator of a path. *)
Definition dot : ascii := "."%char.

(** A component of a path holds no separator. *)
Definition dot_free (s : string) : Prop := has_dot s = false.

(** A dict has one entry per key. *)
Definition unique (d : dict) : Prop := NoDup (dict_keys d).

(** The order [sort] puts strings in. *)
Definition string_le (a b : string) : Prop := String.leb a b = true.

(** The sorted changed keys, as a list value. *)
Definition changed_keys_field (b : Block) : value :=
  VList (map VStr (sort_strings (map fst (changed_attributes b)))).

(** A path given by its components. *)
Definition path_of (parts : list string) : string := py_join "." parts.

(** The components of some path: at least one, none with a separator. *)
Definition components (parts : list string) : Prop :=
  parts <> [] /\ Forall dot_free parts.

(** The prefix of [k] components of a path. *)
Definition path_prefix (k : nat) (parts : list string) : string := path_of (firstn k parts).

(** A key the synchronisation loop never writes. *)
Definition key_without_dot (k : key) : Prop :=
  match k with
  | KStr s => has_dot s = false
  | KInt _ => True
  end.

(** The call returned. *)
Definition no_raise (o : outcome) : Prop :=
  match o with
  | Raise _ => False
  | _ => True
  end.

(** A component that is a mapping key: no separator, not numeric. *)
Definition plain_component (c : string) : Prop := dot_free c /\ isnumeric c = false.

(** [{"port": n}] *)
Definition port (n : Z) : value := VDict [(KStr "port", VInt n)].

(** A flattened mapping: one entry per key, the root key and longer keys. *)
Definition flat_ok (k : key) (d : dict) : Prop := unique d /\ keys_within k d.

(** What the flattening of an element gives: a flattened mapping under any
    root key. *)
Definition element_ok (x : value) : Prop :=
  forall k, flat_ok k (get_inner_attributes k x).

(** And its root entry is the element with its singletons unwrapped level
    by level. *)
Definition element_root (x : value) : Prop :=
  forall k, dict_get k (get_inner_attributes k x) = Some (unwrap_levels x).

(** An entry of a dict with its value unwrapped level by level. *)
Definition unwrap_entry (kv : key * value) : key * value :=
  (fst kv, unwrap_levels (snd kv)).

(** [type(v) is list and len(v) == 1] *)
Definition is_singleton_list (v : value) : bool :=
  match v with
  | VList [_] => true
  | _ => false
  end.

(** ** [ApiServerStrongCryptographicCiphers] *)

(** Modelled from the spec: the enumeration [CheckResult] of
    [checkov.common.models.enums], which is not under [src]; a check decides
    pass or fail, and the two members the check returns are [PASSED] and
    [FAILED]. *)
Inductive CheckResult : Type := PASSED | FAILED.

(** The module constant [strongCiphers]. *)
Definition strongCiphers : list string :=
  ["TLS_ECDHE_ECDSA_WITH_AES_128_GCM_SHA256";
   "TLS_ECDHE_RSA_WITH_AES_128_GCM_SHA256";
   "TLS_ECDHE_ECDSA_WITH_CHACHA20_POLY1305";
   "TLS_ECDHE_RSA_WITH_AES_256_GCM_SHA384";
   "TLS_ECDHE_RSA_WITH_CHACHA20_POLY1305";
   "TLS_ECDHE_ECDSA_WITH_AES_256_GCM_SHA384";
   "TLS_RSA_WITH_AES_256_GCM_SHA384";
   "TLS_RSA_WITH_AES_128_GCM_SHA256"].

(** [s.startswith(p)] *)
Definition startswith (s p : string) : bool := String.prefix p s.

(** [cipher in strongCiphers] *)
Definition is_strong (cipher : string) : bool :=
  existsb (String.eqb cipher) strongCiphers.

(** The loop [for command in conf["command"]], on the items the iteration
    yields.  An item that is not a string has no [startswith]; a command with
    the flag and no ["="] has no field 1. *)
Fixpoint scan_commands (commands : list value) : result CheckResult :=
  match commands with
  | [] => Returns PASSED
  | VStr command :: rest =>
      if startswith command "--tls-cipher-suites" then
        match nth_error (py_split "="%char command) 1 with
        | None => Raises IndexError
        | Some value =>
            if forallb is_strong (py_split ","%char value)
            then scan_commands rest
            else Returns FAILED
        end
      else scan_commands rest
  | _ :: _ => Raises AttributeError
  end.

(** A key of a dict as the value the iteration over the dict yields. *)
Definition key_value (k : key) : value :=
  match k with
  | KStr s => VStr s
  | KInt n => VInt (Z.of_nat n)
  end.

(** [ApiServerStrongCryptographicCiphers.scan_spec_conf].  The value under
    [command] is a list in a container spec; for a dict, [in] and the loop go
    over its keys; for a string, [in] is the substring test and the loop goes
    over its characters, none of which starts with the flag; [None], a [bool]
    and an [int] are not iterable. *)
Definition scan_spec_conf (conf : dict) : result CheckResult :=
  match dict_get (KStr "command") conf with
  | None => Returns PASSED
  | Some (VList l) =>
      if py_in (VStr "kube-apiserver") l then scan_commands l else Returns PASSED
  | Some (VDict d) =>
      if existsb (key_eqb (KStr "kube-apiserver")) (dict_keys d)
      then scan_commands (map key_value (dict_keys d))
      else Returns PASSED
  | Some (VStr _) => Returns PASSED
  | Some _ => Raises TypeError
  end.

(** The character [a] occurs in [s]. *)
Fixpoint has_char (a : ascii) (s : string) : bool :=
  match s with
  | EmptyString => false
  | String c s' => Ascii.eqb c a || has_char a s'
  end.

(** The command carries the flag of the cipher suites. *)
Definition flagged (command : string) : bool :=
  startswith command "--tls-cipher-suites".

(** [command.split("=")[1]], with [None] for [IndexError]. *)
Definition cipher_field (command : string) : option string :=
  nth_error (py_split "="%char command) 1.

(** The ciphers a command lists: [command.split("=")[1].split(",")]. *)
Definition listed_ciphers (command : string) : list string :=
  match cipher_field command with
  | Some value => py_split ","%char value
  | None => []
  end.

(** A command the loop passes over: no flag, or only strong ciphers. *)
Definition harmless (command : string) : Prop :=
  flagged command = true ->
  cipher_field command <> None
  /\ forall cipher, In cipher (listed_ciphers command) -> is_strong cipher = true.

(** The loop passes over the command. *)
Definition passes (command : string) : bool :=
  negb (flagged command) || forallb is_strong (listed_ciphers command).

(** ** The other methods of [Block] *)

(** The block after an assignment into [self.module_connections]. *)
Definition with_module_connections (b : Block) (c : list (string * list value)) : Block :=
  {| name := name b; config := config b;
     module_dependency := module_dependency b;
     module_dependency_num := module_dependency_num b;
     path := path b; block_type := block_type b; attributes := attributes b;
     id := id b; source := source b; changed_attributes := changed_attributes b;
     breadcrumbs := breadcrumbs b; module_connections := c;
     source_module := source_module b; encode := encode b |}.

(** The list [self.module_connections[attribute_key]] that the method
    appends to: the one recorded, or the new empty list. *)
Definition connections_of (b : Block) (attribute_key : string) : list value :=
  match ledger_get attribute_key (module_connections b) with
  | Some l => l
  | None => []
  end.

(** [Block.add_module_connection] *)
Definition add_module_connection (b : Block) (attribute_key : string) (vertex_id : value) :
  Block :=
  let connections :=
    match ledger_get attribute_key (module_connections b) with
    | Some (_ :: _) => module_connections b
    | _ => ledger_set attribute_key [] (module_connections b)
    end in
  with_module_connections b
    (ledger_set attribute_key
       (match ledger_get attribute_key connections with
        | Some l => l ++ [vertex_id]
        | None => [vertex_id]
        end)
       connections).

(** The same block with another [encode] flag. *)
Definition with_encode (b : Block) (e : bool) : Block :=
  {| name := name b; config := config b;
     module_dependency := module_dependency b;
     module_dependency_num := module_dependency_num b;
     path := path b; block_type := block_type b; attributes := attributes b;
     id := id b; source := source b; changed_attributes := changed_attributes b;
     breadcrumbs := breadcrumbs b; module_connections := module_connections b;
     source_module := source_module b; encode := e |}.

Section Block_decoded_export.
Variable E : Env.

(** [decode_graph_property_value] of [checkov.terraform.checks.utils.utils],
    imported and not under [src]. *)
Variable decode_graph_property_value : value -> value.

(** [Block.get_decoded_attribute_dict] *)
Definition get_decoded_attribute_dict (h : heap) (b : Block) : dict :=
  let attributes := get_attribute_dict E h b in
  if encode b
  then map (fun kv => (fst kv, decode_graph_property_value (snd kv))) attributes
  else attributes.
End Block_decoded_export.

(** An encoder that can be undone, to run the decoded export on examples:
    a value is encoded as the pair of a tag and the value. *)
Definition tag (v : value) : value := VList [VStr "encoded"; v].

Definition untag (v : value) : value :=
  match v with
  | VList [VStr "encoded"; x] => x
  | _ => v
  end.

Definition tagging_env : Env :=
  {| RESOLVED_MODULE_ENTRY_NAME := RESOLVED_MODULE_ENTRY_NAME sample_env;
     BLOCK_NAME := BLOCK_NAME sample_env; BLOCK_TYPE := BLOCK_TYPE sample_env;
     FILE_PATH := FILE_PATH sample_env; CONFIG := CONFIG sample_env;
     LABEL := LABEL sample_env; ID := ID sample_env; SOURCE := SOURCE sample_env;
     HASH := HASH sample_env;
     RENDERING_BREADCRUMBS := RENDERING_BREADCRUMBS sample_env;
     BlockType_value := BlockType_value sample_env;
     BlockType_str := BlockType_str sample_env;
     remove_module_dependency_in_path := remove_module_dependency_in_path sample_env;
     realpath := realpath sample_env;
     calculate_hash := calculate_hash sample_env;
     encode_graph_property_value := tag |}.

(** A key that extends the printed form of [k] by a dot and more: the keys
    the flattening writes below the root key [k]. *)
Definition below (k y : key) : Prop :=
  exists rest, y = KStr (key_str k ++ "." ++ rest).

(** [isinstance(v, (list, dict))] *)
Definition is_container (v : value) : bool :=
  match v with
  | VList _ | VDict _ => true
  | _ => false
  end.

(** A key that has a dot: the flattened entries below a root key. *)
Definition dotted_key (k : key) : Prop :=
  match k with
  | KStr s => has_dot s = true
  | KInt _ => False
  end.

(** * Properties *)

(** ** Keys, dicts and the store *)

Lemma key_eqb_eq (a b : key) : key_eqb a b = true <-> a = b.
Proof.
  destruct a as [s|n], b as [t|m]; simpl.
  - rewrite String.eqb_eq. split; [intros ->; reflexivity | congruence].
  - split; discriminate.
  - split; discriminate.
  - rewrite Nat.eqb_eq. split; [intros ->; reflexivity | congruence].
Qed.

Lemma key_eqb_refl (a : key) : key_eqb a a = true.
Proof. apply key_eqb_eq. reflexivity. Qed.

Lemma key_eqb_neq (a b : key) : key_eqb a b = false <-> a <> b.
Proof.
  rewrite <- key_eqb_eq. destruct (key_eqb a b); split; congruence.
Qed.

Lemma key_eqb_sym (a b : key) : key_eqb a b = key_eqb b a.
Proof.
  destruct (key_eqb a b) eqn:H.
  - apply key_eqb_eq in H. subst. symmetry. apply key_eqb_refl.
  - symmetry. apply key_eqb_neq. apply key_eqb_neq in H. congruence.
Qed.

Lemma dict_get_set_same (k : key) (v : value) (d : dict) :
  dict_get k (dict_set k v d) = Some v.
Proof.
  induction d as [|[k' v'] d IH]; simpl.
  - rewrite key_eqb_refl. reflexivity.
  - destruct (key_eqb k' k) eqn:Hk; simpl; rewrite Hk; auto.
Qed.

Lemma dict_get_set_other (k k' : key) (v : value) (d : dict) :
  k <> k' -> dict_get k (dict_set k' v d) = dict_get k d.
Proof.
  intros Hne. induction d as [|[k0 v0] d IH]; simpl.
  - destruct (key_eqb k' k) eqn:Hk; [apply key_eqb_eq in Hk; congruence | reflexivity].
  - destruct (key_eqb k0 k') eqn:Hk0; simpl.
    + apply key_eqb_eq in Hk0. subst k0.
      destruct (key_eqb k' k) eqn:Hk; [apply key_eqb_eq in Hk; congruence | reflexivity].
    + rewrite IH. reflexivity.
Qed.

Lemma dict_get_del_same (k : key) (d : dict) :
  NoDup (dict_keys d) -> dict_get k (dict_del k d) = None.
Proof.
  induction d as [|[k' v'] d IH]; simpl; intros Hnd; [reflexivity|].
  inversion Hnd as [|? ? Hnotin Hnd']; subst.
  destruct (key_eqb k' k) eqn:Hk; simpl.
  - apply key_eqb_eq in Hk. subst k'.
    clear IH Hnd Hnd'. induction d as [|[k0 v0] d IH]; simpl; [reflexivity|].
    destruct (key_eqb k0 k) eqn:Hk0.
    + apply key_eqb_eq in Hk0. subst. exfalso. apply Hnotin. left. reflexivity.
    + apply IH. intro Hin. apply Hnotin. right. exact Hin.
  - rewrite Hk. apply IH. exact Hnd'.
Qed.

Lemma dict_get_del_other (k k' : key) (d : dict) :
  k <> k' -> dict_get k (dict_del k' d) = dict_get k d.
Proof.
  intros Hne. induction d as [|[k0 v0] d IH]; simpl; [reflexivity|].
  destruct (key_eqb k0 k') eqn:Hk0; simpl.
  - apply key_eqb_eq in Hk0. subst k0.
    destruct (key_eqb k' k) eqn:Hk; [apply key_eqb_eq in Hk; congruence | reflexivity].
  - rewrite IH. reflexivity.
Qed.

Lemma dict_keys_set (k : key) (v : value) (d : dict) :
  dict_keys (dict_set k v d)
  = if existsb (key_eqb k) (dict_keys d) then dict_keys d else dict_keys d ++ [k].
Proof.
  induction d as [|[k' v'] d IH]; simpl; [reflexivity|].
  rewrite (key_eqb_sym k k'). destruct (key_eqb k' k) eqn:Hk; simpl; [reflexivity|].
  fold (dict_keys (dict_set k v d)). fold (dict_keys d). rewrite IH.
  destruct (existsb (key_eqb k) (dict_keys d)); reflexivity.
Qed.

Lemma deref_store_same (h : heap) (l : loc) (d : dict) :
  l < length h -> deref (store h l d) l = d.
Proof.
  unfold deref. revert l. induction h as [|x h IH]; intros [|l] Hl; simpl in *;
    try lia; [reflexivity|]. apply IH. lia.
Qed.

Lemma deref_store_other (h : heap) (l l' : loc) (d : dict) :
  l <> l' -> deref (store h l d) l' = deref h l'.
Proof.
  unfold deref. revert l l'. induction h as [|x h IH]; intros [|l] [|l'] Hne; simpl;
    try reflexivity; try congruence. apply IH. congruence.
Qed.

Lemma length_store (h : heap) (l : loc) (d : dict) : length (store h l d) = length h.
Proof.
  revert l. induction h as [|x h IH]; intros [|l]; simpl; auto.
Qed.

(** ** Dotted paths *)

Lemma py_split_not_nil (s : string) : py_split dot s <> [].
Proof.
  destruct s as [|c s]; simpl; [discriminate|].
  destruct (Ascii.eqb c dot); [discriminate|].
  destruct (py_split dot s); discriminate.
Qed.

Lemma py_split_dot_free (s : string) : Forall dot_free (py_split dot s).
Proof.
  induction s as [|c s IH]; simpl.
  - constructor; [reflexivity | constructor].
  - destruct (Ascii.eqb c dot) eqn:Hc.
    + constructor; [reflexivity | exact IH].
    + destruct (py_split dot s) as [|p ps]; [repeat constructor|].
      * unfold dot_free; simpl. fold dot. rewrite Hc. reflexivity.
      * inversion IH; subst. constructor; [|assumption].
        unfold dot_free in *; simpl. fold dot. rewrite Hc. assumption.
Qed.

Lemma py_split_dot_free_part (c : string) : dot_free c -> py_split dot c = [c].
Proof.
  unfold dot_free. induction c as [|a c IH]; simpl; intros H; [reflexivity|].
  fold dot in H. apply orb_false_iff in H. destruct H as [Ha Hc].
  rewrite Ha, (IH Hc). reflexivity.
Qed.

Lemma py_split_app (c s : string) :
  dot_free c -> py_split dot (c ++ String dot s)%string = c :: py_split dot s.
Proof.
  unfold dot_free. induction c as [|a c IH]; simpl; intros H.
  - reflexivity.
  - fold dot in H. apply orb_false_iff in H. destruct H as [Ha Hc].
    rewrite Ha, (IH Hc). reflexivity.
Qed.

Lemma py_join_cons (c : string) (parts : list string) :
  parts <> [] -> py_join "." (c :: parts) = (c ++ String dot (py_join "." parts))%string.
Proof.
  destruct parts; [congruence|]. intros _. reflexivity.
Qed.

Lemma py_split_join (parts : list string) :
  parts <> [] -> Forall dot_free parts -> py_split dot (py_join "." parts) = parts.
Proof.
  induction parts as [|c parts IH]; [congruence|]. intros _ Hall.
  inversion Hall as [|? ? Hc Hrest]; subst.
  destruct parts as [|c' parts'].
  - apply py_split_dot_free_part. exact Hc.
  - rewrite py_join_cons by discriminate.
    rewrite py_split_app by exact Hc.
    rewrite IH; [reflexivity | discriminate | exact Hrest].
Qed.

Lemma py_join_String (c : ascii) (p : string) (ps : list string) :
  py_join "." (String c p :: ps) = String c (py_join "." (p :: ps)).
Proof. destruct ps; reflexivity. Qed.

Lemma py_join_split (s : string) : py_join "." (py_split dot s) = s.
Proof.
  induction s as [|c s IH]; [reflexivity|]. simpl.
  destruct (Ascii.eqb c dot) eqn:Hc.
  - apply Ascii.eqb_eq in Hc. subst c.
    rewrite py_join_cons by apply py_split_not_nil. rewrite IH. reflexivity.
  - destruct (py_split dot s) as [|p ps] eqn:Hs.
    + exfalso. apply (py_split_not_nil s). exact Hs.
    + rewrite py_join_String, IH. reflexivity.
Qed.

Lemma has_dot_app (a b : string) : has_dot (a ++ b)%string = has_dot a || has_dot b.
Proof.
  induction a as [|c a IH]; simpl; [reflexivity|]. rewrite IH. apply orb_assoc.
Qed.

Lemma has_dot_join (parts : list string) :
  Forall dot_free parts -> has_dot (py_join "." parts) = Nat.leb 2 (length parts).
Proof.
  induction 1 as [|c parts Hc Hall IH]; [reflexivity|].
  destruct parts as [|c' parts'].
  - simpl. exact Hc.
  - rewrite py_join_cons by discriminate. rewrite has_dot_app. simpl.
    apply orb_true_r.
Qed.

Lemma has_dot_length_split (s : string) :
  has_dot s = Nat.leb 2 (length (py_split dot s)).
Proof.
  rewrite <- (py_join_split s) at 1. apply has_dot_join. apply py_split_dot_free.
Qed.

Lemma py_join_inj (a b : list string) :
  a <> [] -> b <> [] -> Forall dot_free a -> Forall dot_free b ->
  py_join "." a = py_join "." b -> a = b.
Proof.
  intros Ha Hb Fa Fb Heq.
  rewrite <- (py_split_join a Ha Fa), <- (py_split_join b Hb Fb), Heq. reflexivity.
Qed.

(** ** The membership operator *)

Lemma py_in_spec (x : value) (l : list value) :
  py_in x l = true <-> exists y, In y l /\ py_eq x y = true.
Proof. unfold py_in. apply existsb_exists. Qed.

Lemma py_eq_None (y : value) : py_eq VNone y = true <-> y = VNone.
Proof. destruct y; simpl; split; congruence. Qed.

Lemma py_in_None (l : list value) : py_in VNone l = true <-> In VNone l.
Proof.
  rewrite py_in_spec. split.
  - intros [y [Hin Heq]]. apply py_eq_None in Heq. subst. exact Hin.
  - intros Hin. exists VNone. split; [exact Hin | reflexivity].
Qed.

(** C8, as the code has it, for a comparison value that is a list or a
    set.  The operator returns a verdict, true exactly when the value
    [vertex.get(attribute)] is an element of the collection (an element that
    [==] identifies with it), whenever the collection is a list or the value
    can be hashed; with a set and a value that is a list or a dict it raises
    [TypeError].  For an attribute that is absent the value is [None], which
    can be hashed: the operator returns, true exactly when [None] is an
    element of the collection, and false for every collection that does not
    hold [None]. *)
Theorem within_is_membership_of_get (self : WithinAttributeSolver.t) (vertex : dict)
  (attribute : string) (elements : list value)
  (Hcollection : WithinAttributeSolver.elements_of (WithinAttributeSolver.value self)
                 = Some elements) :
  (forall v, dict_get (KStr attribute) vertex = Some v ->
     (WithinAttributeSolver.is_set (WithinAttributeSolver.value self) = true ->
      WithinAttributeSolver.hashable v = true) ->
     exists verdict,
       WithinAttributeSolver._get_operation self vertex attribute = Returns verdict
       /\ (verdict = true <-> exists y, In y elements /\ py_eq v y = true))
  /\ (forall v, dict_get (KStr attribute) vertex = Some v ->
        WithinAttributeSolver.is_set (WithinAttributeSolver.value self) = true ->
        WithinAttributeSolver.hashable v = false ->
        WithinAttributeSolver._get_operation self vertex attribute = Raises TypeError)
  /\ (dict_get (KStr attribute) vertex = None ->
      exists verdict,
        WithinAttributeSolver._get_operation self vertex attribute = Returns verdict
        /\ (verdict = true <-> In VNone elements))
  /\ (dict_get (KStr attribute) vertex = None -> ~ In VNone elements ->
      WithinAttributeSolver._get_operation self vertex attribute = Returns false).
Proof.
  unfold WithinAttributeSolver._get_operation, py_get.
  destruct (WithinAttributeSolver.value self) as [s|[| | | |l|d]]; try discriminate;
    simpl in Hcollection; injection Hcollection as <-; simpl.
  - split; [|split; [|split]].
    + intros v Hv Hhash. rewrite Hv, (Hhash eq_refl).
      eexists. split; [reflexivity | apply py_in_spec].
    + intros v Hv _ Hhash. rewrite Hv, Hhash. reflexivity.
    + intros Hv. rewrite Hv. simpl. eexists. split; [reflexivity | apply py_in_None].
    + intros Hv Hnot. rewrite Hv. simpl.
      destruct (py_in VNone s) eqn:Hin; [|reflexivity].
      apply py_in_None in Hin. contradiction.
  - split; [|split; [|split]].
    + intros v Hv _. rewrite Hv. eexists. split; [reflexivity | apply py_in_spec].
    + intros v _ Hset. discriminate.
    + intros Hv. rewrite Hv. eexists. split; [reflexivity | apply py_in_None].
    + intros Hv Hnot. rewrite Hv.
      destruct (py_in VNone l) eqn:Hin; [|reflexivity].
      apply py_in_None in Hin. contradiction.
Qed.

Lemma within_is_membership_of_get_witness :
  let solver :=
    {| WithinAttributeSolver.resource_types := ["aws_lb_listener"];
       WithinAttributeSolver.attribute := "cipher";
       WithinAttributeSolver.value :=
         WithinAttributeSolver.SetOf
           [VStr "TLS_AES_128_GCM_SHA256"; VStr "TLS_AES_256_GCM_SHA384"] |} in
  WithinAttributeSolver._get_operation solver
    [(KStr "cipher", VStr "TLS_AES_128_GCM_SHA256")] "cipher" = Returns true
  /\ WithinAttributeSolver._get_operation solver
       [(KStr "cipher", VList [VStr "TLS_AES_128_GCM_SHA256"])] "cipher" = Raises TypeError
  /\ WithinAttributeSolver._get_operation solver [] "cipher" = Returns false.
Proof.
  cbv zeta.
  pose proof (within_is_membership_of_get
                {| WithinAttributeSolver.resource_types := ["aws_lb_listener"];
                   WithinAttributeSolver.attribute := "cipher";
                   WithinAttributeSolver.value :=
                     WithinAttributeSolver.SetOf
                       [VStr "TLS_AES_128_GCM_SHA256"; VStr "TLS_AES_256_GCM_SHA384"] |}
                [(KStr "cipher", VList [VStr "TLS_AES_128_GCM_SHA256"])] "cipher"
                [VStr "TLS_AES_128_GCM_SHA256"; VStr "TLS_AES_256_GCM_SHA384"]
                eq_refl) as Hlist.
  pose proof (within_is_membership_of_get
                {| WithinAttributeSolver.resource_types := ["aws_lb_listener"];
                   WithinAttributeSolver.attribute := "cipher";
                   WithinAttributeSolver.value :=
                     WithinAttributeSolver.SetOf
                       [VStr "TLS_AES_128_GCM_SHA256"; VStr "TLS_AES_256_GCM_SHA384"] |}
                [] "cipher"
                [VStr "TLS_AES_128_GCM_SHA256"; VStr "TLS_AES_256_GCM_SHA384"]
                eq_refl) as Habsent.
  split; [reflexivity|]. split.
  - apply (proj1 (proj2 Hlist) (VList [VStr "TLS_AES_128_GCM_SHA256"])); reflexivity.
  - apply (proj2 (proj2 (proj2 Habsent))); [reflexivity|].
    simpl. intros [H|[H|[]]]; discriminate.
Defined.

(** C8, the claim as stated fails: with the comparison collection [[None]]
    (or the set that holds [None]) and a vertex that has no [cipher]
    attribute the operator answers true. *)
Lemma within_absent_attribute_can_be_true :
  WithinAttributeSolver._get_operation
    {| WithinAttributeSolver.resource_types := [];
       WithinAttributeSolver.attribute := "cipher";
       WithinAttributeSolver.value := WithinAttributeSolver.Object (VList [VNone]) |}
    [] "cipher" = Returns true
  /\ WithinAttributeSolver._get_operation
       {| WithinAttributeSolver.resource_types := [];
          WithinAttributeSolver.attribute := "cipher";
          WithinAttributeSolver.value := WithinAttributeSolver.SetOf [VNone] |}
       [] "cipher" = Returns true.
Proof. split; reflexivity. Qed.

(** The scenario of the spec: the two cipher names as comparison set. *)
Example within_cipher_scenario :
  let solver :=
    {| WithinAttributeSolver.resource_types := [];
       WithinAttributeSolver.attribute := "cipher";
       WithinAttributeSolver.value :=
         WithinAttributeSolver.SetOf
           [VStr "TLS_AES_128_GCM_SHA256"; VStr "TLS_AES_256_GCM_SHA384"] |} in
  WithinAttributeSolver._get_operation solver
    [(KStr "cipher", VStr "TLS_AES_128_GCM_SHA256")] "cipher" = Returns true
  /\ WithinAttributeSolver._get_operation solver
       [(KStr "cipher", VStr "TLS_RC4_MD5")] "cipher" = Returns false
  /\ WithinAttributeSolver._get_operation solver [] "cipher" = Returns false.
Proof. repeat split. Qed.

(** A comparison value that is a string: the operator tests occurrence for
    an exported string, and raises [TypeError] for any other value and for an
    absent attribute. *)
Example within_text_comparison :
  let solver :=
    {| WithinAttributeSolver.resource_types := [];
       WithinAttributeSolver.attribute := "cipher";
       WithinAttributeSolver.value := WithinAttributeSolver.Object (VStr "TLS_AES") |} in
  WithinAttributeSolver._get_operation solver [(KStr "cipher", VStr "AES")] "cipher"
  = Returns true
  /\ WithinAttributeSolver._get_operation solver [(KStr "cipher", VInt 1)] "cipher"
     = Raises TypeError
  /\ WithinAttributeSolver._get_operation solver [] "cipher" = Raises TypeError.
Proof. repeat split. Qed.

(** ** [find_attribute] *)

(** C7, as the code has it: with a truthy value under [default], a variable
    block whose only attribute is [default] answers ["default"] to
    [["anything"]]; likewise an output block with a truthy [value]; a resource
    block named ["aws_vpc.example"] whose only attribute is a truthy
    [cidr_block] answers ["cidr_block"] to [["aws_vpc.example";
    "cidr_block"]]; the empty candidate list gives no match; and when the
    keys the lookup reads are all missing the result is no match.  The
    function only reads the store. *)
Theorem find_attribute_cross_kind :
  (forall h b d, block_type b = VARIABLE ->
     deref h (attributes b) = [(KStr "default", d)] -> truthy d = true ->
     find_attribute h b ["anything"] = Some "default")
  /\ (forall h b d, block_type b = OUTPUT ->
        deref h (attributes b) = [(KStr "value", d)] -> truthy d = true ->
        find_attribute h b ["anything"] = Some "value")
  /\ (forall h b c, block_type b = RESOURCE -> name b = "aws_vpc.example" ->
        deref h (attributes b) = [(KStr "cidr_block", c)] -> truthy c = true ->
        find_attribute h b ["aws_vpc.example"; "cidr_block"] = Some "cidr_block")
  /\ (forall h b, find_attribute h b [] = None)
  /\ (forall h b attribute,
        (forall k, In k ("default" :: "value" :: attribute) ->
                   dict_get (KStr k) (deref h (attributes b)) = None) ->
        find_attribute h b attribute = None).
Proof.
  repeat split.
  - intros h b d Ht Ha Hd. unfold find_attribute. rewrite Ha, Ht.
    unfold py_get. simpl. rewrite Hd. reflexivity.
  - intros h b d Ht Ha Hd. unfold find_attribute. rewrite Ha, Ht.
    unfold py_get. simpl. rewrite Hd. reflexivity.
  - intros h b c Ht Hn Ha Hc. unfold find_attribute. rewrite Ha, Ht, Hn.
    unfold py_get. simpl. rewrite Hc. reflexivity.
  - intros h b attribute Hmiss. unfold find_attribute.
    destruct attribute as [|first others]; [reflexivity|].
    unfold py_get. rewrite (Hmiss first) by (simpl; auto). simpl.
    rewrite (Hmiss "default") by (simpl; auto).
    rewrite (Hmiss "value") by (simpl; auto). simpl.
    destruct (block_type b); try reflexivity.
    destruct others as [|second others]; [reflexivity|].
    rewrite (Hmiss second) by (simpl; auto). simpl.
    rewrite andb_false_r. reflexivity.
Qed.

Lemma find_attribute_cross_kind_witness :
  find_attribute [[(KStr "default", VStr "eu-west-1")]]
    (new_block "region" VARIABLE 0 0) ["anything"] = Some "default"
  /\ find_attribute [[(KStr "value", VStr "vpc-1")]]
       (new_block "vpc_id" OUTPUT 0 0) ["anything"] = Some "value"
  /\ find_attribute [[(KStr "cidr_block", VStr "10.0.0.0/16")]]
       (new_block "aws_vpc.example" RESOURCE 0 0) ["aws_vpc.example"; "cidr_block"]
     = Some "cidr_block".
Proof.
  destruct find_attribute_cross_kind as [H1 [H2 [H3 _]]].
  split; [|split].
  - apply (H1 _ _ (VStr "eu-west-1")); reflexivity.
  - apply (H2 _ _ (VStr "vpc-1")); reflexivity.
  - apply (H3 _ _ (VStr "10.0.0.0/16")); reflexivity.
Defined.

(** C7, the claim as stated fails: a variable block built from the mapping
    [{"default": ""}] answers no match to [["anything"]]. *)
Lemma find_attribute_falsy_default :
  let r := Block_init sample_env [[]; [(KStr "default", VStr "")]]
             "var" 0 "" VARIABLE 1 "" "" false in
  deref (fst r) (attributes (snd r)) = [(KStr "default", VStr "")]
  /\ find_attribute (fst r) (snd r) ["anything"] = None.
Proof. split; reflexivity. Qed.

(** C10: the lookup sees the attributes only through the truth value of
    what [get] returns, so a key that holds a falsy value counts as a missing
    one; and when the first candidate and the key the kind falls back on
    ([default], [value], the second candidate of a resource) hold falsy values
    or are missing, the result is no match. *)
Theorem find_attribute_by_truthiness :
  (forall h h' b attribute,
     (forall k, truthy (py_get k (deref h (attributes b)))
                = truthy (py_get k (deref h' (attributes b)))) ->
     find_attribute h b attribute = find_attribute h' b attribute)
  /\ (forall h b first others,
        truthy (py_get (KStr first) (deref h (attributes b))) = false ->
        match block_type b with
        | VARIABLE => truthy (py_get (KStr "default") (deref h (attributes b))) = false
        | OUTPUT => truthy (py_get (KStr "value") (deref h (attributes b))) = false
        | RESOURCE =>
            match others with
            | second :: _ =>
                truthy (py_get (KStr second) (deref h (attributes b))) = false
            | [] => True
            end
        | _ => True
        end ->
        find_attribute h b (first :: others) = None)
  /\ (forall v, In v [VNone; VBool false; VInt 0; VStr ""; VList []; VDict []] ->
        truthy v = false).
Proof.
  split; [|split].
  - intros h h' b attribute Hsame. unfold find_attribute.
    destruct attribute as [|first others]; [reflexivity|].
    rewrite (Hsame (KStr first)), (Hsame (KStr "default")), (Hsame (KStr "value")).
    destruct others as [|second others]; [reflexivity|].
    rewrite (Hsame (KStr second)). reflexivity.
  - intros h b first others Hfirst Hkind. unfold find_attribute. rewrite Hfirst.
    destruct (block_type b); try reflexivity.
    + destruct others as [|second others]; [reflexivity|].
      rewrite Hkind, andb_false_r. reflexivity.
    + rewrite Hkind. reflexivity.
    + rewrite Hkind. reflexivity.
  - intros v Hin. simpl in Hin.
    repeat (destruct Hin as [<-|Hin]; [reflexivity|]). contradiction.
Qed.

Lemma find_attribute_by_truthiness_witness :
  find_attribute [[(KStr "x", VInt 0); (KStr "default", VStr "")]]
    (new_block "var" VARIABLE 0 0) ["x"] = None
  /\ find_attribute [[(KStr "r", VList []); (KStr "acl", VBool false)]]
       (new_block "r" RESOURCE 0 0) ["r"; "acl"] = None.
Proof.
  destruct find_attribute_by_truthiness as [_ [H _]].
  split; apply H; reflexivity.
Defined.

(** A variable block whose [default] exists and is the empty string, and a
    resource block whose two candidates exist with falsy values. *)
Example find_attribute_falsy_examples :
  find_attribute [[(KStr "x", VInt 0); (KStr "default", VStr "")]]
    (new_block "var" VARIABLE 0 0) ["x"] = None
  /\ find_attribute [[(KStr "r", VList []); (KStr "acl", VBool false)]]
       (new_block "r" RESOURCE 0 0) ["r"; "acl"] = None.
Proof. split; reflexivity. Qed.

(** ** Export and fingerprint *)

Lemma existsb_key_In (k : key) (ks : list key) :
  existsb (key_eqb k) ks = true <-> In k ks.
Proof.
  rewrite existsb_exists. split.
  - intros [x [Hin Heq]]. apply key_eqb_eq in Heq. subst. exact Hin.
  - intros Hin. exists k. split; [exact Hin | apply key_eqb_refl].
Qed.

Lemma dict_set_unique (k : key) (v : value) (d : dict) :
  unique d -> unique (dict_set k v d).
Proof.
  unfold unique. intros Hd. rewrite dict_keys_set.
  destruct (existsb (key_eqb k) (dict_keys d)) eqn:Hk; [exact Hd|].
  apply NoDup_app; [exact Hd | repeat constructor; simpl; tauto |].
  intros x Hx [Hx' | []]. subst x.
  apply existsb_key_In in Hx. congruence.
Qed.

Lemma dict_update_unique (d other : dict) : unique d -> unique (dict_update d other).
Proof.
  unfold dict_update. revert d.
  induction other as [|[k v] other IH]; simpl; intros d Hd; [exact Hd|].
  apply IH. apply dict_set_unique. exact Hd.
Qed.

Lemma dict_set_idem (k : key) (v : value) (d : dict) :
  dict_set k v (dict_set k v d) = dict_set k v d.
Proof.
  induction d as [|[k' v'] d IH]; simpl.
  - rewrite key_eqb_refl. reflexivity.
  - destruct (key_eqb k' k) eqn:Hk; simpl; rewrite Hk; [reflexivity|].
    rewrite IH. reflexivity.
Qed.

Lemma dict_get_map_values (f : value -> value) (k : key) (d : dict) :
  dict_get k (map (fun kv => (fst kv, f (snd kv))) d) = option_map f (dict_get k d).
Proof.
  induction d as [|[k' v'] d IH]; simpl; [reflexivity|].
  destruct (key_eqb k' k); [reflexivity | exact IH].
Qed.

Lemma dict_keys_map_values (f : value -> value) (d : dict) :
  dict_keys (map (fun kv => (fst kv, f (snd kv))) d) = dict_keys d.
Proof.
  unfold dict_keys. rewrite map_map. reflexivity.
Qed.

Lemma origin_step_unique (base : dict) (kv : key * value) :
  unique base -> unique (origin_step base kv).
Proof.
  intros Hb. unfold origin_step.
  assert (Hu : unique
            match unwrap_singleton (snd kv) with
            | VList _ | VDict _ =>
                dict_update base (get_inner_attributes (fst kv) (unwrap_singleton (snd kv)))
            | _ => base
            end).
  { destruct (unwrap_singleton (snd kv)); try exact Hb;
      apply dict_update_unique; exact Hb. }
  destruct (key_eqb (fst kv) (KStr "self")); apply dict_set_unique; exact Hu.
Qed.

Lemma get_origin_attributes_unique (attrs base : dict) :
  unique base -> unique (get_origin_attributes attrs base).
Proof.
  unfold get_origin_attributes. revert base.
  induction attrs as [|kv attrs IH]; simpl; intros base Hb; [exact Hb|].
  apply IH. apply origin_step_unique. exact Hb.
Qed.

Lemma hashed_attributes_unique (E : Env) (h : heap) (b : Block) :
  unique (hashed_attributes E h b).
Proof.
  unfold hashed_attributes.
  assert (H0 : unique (get_origin_attributes (deref h (attributes b))
                         (get_base_attributes E h b))).
  { apply get_origin_attributes_unique. unfold get_base_attributes, set_field.
    repeat apply dict_set_unique. constructor. }
  set (d0 := get_origin_attributes _ _) in *.
  assert (H1 : unique
            match changed_attributes b with
            | [] => d0
            | _ :: _ =>
                dict_set (KStr "changed_attributes")
                  (VList (map VStr (sort_strings (map fst (changed_attributes b))))) d0
            end).
  { destruct (changed_attributes b); [exact H0 | apply dict_set_unique; exact H0]. }
  set (d1 := match changed_attributes b with [] => d0 | _ :: _ => _ end) in *.
  assert (H2 : unique
            match breadcrumbs b with
            | [] => d1
            | _ :: _ =>
                dict_set (KStr (RENDERING_BREADCRUMBS E))
                  (VDict (map (fun kv => (KStr (fst kv), snd kv))
                            (sort_items (breadcrumbs b)))) d1
            end).
  { destruct (breadcrumbs b); [exact H1 | apply dict_set_unique; exact H1]. }
  destruct (encode b); [|exact H2].
  unfold unique. rewrite dict_keys_map_values. exact H2.
Qed.

(** The sort of the changed keys: ordered, and the same keys. *)
Lemma insert_sorted_perm (s : string) (l : list string) :
  Permutation (s :: l) (insert_sorted s l).
Proof.
  induction l as [|x l IH]; simpl; [apply Permutation_refl|].
  destruct (String.leb s x); [apply Permutation_refl|].
  eapply Permutation_trans; [apply perm_swap|]. apply perm_skip. exact IH.
Qed.

Lemma sort_strings_perm (l : list string) : Permutation l (sort_strings l).
Proof.
  induction l as [|s l IH]; simpl; [constructor|].
  eapply Permutation_trans; [apply perm_skip; exact IH | apply insert_sorted_perm].
Qed.

Lemma insert_sorted_sorted (s : string) (l : list string) :
  Sorted string_le l -> Sorted string_le (insert_sorted s l).
Proof.
  induction 1 as [|x l Hs IH Hhd]; simpl; [repeat constructor|].
  destruct (String.leb s x) eqn:Hsx.
  - constructor; [constructor; assumption | constructor; exact Hsx].
  - constructor; [exact IH|].
    assert (Hxs : string_le x s).
    { destruct (String.leb_total s x) as [H|H]; [congruence | exact H]. }
    destruct Hhd as [|y l' Hxy]; simpl.
    + constructor. exact Hxs.
    + destruct (String.leb s y); constructor; assumption.
Qed.

Lemma sort_strings_sorted (l : list string) : Sorted string_le (sort_strings l).
Proof.
  induction l as [|s l IH]; simpl; [constructor|].
  apply insert_sorted_sorted. exact IH.
Qed.

Lemma sort_strings_not_nil (l : list string) : l <> [] -> sort_strings l <> [].
Proof.
  intros Hl Hs. apply Hl.
  apply Permutation_nil. apply Permutation_sym. rewrite <- Hs. apply sort_strings_perm.
Qed.

Lemma changed_keys_field_truthy (b : Block) :
  changed_attributes b <> [] -> truthy (changed_keys_field b) = true.
Proof.
  intros Hc. unfold changed_keys_field. simpl.
  destruct (sort_strings (map fst (changed_attributes b))) eqn:Hs; [|reflexivity].
  exfalso. apply (sort_strings_not_nil (map fst (changed_attributes b))); [|exact Hs].
  destruct (changed_attributes b); [congruence | discriminate].
Qed.

(** C9: with a ledger that is not empty, the mapping that is hashed holds the
    sorted changed keys under [changed_attributes] (encoded when the block
    encodes), the export holds the hash of that mapping under the hash field,
    the export does not hold [changed_attributes], and every other field of
    the export is the field of the hashed mapping.  The hash field and the
    breadcrumb field are fields other than [changed_attributes], and the
    encoding of a list of keys is a truthy value. *)
Theorem changed_attributes_only_hashed (E : Env) (h : heap) (b : Block)
  (Hchanged : changed_attributes b <> [])
  (Hhash : HASH E <> "changed_attributes")
  (Hcrumbs : RENDERING_BREADCRUMBS E <> "changed_attributes")
  (Hencode : encode b = true ->
             truthy (encode_graph_property_value E (changed_keys_field b)) = true) :
  dict_get (KStr "changed_attributes") (hashed_attributes E h b)
  = Some (if encode b then encode_graph_property_value E (changed_keys_field b)
          else changed_keys_field b)
  /\ dict_get (KStr (HASH E)) (get_attribute_dict E h b)
     = Some (calculate_hash E (hashed_attributes E h b))
  /\ dict_get (KStr "changed_attributes") (get_attribute_dict E h b) = None
  /\ (forall k, k <> KStr "changed_attributes" -> k <> KStr (HASH E) ->
        dict_get k (get_attribute_dict E h b) = dict_get k (hashed_attributes E h b))
  /\ Sorted string_le (sort_strings (map fst (changed_attributes b)))
  /\ Permutation (map fst (changed_attributes b))
       (sort_strings (map fst (changed_attributes b))).
Proof.
  assert (Hfield : dict_get (KStr "changed_attributes") (hashed_attributes E h b)
                   = Some (if encode b
                           then encode_graph_property_value E (changed_keys_field b)
                           else changed_keys_field b)).
  { unfold hashed_attributes.
    set (d0 := get_origin_attributes _ _).
    assert (H1 : dict_get (KStr "changed_attributes")
                   match changed_attributes b with
                   | [] => d0
                   | _ :: _ => dict_set (KStr "changed_attributes") (changed_keys_field b) d0
                   end = Some (changed_keys_field b)).
    { destruct (changed_attributes b) eqn:Hc; [congruence|]. apply dict_get_set_same. }
    fold (changed_keys_field b).
    set (d1 := match changed_attributes b with [] => d0 | _ :: _ => _ end) in *.
    assert (H2 : dict_get (KStr "changed_attributes")
                   match breadcrumbs b with
                   | [] => d1
                   | _ :: _ =>
                       dict_set (KStr (RENDERING_BREADCRUMBS E))
                         (VDict (map (fun kv => (KStr (fst kv), snd kv))
                                   (sort_items (breadcrumbs b)))) d1
                   end = Some (changed_keys_field b)).
    { destruct (breadcrumbs b); [exact H1|].
      rewrite dict_get_set_other; [exact H1 | congruence]. }
    destruct (encode b); [|exact H2].
    rewrite dict_get_map_values, H2. reflexivity. }
  assert (Htruthy : truthy (py_get (KStr "changed_attributes")
                              (dict_set (KStr (HASH E))
                                 (calculate_hash E (hashed_attributes E h b))
                                 (hashed_attributes E h b))) = true).
  { unfold py_get. rewrite dict_get_set_other by congruence. rewrite Hfield.
    destruct (encode b); [apply Hencode; reflexivity|].
    apply changed_keys_field_truthy. exact Hchanged. }
  unfold get_attribute_dict. rewrite Htruthy.
  split; [exact Hfield|]. split; [|split; [|split; [|split]]].
  - rewrite dict_get_del_other by congruence. apply dict_get_set_same.
  - apply dict_get_del_same. apply dict_set_unique. apply hashed_attributes_unique.
  - intros k Hk1 Hk2. rewrite dict_get_del_other by congruence.
    apply dict_get_set_other. congruence.
  - apply sort_strings_sorted.
  - apply sort_strings_perm.
Qed.

(** A block with two changed keys, exported in [sample_env]. *)
Lemma changed_attributes_only_hashed_witness :
  let b := with_changed_attributes (new_block "r" RESOURCE 0 0)
             [("tags.b", 0); ("tags.a", 0)] in
  dict_get (KStr "changed_attributes") (hashed_attributes sample_env [[]] b)
  = Some (VList [VStr "tags.a"; VStr "tags.b"])
  /\ dict_get (KStr "changed_attributes") (get_attribute_dict sample_env [[]] b) = None.
Proof.
  pose proof (changed_attributes_only_hashed sample_env [[]]
                (with_changed_attributes (new_block "r" RESOURCE 0 0)
                   [("tags.b", 0); ("tags.a", 0)])) as H.
  simpl in H.
  destruct H as [H1 [_ [H3 _]]]; try discriminate.
  split; [exact H1 | exact H3].
Defined.

(** C6, the code at the failing input: a block whose own attributes hold
    [changed_attributes = [["k"]]]; the call [update_attribute("k", 1, "o",
    [])] returns, leaves the attributes as they are and adds the entry [k] to
    the ledger, with the caller's list that now holds the origin, and the hash
    after the call is the hash before it, whatever [calculate_hash] is. *)
Theorem hash_misses_changed_key_under_name_collision (E : Env) :
  let h := [[(KStr "k", VInt 1);
             (KStr "changed_attributes", VList [VList [VStr "k"]])]] in
  let b := new_block "m" MODULE 0 0 in
  let r := update_attribute h [[]] b "k" (VInt 1) (VStr "o") 0 in
  raised r = None
  /\ heap_after r = h
  /\ changed_attributes b = []
  /\ changed_attributes (block_after r) = [("k", 0)]
  /\ chain_of (chains_after r) 0 = [VStr "o"]
  /\ get_hash E (heap_after r) (block_after r) = get_hash E h b.
Proof.
  cbv zeta. do 5 (split; [reflexivity|]).
  assert (Hsame : hashed_attributes E
                    [[(KStr "k", VInt 1);
                      (KStr "changed_attributes", VList [VList [VStr "k"]])]]
                    (with_changed_attributes (new_block "m" MODULE 0 0) [("k", 0)])
                  = hashed_attributes E
                      [[(KStr "k", VInt 1);
                        (KStr "changed_attributes", VList [VList [VStr "k"]])]]
                      (new_block "m" MODULE 0 0)).
  { unfold hashed_attributes. simpl.
    unfold get_origin_attributes. simpl. unfold origin_step at 1. simpl.
    apply dict_set_idem. }
  unfold get_hash, get_attribute_dict.
  change (heap_after (update_attribute
                      [[(KStr "k", VInt 1);
                        (KStr "changed_attributes", VList [VList [VStr "k"]])]]
                      [[]] (new_block "m" MODULE 0 0) "k" (VInt 1) (VStr "o") 0))
    with [[(KStr "k", VInt 1); (KStr "changed_attributes", VList [VList [VStr "k"]])]].
  change (block_after (update_attribute
                      [[(KStr "k", VInt 1);
                        (KStr "changed_attributes", VList [VList [VStr "k"]])]]
                      [[]] (new_block "m" MODULE 0 0) "k" (VInt 1) (VStr "o") 0))
    with (with_changed_attributes (new_block "m" MODULE 0 0) [("k", 0)]).
  rewrite Hsame. reflexivity.
Qed.

(** ** The constructor and the caller's mappings *)

Lemma deref_app_old (h : heap) (d : dict) (l : loc) :
  l < length h -> deref (h ++ [d]) l = deref h l.
Proof. intros Hl. unfold deref. apply app_nth1. exact Hl. Qed.

Lemma deref_app_new (h : heap) (d : dict) : deref (h ++ [d]) (length h) = d.
Proof. unfold deref. rewrite app_nth2, Nat.sub_diag by lia. reflexivity. Qed.

(** C3, as the code has it: the constructor copies [config] into a new
    object, and keeps the caller's [attributes] object itself: after the call
    that object holds the caller's entries without the reserved entry (when
    its value was truthy) and with the flattened entries added; whatever is
    written to it later is what the block reads, while a later write to the
    caller's [config] leaves the block's copy as it was. *)
Theorem constructor_keeps_callers_attributes (E : Env) (h : heap) (nm : string)
  (cfg : loc) (pth : string) (kind : BlockType) (attrs : loc) (i src : string)
  (enc : bool) (Hattrs : attrs < length h) (Hcfg : cfg < length h) :
  let r := Block_init E h nm cfg pth kind attrs i src enc in
  attributes (snd r) = attrs
  /\ deref (fst r) attrs = init_attributes E (deref h attrs)
  /\ config (snd r) <> cfg
  /\ deref (fst r) (config (snd r)) = deref h cfg
  /\ (forall d, deref (store (fst r) attrs d) (attributes (snd r)) = d)
  /\ (forall d, deref (store (fst r) cfg d) (config (snd r)) = deref h cfg).
Proof.
  cbv zeta. unfold Block_init, deepcopy, alloc. simpl.
  assert (Hlen : attrs < length (h ++ [deref h cfg])).
  { rewrite length_app. simpl. lia. }
  split; [reflexivity|]. split; [|split; [|split; [|split]]].
  - rewrite deref_store_same by exact Hlen.
    rewrite deref_app_old by exact Hattrs. reflexivity.
  - lia.
  - rewrite deref_store_other by lia. apply deref_app_new.
  - intros d. apply deref_store_same. rewrite length_store. exact Hlen.
  - intros d. rewrite !deref_store_other by lia. apply deref_app_new.
Qed.

Lemma constructor_keeps_callers_attributes_witness :
  let h := [[(KStr "n", VInt 1)]; [(KStr "ingress", VList [VDict [(KStr "port", VInt 80)]])]] in
  let r := Block_init sample_env h "aws_security_group.sg" 0 "" RESOURCE 1 "" "" false in
  attributes (snd r) = 1
  /\ deref (fst r) 1
     = [(KStr "ingress", VDict [(KStr "port", VInt 80)]); (KStr "ingress.port", VInt 80)]
  /\ deref (fst r) (config (snd r)) = [(KStr "n", VInt 1)].
Proof.
  pose proof (constructor_keeps_callers_attributes sample_env
                [[(KStr "n", VInt 1)];
                 [(KStr "ingress", VList [VDict [(KStr "port", VInt 80)]])]]
                "aws_security_group.sg" 0 "" RESOURCE 1 "" "" false) as H.
  simpl in H. destruct H as [H1 [H2 [_ [H4 _]]]]; [lia | lia |].
  cbv zeta. split; [exact H1|]. split; [exact H2 | exact H4].
Defined.

(** C3, the claim as stated fails: the constructor adds the flattened
    entries to the caller's mapping, and after the caller empties its mapping
    the block no longer finds the attribute. *)
Lemma constructor_aliases_callers_attributes :
  let h := [[]; [(KStr "ingress", VList [VDict [(KStr "port", VInt 80)];
                                         VDict [(KStr "port", VInt 443)]])]] in
  let r := Block_init sample_env h "aws_security_group.sg" 0 "" RESOURCE 1 "" "" false in
  deref (fst r) 1 <> deref h 1
  /\ find_attribute (fst r) (snd r) ["ingress"] = Some "ingress"
  /\ find_attribute (store (fst r) 1 []) (snd r) ["ingress"] = None.
Proof.
  cbv zeta. split; [|split]; [discriminate | reflexivity | reflexivity].
Qed.

(** ** The recursive rewrite *)

Lemma at_key_None (f : value -> value * outcome) (k : key) (d : dict) :
  dict_get k d = None -> at_key f k d = None.
Proof.
  induction d as [|[k' x] d IH]; simpl; [reflexivity|].
  destruct (key_eqb k' k); [discriminate|]. intros H. rewrite (IH H). reflexivity.
Qed.

Lemma at_key_Some (f : value -> value * outcome) (k : key) (d : dict) (x : value) :
  dict_get k d = Some x ->
  at_key f k d = Some (dict_set k (fst (f x)) d, snd (f x)).
Proof.
  induction d as [|[k' y] d IH]; simpl; [discriminate|].
  destruct (key_eqb k' k).
  - intros [= ->]. destruct (f x). reflexivity.
  - intros H. rewrite (IH H). reflexivity.
Qed.

Lemma at_index_None (f : value -> value * outcome) (i : nat) (l : list value) :
  nth_error l i = None -> at_index f i l = None.
Proof.
  revert i. induction l as [|y l IH]; intros [|i]; simpl; try reflexivity;
    try discriminate. intros H. rewrite (IH i H). reflexivity.
Qed.

Lemma at_index_Some (f : value -> value * outcome) (i : nat) (l : list value) (x : value) :
  nth_error l i = Some x ->
  at_index f i l = Some (list_set i (fst (f x)) l, snd (f x)).
Proof.
  revert i. induction l as [|y l IH]; intros [|i]; simpl; try discriminate.
  - intros [= ->]. destruct (f x). reflexivity.
  - intros H. rewrite (IH i H). reflexivity.
Qed.

Lemma dict_set_same_value (k : key) (x : value) (d : dict) :
  dict_get k d = Some x -> dict_set k x d = d.
Proof.
  induction d as [|[k' y] d IH]; simpl; [discriminate|].
  destruct (key_eqb k' k).
  - intros [= ->]. reflexivity.
  - intros H. rewrite (IH H). reflexivity.
Qed.

Lemma list_set_same_value (i : nat) (x : value) (l : list value) :
  nth_error l i = Some x -> list_set i x l = l.
Proof.
  revert i. induction l as [|y l IH]; intros [|i]; simpl; try discriminate.
  - intros [= ->]. reflexivity.
  - intros H. rewrite (IH i H). reflexivity.
Qed.



(** The equation of the method, with the key split once. *)
Lemma update_inner_attribute_eq (attribute_key : string) (nested_attributes v : value) :
  update_inner_attribute attribute_key nested_attributes v
  = let split_key := py_split dot attribute_key in
    let rest := py_join "." (tl split_key) in
    match curr_key_of split_key with
    | None => (nested_attributes, Raise ValueError)
    | Some curr_key =>
        match nested_attributes with
        | VDict d =>
            let written := fun d' : dict =>
              if truthy (py_get (KStr attribute_key) d)
              then dict_set (KStr attribute_key) v d' else d' in
            if Nat.eqb (length split_key) 1
            then (VDict (dict_set curr_key v (written d)), Return_None)
            else
              match at_key (fun inner => update_inner_attribute rest inner v) curr_key d with
              | Some (d', Raise e) => except_dict attribute_key v (written d') e
              | Some (d', _) => (VDict (written d'), Return_None)
              | None => except_dict attribute_key v (written d) KeyError
              end
        | VList l =>
            match curr_key with
            | KStr c =>
                let (l', o) := for_each (fun inner => update_inner_attribute c inner v) l in
                (VList l', o)
            | KInt i =>
                if Nat.eqb (length split_key) 1
                then if Nat.ltb i (length l)
                     then (VList (list_set i v l), Return_None)
                     else (VList l, Raise IndexError)
                else
                  match at_index (fun inner => update_inner_attribute rest inner v) i l with
                  | Some (l', Raise _) => (VList l', Raise AttributeError)
                  | Some (l', _) => (VList l', Return_None)
                  | None => (VList l, Raise AttributeError)
                  end
            end
        | _ =>
            if Nat.eqb (length split_key) 1
            then (nested_attributes, Raise TypeError)
            else (nested_attributes, Raise AttributeError)
        end
    end.
Proof. destruct nested_attributes; reflexivity. Qed.

Lemma components_split (s : string) : components (py_split dot s).
Proof. split; [apply py_split_not_nil | apply py_split_dot_free]. Qed.

Lemma components_tail (c : string) (rest : list string) :
  components (c :: rest) -> rest <> [] -> components rest.
Proof. intros [_ H] Hr. inversion H; subst. split; assumption. Qed.

Lemma curr_key_of_cons (c : string) (rest : list string) :
  curr_key_of (c :: rest) = curr_key_of [c].
Proof. reflexivity. Qed.

(** The three readings of a component: [int] rejects it, it is an integer,
    it is a string. *)
Lemma curr_key_cases (c : string) :
  (curr_key_of [c] = None /\ isnumeric c = true)
  \/ (exists i, curr_key_of [c] = Some (KInt i) /\ isnumeric c = true)
  \/ (curr_key_of [c] = Some (KStr c) /\ isnumeric c = false).
Proof.
  unfold curr_key_of. simpl. destruct (isnumeric c); [|auto].
  destruct (int c) as [i|]; simpl; [right; left; exists i|]; auto.
Qed.

Lemma path_key_differs (c : string) (rest : list string) (k : key) :
  components (c :: rest) -> rest <> [] -> curr_key_of [c] = Some k ->
  KStr (path_of (c :: rest)) <> k.
Proof.
  intros [_ Hall] Hrest Hk.
  destruct (curr_key_cases c) as [[H _]|[[i [H _]]|[H _]]]; rewrite H in Hk;
    [discriminate | injection Hk as <-; discriminate | injection Hk as <-].
  intros [= Heq].
  assert (Hd : has_dot (path_of (c :: rest)) = true).
  { unfold path_of. rewrite has_dot_join by exact Hall.
    destruct rest; [congruence | reflexivity]. }
  inversion Hall; subst. unfold dot_free in *. congruence.
Qed.

(** A first component that [int] rejects: the call raises [ValueError]
    and has written nothing. *)
Lemma rejected_numeral_raises (attribute_key : string) (t v : value) :
  curr_key_of (py_split dot attribute_key) = None ->
  update_inner_attribute attribute_key t v = (t, Raise ValueError).
Proof.
  intros H. rewrite update_inner_attribute_eq. cbv zeta. rewrite H. reflexivity.
Qed.

(** On a dict the call raises in that case only. *)
Lemma dict_returns (attribute_key : string) (d : dict) (v : value) :
  curr_key_of (py_split dot attribute_key) <> None ->
  exists d', fst (update_inner_attribute attribute_key (VDict d) v) = VDict d'
             /\ (snd (update_inner_attribute attribute_key (VDict d) v) = Return_None
                 \/ exists e, snd (update_inner_attribute attribute_key (VDict d) v)
                              = Return_exn e).
Proof.
  intros Hk. rewrite update_inner_attribute_eq. cbv zeta.
  destruct (curr_key_of (py_split dot attribute_key)) as [k|]; [|congruence].
  destruct (Nat.eqb (length (py_split dot attribute_key)) 1).
  - eexists. split; [reflexivity | left; reflexivity].
  - destruct (at_key _ _ d) as [[d' [| e | e]]|]; unfold except_dict;
      try (eexists; split; [reflexivity | left; reflexivity]);
      match goal with
      | |- context [is_not_None ?x] => destruct (is_not_None x)
      end;
      eexists; split; try reflexivity; try (left; reflexivity);
      right; eexists; reflexivity.
Qed.

Lemma dict_raises_ValueError (attribute_key : string) (d : dict) (v : value) (e : exn) :
  snd (update_inner_attribute attribute_key (VDict d) v) = Raise e ->
  curr_key_of (py_split dot attribute_key) = None
  /\ e = ValueError
  /\ fst (update_inner_attribute attribute_key (VDict d) v) = VDict d.
Proof.
  intros Hraise.
  destruct (curr_key_of (py_split dot attribute_key)) as [k|] eqn:Hk.
  - destruct (dict_returns attribute_key d v) as [d' [_ [H|[e' H]]]];
      [congruence | congruence | congruence].
  - rewrite (rejected_numeral_raises attribute_key _ v Hk) in *. simpl in *.
    injection Hraise as <-. auto.
Qed.

Lemma dict_set_comm_present (k1 k2 : key) (a b : value) (d : dict) (x : value) :
  k1 <> k2 -> dict_get k1 d = Some x ->
  dict_set k1 a (dict_set k2 b d) = dict_set k2 b (dict_set k1 a d).
Proof.
  intros Hne. induction d as [|[k' y] d IH]; simpl; [discriminate|].
  destruct (key_eqb k' k1) eqn:H1.
  - intros _. apply key_eqb_eq in H1. subst k'.
    assert (H2 : key_eqb k1 k2 = false) by (apply key_eqb_neq; exact Hne).
    rewrite H2. simpl. rewrite key_eqb_refl, H2. reflexivity.
  - intros Hget. destruct (key_eqb k' k2) eqn:H2; simpl; rewrite H1, ?H2.
    + reflexivity.
    + rewrite (IH Hget). reflexivity.
Qed.

Lemma split_length_one (attribute_key : string) :
  Nat.eqb (length (py_split dot attribute_key)) 1 = false ->
  exists c rest, py_split dot attribute_key = c :: rest /\ rest <> [].
Proof.
  intros Hlen. pose proof (py_split_not_nil attribute_key) as Hnil.
  destruct (py_split dot attribute_key) as [|c [|c' rest]]; [congruence | discriminate |].
  exists c, (c' :: rest). split; [reflexivity | discriminate].
Qed.

(** The equation of the method on a dict, in the order of the source: the
    first [if] writes, then the entry at [curr_key] of the dict so written is
    rewritten. *)
Lemma update_inner_attribute_dict (attribute_key : string) (d : dict) (v : value)
  (curr_key : key) :
  curr_key_of (py_split dot attribute_key) = Some curr_key ->
  update_inner_attribute attribute_key (VDict d) v
  = let split_key := py_split dot attribute_key in
    let rest := py_join "." (tl split_key) in
    let d0 := first_if attribute_key v d in
    if Nat.eqb (length split_key) 1
    then (VDict (dict_set curr_key v d0), Return_None)
    else
      match at_key (fun inner => update_inner_attribute rest inner v) curr_key d0 with
      | Some (d', Raise e) => except_dict attribute_key v d' e
      | Some (d', _) => (VDict d', Return_None)
      | None => except_dict attribute_key v d0 KeyError
      end.
Proof.
  intros Hck. rewrite update_inner_attribute_eq. cbv zeta. rewrite Hck. unfold first_if.
  destruct (Nat.eqb (length (py_split dot attribute_key)) 1) eqn:Hlen; [reflexivity|].
  destruct (truthy (py_get (KStr attribute_key) d)); [|reflexivity].
  destruct (split_length_one attribute_key Hlen) as [c [rest [Hsplit Hrest]]].
  assert (Hne : KStr attribute_key <> curr_key).
  { rewrite <- (py_join_split attribute_key) at 1. rewrite Hsplit in Hck |- *.
    apply path_key_differs; [|exact Hrest | exact Hck].
    rewrite <- Hsplit. apply components_split. }
  set (f := fun inner => update_inner_attribute _ inner v).
  destruct (dict_get curr_key d) as [x|] eqn:Hget.
  - rewrite (at_key_Some f curr_key d x Hget).
    rewrite (at_key_Some f curr_key (dict_set (KStr attribute_key) v d) x)
      by (rewrite dict_get_set_other by congruence; exact Hget).
    rewrite (dict_set_comm_present curr_key (KStr attribute_key) _ _ d x) by congruence.
    reflexivity.
  - rewrite (at_key_None f curr_key d Hget).
    rewrite (at_key_None f curr_key (dict_set (KStr attribute_key) v d))
      by (rewrite dict_get_set_other by congruence; exact Hget).
    reflexivity.
Qed.

Lemma split_path_of (parts : list string) :
  components parts -> py_split dot (path_of parts) = parts.
Proof. intros [Hne Hall]. apply py_split_join; assumption. Qed.

(** A path whose first component [int] rejects. *)
Lemma update_inner_attribute_rejected (c : string) (rest : list string) (t v : value) :
  components (c :: rest) -> curr_key_of [c] = None ->
  update_inner_attribute (path_of (c :: rest)) t v = (t, Raise ValueError).
Proof.
  intros Hc Hk. apply rejected_numeral_raises. rewrite (split_path_of _ Hc). exact Hk.
Qed.

(** The rewrite along a path of one component. *)
Lemma update_inner_attribute_last (c : string) (t v : value) (k : key) :
  components [c] -> curr_key_of [c] = Some k ->
  update_inner_attribute (path_of [c]) t v
  = match t with
    | VDict d => (VDict (dict_set k v (first_if c v d)), Return_None)
    | VList l =>
        match k with
        | KStr c' =>
            let (l', o) := for_each (fun inner => update_inner_attribute c' inner v) l in
            (VList l', o)
        | KInt i =>
            if Nat.ltb i (length l)
            then (VList (list_set i v l), Return_None)
            else (VList l, Raise IndexError)
        end
    | _ => (t, Raise TypeError)
    end.
Proof.
  intros Hc Hk. rewrite update_inner_attribute_eq. cbv zeta.
  rewrite (split_path_of [c] Hc), Hk. destruct t; reflexivity.
Qed.

(** The rewrite along a path of two components or more. *)
Lemma update_inner_attribute_more (c : string) (rest : list string) (t v : value)
  (k : key) :
  components (c :: rest) -> rest <> [] -> curr_key_of [c] = Some k ->
  update_inner_attribute (path_of (c :: rest)) t v
  = match t with
    | VDict d =>
        let written := fun d' : dict =>
          if truthy (py_get (KStr (path_of (c :: rest))) d)
          then dict_set (KStr (path_of (c :: rest))) v d' else d' in
        match at_key (fun inner => update_inner_attribute (path_of rest) inner v) k d with
        | Some (d', Raise e) => except_dict (path_of (c :: rest)) v (written d') e
        | Some (d', _) => (VDict (written d'), Return_None)
        | None => except_dict (path_of (c :: rest)) v (written d) KeyError
        end
    | VList l =>
        match k with
        | KStr c' =>
            let (l', o) := for_each (fun inner => update_inner_attribute c' inner v) l in
            (VList l', o)
        | KInt i =>
            match at_index (fun inner => update_inner_attribute (path_of rest) inner v)
                    i l with
            | Some (l', Raise _) => (VList l', Raise AttributeError)
            | Some (l', _) => (VList l', Return_None)
            | None => (VList l, Raise AttributeError)
            end
        end
    | _ => (t, Raise AttributeError)
    end.
Proof.
  intros Hc Hrest Hk. rewrite update_inner_attribute_eq. cbv zeta.
  rewrite (split_path_of (c :: rest) Hc).
  assert (Hlen : Nat.eqb (length (c :: rest)) 1 = false).
  { destruct rest; [congruence | reflexivity]. }
  rewrite Hlen. rewrite curr_key_of_cons, Hk. destruct t; reflexivity.
Qed.



Lemma broadcasts_more (c c' : string) (rest : list string) (t : value) :
  broadcasts (c :: c' :: rest) t
  = match t, curr_key_of [c] with
    | VList _, Some (KStr _) => true
    | VList l, Some (KInt i) =>
        match nth_error l i with
        | Some x => broadcasts (c' :: rest) x
        | None => false
        end
    | VDict d, Some k =>
        match dict_get k d with
        | Some x => broadcasts (c' :: rest) x
        | None => false
        end
    | _, _ => false
    end.
Proof. reflexivity. Qed.

Lemma fails_last (c : string) (t v : value) :
  fails [c] t v = returned_exception (snd (update_inner_attribute (path_of [c]) t v)).
Proof. unfold fails. apply orb_false_r. Qed.

Lemma fails_more (c c' : string) (rest : list string) (t v : value) :
  fails (c :: c' :: rest) t v
  = returned_exception (snd (update_inner_attribute (path_of (c :: c' :: rest)) t v))
    || match t, curr_key_of [c] with
       | VDict d, Some k =>
           match dict_get k d with
           | Some x => fails (c' :: rest) x v
           | None => false
           end
       | VList l, Some (KInt i) =>
           match nth_error l i with
           | Some x => fails (c' :: rest) x v
           | None => false
           end
       | _, _ => false
       end.
Proof. reflexivity. Qed.

Lemma no_shortcut_more (c c' : string) (rest : list string) (t : value) :
  no_shortcut (c :: c' :: rest) t
  = match t, curr_key_of [c] with
    | VDict d, k =>
        match dict_get (KStr (path_of (c :: c' :: rest))) d with
        | Some _ => false
        | None =>
            match k with
            | Some k =>
                match dict_get k d with
                | Some x => no_shortcut (c' :: rest) x
                | None => true
                end
            | None => true
            end
        end
    | VList l, Some (KInt i) =>
        match nth_error l i with
        | Some x => no_shortcut (c' :: rest) x
        | None => true
        end
    | _, _ => true
    end.
Proof. reflexivity. Qed.


(** A traversal that fails or raises, without having looped over a list and
    without a mapping that holds what is left of the path as a key, has
    written nothing. *)
Lemma update_inner_attribute_unchanged (parts : list string) :
  components parts ->
  forall t v, broadcasts parts t = false -> no_shortcut parts t = true ->
    fails parts t v = true
    \/ (exists e, snd (update_inner_attribute (path_of parts) t v) = Raise e) ->
    fst (update_inner_attribute (path_of parts) t v) = t.
Proof.
  induction parts as [|c rest IH]; intros Hc t v Hb Hs Hf.
  { destruct Hc as [Hne _]. congruence. }
  destruct (curr_key_of [c]) as [k|] eqn:Hk;
    [|rewrite (update_inner_attribute_rejected c rest t v Hc Hk); reflexivity].
  destruct rest as [|c' rest'].
  - rewrite fails_last in Hf.
    rewrite (update_inner_attribute_last c t v k Hc Hk) in *.
    simpl in Hb. rewrite Hk in Hb.
    destruct t as [| | | |l|d]; try reflexivity.
    + destruct k as [s|i]; [discriminate|].
      destruct (Nat.ltb i (length l)); [|reflexivity].
      destruct Hf as [Hf|[e Hf]]; discriminate.
    + destruct Hf as [Hf|[e Hf]]; discriminate.
  - assert (Hrest : components (c' :: rest'))
      by (eapply components_tail; [exact Hc | discriminate]).
    rewrite fails_more in Hf. rewrite broadcasts_more in Hb.
    rewrite no_shortcut_more in Hs.
    rewrite (update_inner_attribute_more c (c' :: rest') t v k Hc ltac:(discriminate) Hk) in *.
    rewrite Hk in *.
    destruct t as [| | | |l|d]; try reflexivity.
    + destruct k as [s|i]; [discriminate|].
      destruct (nth_error l i) as [x|] eqn:Hx.
      * rewrite (at_index_Some _ i l x Hx) in *.
        assert (Hx' : fst (update_inner_attribute (path_of (c' :: rest')) x v) = x).
        { apply (IH Hrest x v Hb Hs).
          destruct (snd (update_inner_attribute (path_of (c' :: rest')) x v)) eqn:Ho.
          - left. destruct Hf as [Hf|[e Hf]]; [|discriminate].
            simpl in Hf. exact Hf.
          - left. destruct Hf as [Hf|[e' Hf]]; [|discriminate].
            simpl in Hf. exact Hf.
          - right. eexists. reflexivity. }
        rewrite Hx'. rewrite (list_set_same_value i x l Hx).
        destruct (snd (update_inner_attribute (path_of (c' :: rest')) x v));
          reflexivity.
      * rewrite (at_index_None _ i l Hx) in *. reflexivity.
    + cbv zeta in *.
      destruct (dict_get (KStr (path_of (c :: c' :: rest'))) d) eqn:Hkey;
        [discriminate|].
      unfold py_get in *. rewrite Hkey in *. simpl truthy in *. cbv iota in *.
      destruct (dict_get k d) as [x|] eqn:Hx.
      * rewrite (at_key_Some _ _ d x Hx) in *.
        assert (Hx' : fst (update_inner_attribute (path_of (c' :: rest')) x v) = x).
        { apply (IH Hrest x v Hb Hs).
          destruct (snd (update_inner_attribute (path_of (c' :: rest')) x v)) eqn:Ho.
          - left. destruct Hf as [Hf|[e Hf]]; [|discriminate].
            simpl in Hf. exact Hf.
          - left. destruct Hf as [Hf|[e' Hf]]; [|discriminate].
            simpl in Hf. exact Hf.
          - right. eexists. reflexivity. }
        rewrite Hx'. rewrite (dict_set_same_value _ x d Hx).
        destruct (snd (update_inner_attribute (path_of (c' :: rest')) x v));
          try reflexivity.
        unfold except_dict, py_get. rewrite Hkey. reflexivity.
      * rewrite (at_key_None _ _ d Hx) in *.
        unfold except_dict, py_get. rewrite Hkey. reflexivity.
Qed.


(** ** The synchronisation of the flat entries *)

Lemma ledger_get_set_same {A : Type} (k : string) (v : A) (m : list (string * A)) :
  ledger_get k (ledger_set k v m) = Some v.
Proof.
  induction m as [|[k' v'] m IH]; simpl.
  - rewrite String.eqb_refl. reflexivity.
  - destruct (String.eqb k' k) eqn:Hk; simpl; rewrite Hk; auto.
Qed.

Lemma ledger_get_set_other {A : Type} (k k' : string) (v : A) (m : list (string * A)) :
  k <> k' -> ledger_get k (ledger_set k' v m) = ledger_get k m.
Proof.
  intros Hne. induction m as [|[k0 v0] m IH]; simpl.
  - destruct (String.eqb k' k) eqn:Hk; [apply String.eqb_eq in Hk; congruence | reflexivity].
  - destruct (String.eqb k0 k') eqn:Hk0; simpl.
    + apply String.eqb_eq in Hk0. subst k0.
      destruct (String.eqb k' k) eqn:Hk; [apply String.eqb_eq in Hk; congruence | reflexivity].
    + rewrite IH. reflexivity.
Qed.

Lemma Forall_prefix (P : string -> Prop) (k : nat) (l : list string) :
  Forall P l -> Forall P (firstn k l).
Proof.
  intros H. revert k. induction H as [|x l Hx Hl IH]; intros [|k]; simpl;
    constructor; auto.
Qed.

Lemma prefix_inj (parts : list string) (j k : nat) :
  Forall dot_free parts -> 1 <= j <= length parts -> 1 <= k <= length parts ->
  path_prefix j parts = path_prefix k parts -> j = k.
Proof.
  intros Hall Hj Hk Heq. unfold path_prefix, path_of in Heq.
  assert (Hlen : forall i, 1 <= i <= length parts -> length (firstn i parts) = i).
  { intros i Hi. rewrite length_firstn. lia. }
  apply py_join_inj in Heq.
  - rewrite <- (Hlen j Hj), <- (Hlen k Hk), Heq. reflexivity.
  - intro H0. pose proof (Hlen j Hj) as H1. rewrite H0 in H1. simpl in H1. lia.
  - intro H0. pose proof (Hlen k Hk) as H1. rewrite H0 in H1. simpl in H1. lia.
  - apply Forall_prefix. exact Hall.
  - apply Forall_prefix. exact Hall.
Qed.

Lemma has_dot_prefix (parts : list string) (k : nat) :
  Forall dot_free parts -> k <= length parts -> has_dot (path_prefix k parts) = Nat.leb 2 k.
Proof.
  intros Hall Hk. unfold path_prefix, path_of.
  rewrite has_dot_join by (apply Forall_prefix; exact Hall).
  rewrite length_firstn. replace (Nat.min k (length parts)) with k by lia. reflexivity.
Qed.

Lemma skipn_nth_cons (j : nat) (l : list string) :
  j < length l -> skipn j l = nth j l "" :: skipn (S j) l.
Proof.
  revert j. induction l as [|x l IH]; intros [|j] Hj; simpl in *; try lia; [reflexivity|].
  apply IH. lia.
Qed.

(** The state of the loop after its first [m] turns, for [m] below the
    number of components. *)
Lemma sync_steps (parts : list string) (crumbs : chain) (attrs : dict) (v : value)
  (changed : list (string * chain)) :
  Forall dot_free parts ->
  forall m, m <= length parts - 1 ->
  exists a c,
    fold_left (sync_step parts crumbs) (seq 0 m) (attrs, v, changed)
    = (a, wrap_path (skipn (length parts - m) parts) v, c)
    /\ (forall i, i < m ->
          dict_get (KStr (path_prefix (length parts - i) parts)) a
          = Some (wrap_path (skipn (length parts - i) parts) v))
    /\ (forall k, (forall i, i < m -> k <> KStr (path_prefix (length parts - i) parts)) ->
          dict_get k a = dict_get k attrs)
    /\ (forall i, i < m ->
          ledger_get (path_prefix (length parts - i) parts) c = Some crumbs)
    /\ (forall s, (forall i, i < m -> s <> path_prefix (length parts - i) parts) ->
          ledger_get s c = ledger_get s changed).
Proof.
  intros Hall. set (n := length parts).
  induction m as [|m IH]; intros Hm.
  - exists attrs, changed. simpl. rewrite Nat.sub_0_r.
    unfold n. rewrite skipn_all. simpl.
    split; [reflexivity|]. repeat split; intros; try lia; reflexivity.
  - destruct (IH ltac:(lia)) as [a [c [Hfold [Hwritten [Hother [Hledger Hledger']]]]]].
    rewrite seq_S, fold_left_app, Hfold. cbn [fold_left Nat.add].
    unfold sync_step. unfold join_trimmed_strings. fold n.
    fold (path_of (firstn (n - m) parts)). fold (path_prefix (n - m) parts).
    rewrite has_dot_prefix by (try exact Hall; lia).
    replace (Nat.leb 2 (n - m)) with true by (symmetry; apply Nat.leb_le; lia).
    eexists. eexists. split.
    + f_equal. f_equal.
      rewrite (skipn_nth_cons (n - S m) parts) by (fold n; lia).
      replace (S (n - S m)) with (n - m) by lia.
      replace (n - 1 - m) with (n - S m) by lia. reflexivity.
    + assert (Hdiff : forall i, i < m -> path_prefix (n - i) parts <> path_prefix (n - m) parts).
      { intros i Hi Heq. apply prefix_inj in Heq; [lia | exact Hall | fold n; lia | fold n; lia]. }
      repeat split.
      * intros i Hi. destruct (Nat.eq_dec i m) as [->|Hne].
        -- apply dict_get_set_same.
        -- rewrite dict_get_set_other.
           ++ apply Hwritten. lia.
           ++ intros [= Heq]. apply (Hdiff i); [lia | exact Heq].
      * intros k Hk. rewrite dict_get_set_other.
        -- apply Hother. intros i Hi. apply Hk. lia.
        -- apply Hk. lia.
      * intros i Hi. destruct (Nat.eq_dec i m) as [->|Hne].
        -- apply ledger_get_set_same.
        -- rewrite ledger_get_set_other.
           ++ apply Hledger. lia.
           ++ apply Hdiff. lia.
      * intros s Hs. rewrite ledger_get_set_other.
        -- apply Hledger'. intros i Hi. apply Hs. lia.
        -- apply Hs. lia.
Qed.

(** The whole loop: the last turn meets the first component alone, which
    has no dot, and writes nothing. *)
Lemma sync_loop (parts : list string) (crumbs : chain) (attrs : dict) (v : value)
  (changed : list (string * chain)) :
  Forall dot_free parts -> 2 <= length parts ->
  exists a x c,
    fold_left (sync_step parts crumbs) (seq 0 (length parts)) (attrs, v, changed)
    = (a, x, c)
    /\ (forall k, 2 <= k <= length parts ->
          dict_get (KStr (path_prefix k parts)) a = Some (wrap_path (skipn k parts) v))
    /\ (forall key', (forall k, 2 <= k <= length parts -> key' <> KStr (path_prefix k parts)) ->
          dict_get key' a = dict_get key' attrs)
    /\ (forall k, 2 <= k <= length parts ->
          ledger_get (path_prefix k parts) c = Some crumbs)
    /\ (forall s, (forall k, 2 <= k <= length parts -> s <> path_prefix k parts) ->
          ledger_get s c = ledger_get s changed).
Proof.
  intros Hall Hlen. set (n := length parts) in *.
  destruct (sync_steps parts crumbs attrs v changed Hall (n - 1) ltac:(lia))
    as [a [c [Hfold [Hwritten [Hother [Hledger Hledger']]]]]].
  fold n in Hfold, Hwritten, Hother, Hledger, Hledger'.
  exists a, (wrap_path (skipn (n - (n - 1)) parts) v), c.
  split.
  - replace n with (S (n - 1)) at 1 by lia.
    rewrite seq_S, fold_left_app, Hfold. cbn [fold_left Nat.add].
    unfold sync_step. unfold join_trimmed_strings. fold n.
    fold (path_of (firstn (n - (n - 1)) parts)). fold (path_prefix (n - (n - 1)) parts).
    rewrite has_dot_prefix by (try exact Hall; fold n; lia).
    replace (Nat.leb 2 (n - (n - 1))) with false by (symmetry; apply Nat.leb_gt; lia).
    reflexivity.
  - repeat split.
    + intros k Hk. replace k with (n - (n - k)) by lia. apply Hwritten. lia.
    + intros key' Hkey. apply Hother. intros i Hi. apply Hkey. lia.
    + intros k Hk. replace k with (n - (n - k)) by lia. apply Hledger. lia.
    + intros s Hs. apply Hledger'. intros i Hi. apply Hs. lia.
Qed.

(** ** [update_attribute] on a key with a dot *)

Lemma length_split_dotted (attribute_key : string) :
  has_dot attribute_key = true -> 2 <= length (py_split dot attribute_key).
Proof.
  rewrite has_dot_length_split. intros H. apply Nat.leb_le. exact H.
Qed.

Lemma prefix_all (attribute_key : string) :
  path_prefix (length (py_split dot attribute_key)) (py_split dot attribute_key) = attribute_key.
Proof.
  unfold path_prefix, path_of. rewrite firstn_all. apply py_join_split.
Qed.

Lemma store_deref (h : heap) (l : loc) : store h l (deref h l) = h.
Proof.
  unfold deref. revert l. induction h as [|d h IH]; intros [|l]; simpl;
    try reflexivity. rewrite IH. reflexivity.
Qed.

Lemma chain_of_store_same (c : chains) (r : chain) (l : list value) :
  r < length c -> chain_of (store_chain c r l) r = l.
Proof.
  unfold chain_of. revert r. induction c as [|x c IH]; intros [|r] Hr; simpl in *;
    try lia; [reflexivity|]. apply IH. lia.
Qed.

Lemma chain_of_store_other (c : chains) (r r' : chain) (l : list value) :
  r' <> r -> chain_of (store_chain c r l) r' = chain_of c r'.
Proof.
  unfold chain_of. revert r r'.
  induction c as [|x c IH]; intros [|r] [|r'] Hne; simpl; try reflexivity;
    try congruence. apply IH. congruence.
Qed.

(** What the call leaves in every case: the caller's list with the origin
    appended unless the list ends in it, and the block's references. *)
Lemma update_attribute_chains (h : heap) (c : chains) (b : Block) (attribute_key : string)
  (v origin : value) (crumbs : chain) :
  chains_after (update_attribute h c b attribute_key v origin crumbs)
  = store_chain c crumbs (extend_breadcrumbs (chain_of c crumbs) origin).
Proof.
  unfold update_attribute.
  destruct (snd (update_inner_attribute attribute_key (VDict (deref h (attributes b))) v));
    try reflexivity;
    destruct (Nat.eqb (length (py_split "." attribute_key)) 1); try reflexivity;
    destruct (fold_left _ _ _) as [[a x] changed]; reflexivity.
Qed.

(** A first component that [int] rejects: the call raises [ValueError]
    after the breadcrumb update; the attributes and the ledger are as they
    were. *)
Lemma update_attribute_rejected (h : heap) (c : chains) (b : Block) (attribute_key : string)
  (v origin : value) (crumbs : chain) :
  curr_key_of (py_split dot attribute_key) = None ->
  let r := update_attribute h c b attribute_key v origin crumbs in
  raised r = Some ValueError /\ heap_after r = h /\ block_after r = b.
Proof.
  intros Hk. cbv zeta. unfold update_attribute.
  rewrite (rejected_numeral_raises attribute_key _ v Hk). simpl.
  rewrite store_deref. auto.
Qed.

Lemma update_attribute_dotted (h : heap) (c : chains) (b : Block) (attribute_key : string)
  (v origin : value) (crumbs : chain) :
  attributes b < length h -> has_dot attribute_key = true ->
  curr_key_of (py_split dot attribute_key) <> None ->
  let parts := py_split dot attribute_key in
  let r := update_attribute h c b attribute_key v origin crumbs in
  let nested :=
    dict_of (fst (update_inner_attribute attribute_key
                    (VDict (deref h (attributes b))) v)) in
  raised r = None
  /\ attributes (block_after r) = attributes b
  /\ (forall k, 2 <= k <= length parts ->
        dict_get (KStr (path_prefix k parts)) (deref (heap_after r) (attributes b))
        = Some (wrap_path (skipn k parts) v))
  /\ (forall key', (forall k, 2 <= k <= length parts -> key' <> KStr (path_prefix k parts)) ->
        dict_get key' (deref (heap_after r) (attributes b)) = dict_get key' nested)
  /\ (forall k, 2 <= k <= length parts ->
        ledger_get (path_prefix k parts) (changed_attributes (block_after r))
        = Some crumbs)
  /\ (forall s, (forall k, 2 <= k <= length parts -> s <> path_prefix k parts) ->
        ledger_get s (changed_attributes (block_after r))
        = ledger_get s (changed_attributes b)).
Proof.
  intros Href Hdot Hfirst. cbv zeta.
  pose proof (length_split_dotted attribute_key Hdot) as Hlen.
  unfold update_attribute.
  assert (Hreturns : snd (update_inner_attribute attribute_key
                            (VDict (deref h (attributes b))) v) = Return_None
                     \/ exists e, snd (update_inner_attribute attribute_key
                                         (VDict (deref h (attributes b))) v)
                                  = Return_exn e).
  { destruct (dict_returns attribute_key (deref h (attributes b)) v Hfirst)
      as [d' [_ H]]. exact H. }
  replace (Nat.eqb (length (py_split "." attribute_key)) 1) with false
    by (symmetry; apply Nat.eqb_neq; fold dot; lia).
  fold dot.
  destruct (sync_loop (py_split dot attribute_key) crumbs
              (dict_of (fst (update_inner_attribute attribute_key
                               (VDict (deref h (attributes b))) v)))
              v (changed_attributes b) (py_split_dot_free attribute_key) Hlen)
    as [a [x [c' [Hfold [Hwritten [Hother [Hledger Hledger']]]]]]].
  rewrite Hfold.
  destruct Hreturns as [Ho|[e Ho]]; rewrite Ho; simpl;
    rewrite deref_store_same by exact Href; repeat split; assumption.
Qed.




Lemma path_of_split (attribute_key : string) :
  path_of (py_split dot attribute_key) = attribute_key.
Proof. apply py_join_split. Qed.





(** A numeric component is read as an integer on a mapping too, so it never
    names a string key: on [{"a": {"0": {"b": 1}}}] the path ["a.0.b"] cannot
    be assigned, the traversal fails at the key [0] and the nested tree is as
    it was; the flat entries are written all the same. *)
Example numeric_component_is_not_a_string_key :
  let tree := [(KStr "a", VDict [(KStr "0", VDict [(KStr "b", VInt 1)])])] in
  let r := update_attribute [tree] [[]] (new_block "r" RESOURCE 0 0) "a.0.b" (VInt 9)
             (VStr "o") 0 in
  assignable ["a"; "0"; "b"] (VDict tree) = false
  /\ fails ["a"; "0"; "b"] (VDict tree) (VInt 9) = true
  /\ update_inner_attribute "a.0.b" (VDict tree) (VInt 9) = (VDict tree, Return_None)
  /\ raised r = None
  /\ dict_get (KStr "a") (deref (heap_after r) 0)
     = Some (VDict [(KStr "0", VDict [(KStr "b", VInt 1)])])
  /\ dict_get (KStr "a.0.b") (deref (heap_after r) 0) = Some (VInt 9).
Proof. cbv zeta. repeat split. Qed.

(** A first component that is numeric and not decimal: [int] raises
    [ValueError] outside any [try], after the breadcrumb list was extended;
    nothing is written.  Below the first component the same error is caught
    like any other. *)
Example rejected_numeral_raises_ValueError :
  let tree := [(KStr "a", VDict [(KStr "b", VInt 1)])] in
  let b := new_block "r" RESOURCE 0 0 in
  let r := update_attribute [tree] [[]] b (superscript_two ++ ".a") (VInt 9) (VStr "o") 0 in
  let r' := update_attribute [tree] [[]] b ("a." ++ superscript_two) (VInt 9) (VStr "o") 0 in
  isnumeric superscript_two = true
  /\ int superscript_two = None
  /\ raised r = Some ValueError
  /\ heap_after r = [tree]
  /\ changed_attributes (block_after r) = []
  /\ chains_after r = [[VStr "o"]]
  /\ raised r' = None
  /\ dict_get (KStr "a") (deref (heap_after r') 0) = Some (VDict [(KStr "b", VInt 1)])
  /\ dict_get (KStr ("a." ++ superscript_two)) (deref (heap_after r') 0) = Some (VInt 9).
Proof. cbv zeta. repeat split. Qed.

Lemma fails_on_a_mapping (attribute_key : string) (d : dict) (v : value) :
  fails (py_split dot attribute_key) (VDict d) v = true ->
  has_dot attribute_key = true /\ curr_key_of (py_split dot attribute_key) <> None.
Proof.
  intros Hf. pose proof (components_split attribute_key) as Hc.
  rewrite has_dot_length_split.
  destruct (py_split dot attribute_key) as [|c [|c' rest]] eqn:Hsplit.
  - discriminate.
  - exfalso. rewrite fails_last in Hf.
    destruct (curr_key_of [c]) as [k|] eqn:Hk.
    + rewrite (update_inner_attribute_last c _ v k Hc Hk) in Hf. discriminate.
    + rewrite (update_inner_attribute_rejected c [] _ v Hc Hk) in Hf. discriminate.
  - split; [reflexivity|]. rewrite curr_key_of_cons. intros Hk.
    rewrite fails_more, Hk in Hf.
    rewrite (update_inner_attribute_rejected c (c' :: rest) _ v Hc Hk) in Hf.
    discriminate.
Qed.

(** C2, as the code has it: when the traversal fails (one of the nested
    calls logs the warning and returns the exception) without having looped
    over a list, and no mapping it reaches holds what is left of the path as a
    key (the attribute mapping does not hold the whole key), the rewrite has
    written nothing and [update_attribute] returns; the key has a dot; and
    [update_attribute] then still writes the key and its prefixes of two
    components or more into the mapping and records them in the ledger with
    the caller's breadcrumb list, which holds the origin at its end.  Every
    other key of the mapping is as before, every other key of the ledger
    refers to the list it referred to, and every list but the caller's is as
    it was. *)
Theorem failed_rewrite_still_synchronises (h : heap) (c : chains) (b : Block)
  (attribute_key : string) (v origin : value) (crumbs : chain)
  (Href : attributes b < length h)
  (Hcrumbs : crumbs < length c)
  (Hloop : broadcasts (py_split dot attribute_key) (VDict (deref h (attributes b))) = false)
  (Hkeys : no_shortcut (py_split dot attribute_key) (VDict (deref h (attributes b))) = true)
  (Hfail : fails (py_split dot attribute_key) (VDict (deref h (attributes b))) v = true) :
  let parts := py_split dot attribute_key in
  let r := update_attribute h c b attribute_key v origin crumbs in
  let attrs' := deref (heap_after r) (attributes b) in
  let changed' := changed_attributes (block_after r) in
  raised r = None
  /\ fst (update_inner_attribute attribute_key (VDict (deref h (attributes b))) v)
     = VDict (deref h (attributes b))
  /\ has_dot attribute_key = true
  /\ dict_get (KStr attribute_key) attrs' = Some v
  /\ (forall k, 2 <= k <= length parts ->
        dict_get (KStr (path_prefix k parts)) attrs' = Some (wrap_path (skipn k parts) v)
        /\ ledger_get (path_prefix k parts) changed' = Some crumbs)
  /\ chain_of (chains_after r) crumbs = extend_breadcrumbs (chain_of c crumbs) origin
  /\ (forall key', (forall k, 2 <= k <= length parts -> key' <> KStr (path_prefix k parts)) ->
        dict_get key' attrs' = dict_get key' (deref h (attributes b)))
  /\ (forall s, (forall k, 2 <= k <= length parts -> s <> path_prefix k parts) ->
        ledger_get s changed' = ledger_get s (changed_attributes b))
  /\ (forall other, other <> crumbs -> chain_of (chains_after r) other = chain_of c other).
Proof.
  cbv zeta.
  destruct (fails_on_a_mapping attribute_key _ v Hfail) as [Hdot Hfirst].
  assert (Hsame : fst (update_inner_attribute attribute_key
                         (VDict (deref h (attributes b))) v)
                  = VDict (deref h (attributes b))).
  { rewrite <- (path_of_split attribute_key) at 1.
    apply update_inner_attribute_unchanged;
      [apply components_split | exact Hloop | exact Hkeys | left; exact Hfail]. }
  destruct (update_attribute_dotted h c b attribute_key v origin crumbs Href Hdot Hfirst)
    as [Hreturns [_ [Hwritten [Hother [Hledger Hledger']]]]].
  rewrite Hsame in Hother. simpl in Hother.
  pose proof (length_split_dotted attribute_key Hdot) as Hlen.
  rewrite update_attribute_chains.
  split; [exact Hreturns|]. split; [exact Hsame|]. split; [exact Hdot|].
  split; [|split; [|split; [|split; [|split]]]].
  - pose proof (Hwritten (length (py_split dot attribute_key)) ltac:(lia)) as H1.
    rewrite prefix_all, skipn_all in H1. exact H1.
  - intros k Hk. split; [apply Hwritten | apply Hledger]; exact Hk.
  - apply chain_of_store_same. exact Hcrumbs.
  - exact Hother.
  - exact Hledger'.
  - intros other Hne. apply chain_of_store_other. exact Hne.
Qed.

Lemma failed_rewrite_still_synchronises_witness :
  let h := [[(KStr "a", VDict [(KStr "x", VInt 1)])]] in
  let r := update_attribute h [[]] (new_block "r" RESOURCE 0 0) "a.b.c" (VInt 5)
             (VStr "o") 0 in
  fails ["a"; "b"; "c"] (VDict [(KStr "a", VDict [(KStr "x", VInt 1)])]) (VInt 5) = true
  /\ raised r = None
  /\ fst (update_inner_attribute "a.b.c" (VDict [(KStr "a", VDict [(KStr "x", VInt 1)])])
            (VInt 5))
     = VDict [(KStr "a", VDict [(KStr "x", VInt 1)])]
  /\ dict_get (KStr "a.b.c") (deref (heap_after r) 0) = Some (VInt 5)
  /\ dict_get (KStr "a.b") (deref (heap_after r) 0) = Some (VDict [(KStr "c", VInt 5)])
  /\ dict_get (KStr "a") (deref (heap_after r) 0) = Some (VDict [(KStr "x", VInt 1)])
  /\ chain_of (chains_after r) 0 = [VStr "o"].
Proof.
  pose proof (failed_rewrite_still_synchronises
                [[(KStr "a", VDict [(KStr "x", VInt 1)])]] [[]]
                (new_block "r" RESOURCE 0 0) "a.b.c" (VInt 5) (VStr "o") 0
                ltac:(simpl; lia) ltac:(simpl; lia) eq_refl eq_refl eq_refl) as H.
  cbv zeta in H. destruct H as [H0 [H1 [_ [H3 [H4 [H5 [H6 _]]]]]]].
  cbv zeta. split; [reflexivity|]. split; [exact H0|]. split; [exact H1|].
  split; [exact H3|]. split; [exact (proj1 (H4 2 ltac:(simpl; lia)))|].
  split; [|exact H5].
  refine (eq_trans (H6 (KStr "a") _) eq_refl).
  intros k Hk. simpl in Hk.
  assert (Hk2 : k = 2 \/ k = 3) by lia. destruct Hk2; subst k; discriminate.
Defined.

(** C2, the claim as stated fails.  On [{"a": 1}] the rewrite of ["x.y"]
    fails with the key absent, and [update_attribute] adds the entry ["x.y"]
    to the mapping and to the ledger all the same.  On [{"a": [{"b": 1}, 5]}]
    the rewrite of ["a.b"] fails at the second element of the list after it
    has rewritten the first. *)
Lemma failed_rewrite_changes_state :
  let attrs := [(KStr "a", VInt 1)] in
  let b := new_block "r" RESOURCE 0 0 in
  let r := update_attribute [attrs] [[]] b "x.y" (VInt 5) (VStr "o") 0 in
  let mixed := [(KStr "a", VList [VDict [(KStr "b", VInt 1)]; VInt 5])] in
  snd (update_inner_attribute "x.y" (VDict attrs) (VInt 5)) = Return_exn KeyError
  /\ dict_get (KStr "x.y") attrs = None
  /\ raised r = None
  /\ deref (heap_after r) 0 = [(KStr "a", VInt 1); (KStr "x.y", VInt 5)]
  /\ changed_attributes b = []
  /\ changed_attributes (block_after r) = [("x.y", 0)]
  /\ chain_of (chains_after r) 0 = [VStr "o"]
  /\ dict_get (KStr "a.b") mixed = None
  /\ update_inner_attribute "a.b" (VDict mixed) (VInt 9)
     = (VDict [(KStr "a", VList [VDict [(KStr "b", VInt 9)]; VInt 5])],
        Return_exn TypeError).
Proof. cbv zeta. repeat split. Qed.

(** A mapping below the top that holds what is left of the path as a key:
    the first [if] of the call on that mapping writes the entry, and the
    traversal fails further down all the same. *)
Example failure_below_a_written_key :
  let tree := [(KStr "a", VDict [(KStr "b.c.d", VInt 1);
                                 (KStr "b", VDict [(KStr "x", VInt 1)])])] in
  dict_get (KStr "a.b.c.d") tree = None
  /\ fails ["a"; "b"; "c"; "d"] (VDict tree) (VInt 9) = true
  /\ no_shortcut ["a"; "b"; "c"; "d"] (VDict tree) = false
  /\ update_inner_attribute "a.b.c.d" (VDict tree) (VInt 9)
     = (VDict [(KStr "a", VDict [(KStr "b.c.d", VInt 9);
                                 (KStr "b", VDict [(KStr "x", VInt 1)])])],
        Return_None).
Proof. cbv zeta. repeat split. Qed.

(** The ledger holds the caller's list itself: after a second call that is
    given the same list with another origin, the entry the first call
    recorded reads the longer list. *)
Example recorded_chain_follows_later_appends :
  let h := [[(KStr "a", VInt 1); (KStr "b", VInt 2)]] in
  let r1 := update_attribute h [[]] (new_block "r" RESOURCE 0 0) "a" (VInt 5) (VStr "o1") 0 in
  let r2 := update_attribute (heap_after r1) (chains_after r1) (block_after r1) "b"
              (VInt 6) (VStr "o2") 0 in
  ledger_get "a" (changed_attributes (block_after r1)) = Some 0
  /\ chain_of (chains_after r1) 0 = [VStr "o1"]
  /\ ledger_get "a" (changed_attributes (block_after r2)) = Some 0
  /\ chain_of (chains_after r2) 0 = [VStr "o1"; VStr "o2"].
Proof. cbv zeta. repeat split. Qed.

(** ** The loop over a list *)

Lemma for_each_all (f : value -> value * outcome) (l : list value) :
  Forall (fun x => no_raise (snd (f x))) l ->
  for_each f l = (map (fun x => fst (f x)) l, Return_None).
Proof.
  induction 1 as [|x l Hx Hl IH]; simpl; [reflexivity|].
  rewrite IH. destruct (f x) as [x' [| e | e]]; simpl in *; try reflexivity. contradiction.
Qed.

Lemma for_each_stops (f : value -> value * outcome) (l1 l2 : list value) (x : value)
  (e : exn) :
  Forall (fun y => no_raise (snd (f y))) l1 -> snd (f x) = Raise e ->
  for_each f (l1 ++ x :: l2) = (map (fun y => fst (f y)) l1 ++ fst (f x) :: l2, Raise e).
Proof.
  intros Hl1 Hx. induction Hl1 as [|y l1 Hy Hl1 IH]; simpl.
  - destruct (f x) as [x' o]. simpl in Hx. subst o. reflexivity.
  - rewrite IH. destruct (f y) as [y' [| e' | e']]; simpl in *; try reflexivity.
    contradiction.
Qed.

Lemma curr_key_plain (c : string) : plain_component c -> curr_key_of [c] = Some (KStr c).
Proof. intros [_ Hn]. unfold curr_key_of. simpl. rewrite Hn. reflexivity. Qed.

Lemma components_one (c : string) : dot_free c -> components [c].
Proof. intros Hc. split; [discriminate | repeat constructor; exact Hc]. Qed.

Lemma update_inner_attribute_list (c : string) (l : list value) (v : value) :
  plain_component c ->
  update_inner_attribute c (VList l) v
  = let (l', o) := for_each (fun inner => update_inner_attribute c inner v) l in
    (VList l', o).
Proof.
  intros Hc. pose proof (curr_key_plain c Hc) as Hk. destruct Hc as [Hc _].
  change c with (path_of [c]) at 1.
  rewrite (update_inner_attribute_last c _ v (KStr c) (components_one c Hc) Hk).
  reflexivity.
Qed.

Lemma update_inner_attribute_entry (c : string) (d : dict) (v : value) :
  plain_component c ->
  update_inner_attribute c (VDict d) v = (VDict (dict_set (KStr c) v d), Return_None).
Proof.
  intros Hc. pose proof (curr_key_plain c Hc) as Hk. destruct Hc as [Hc _].
  change c with (path_of [c]) at 1.
  rewrite (update_inner_attribute_last c _ v (KStr c) (components_one c Hc) Hk).
  unfold first_if.
  destruct (truthy (py_get (KStr c) d)); [rewrite dict_set_idem|]; reflexivity.
Qed.

(** C5, as the code has it.  The scenario: with [ingress] the list of the
    two mappings, [update_attribute("ingress.port", 8080, origin, [])]
    returns, leaves [port] at 8080 in both elements and records
    ["ingress.port"] in the ledger with the caller's breadcrumb list, which
    was empty and now holds the origin.  In general, when the rewrite
    meets a list with one component left, not numeric: it assigns the
    component in every element when the elements are mappings; it rewrites
    every element when the rewrite raises on none; and when the rewrite raises
    on an element, the elements before it are rewritten, the ones after it are
    left as they were and the exception goes to the caller. *)
Theorem broadcast_rewrites_elements_until_a_raise :
  (forall h c b origin crumbs,
     attributes b < length h ->
     crumbs < length c -> chain_of c crumbs = [] ->
     dict_get (KStr "ingress") (deref h (attributes b)) = Some (VList [port 80; port 443]) ->
     let r := update_attribute h c b "ingress.port" (VInt 8080) origin crumbs in
     raised r = None
     /\ dict_get (KStr "ingress") (deref (heap_after r) (attributes b))
        = Some (VList [port 8080; port 8080])
     /\ ledger_get "ingress.port" (changed_attributes (block_after r)) = Some crumbs
     /\ chain_of (chains_after r) crumbs = [origin])
  /\ (forall c ds v, plain_component c ->
        update_inner_attribute c (VList (map VDict ds)) v
        = (VList (map (fun d => VDict (dict_set (KStr c) v d)) ds), Return_None))
  /\ (forall c l v, plain_component c ->
        Forall (fun x => no_raise (snd (update_inner_attribute c x v))) l ->
        update_inner_attribute c (VList l) v
        = (VList (map (fun x => fst (update_inner_attribute c x v)) l), Return_None))
  /\ (forall c l1 x l2 v e, plain_component c ->
        Forall (fun y => no_raise (snd (update_inner_attribute c y v))) l1 ->
        snd (update_inner_attribute c x v) = Raise e ->
        update_inner_attribute c (VList (l1 ++ x :: l2)) v
        = (VList (map (fun y => fst (update_inner_attribute c y v)) l1
                  ++ fst (update_inner_attribute c x v) :: l2),
           Raise e)).
Proof.
  split; [|split; [|split]].
  - intros h c b origin crumbs Href Hcrumbs Hempty Hingress. cbv zeta.
    destruct (update_attribute_dotted h c b "ingress.port" (VInt 8080) origin crumbs
                Href eq_refl ltac:(discriminate))
      as [Hreturns [_ [_ [Hother [Hledger _]]]]].
    split; [exact Hreturns|]. split; [|split].
    + rewrite (Hother (KStr "ingress")).
      * change "ingress.port" with (path_of ["ingress"; "port"]).
        rewrite (update_inner_attribute_more "ingress" ["port"] _ _ (KStr "ingress"));
          [| split; [discriminate | repeat constructor] | discriminate | reflexivity].
        cbv zeta. rewrite (at_key_Some _ _ _ _ Hingress).
        change (update_inner_attribute (path_of ["port"]) (VList [port 80; port 443])
                  (VInt 8080))
          with (VList [port 8080; port 8080], Return_None).
        cbn [fst snd dict_of].
        destruct (truthy (py_get (KStr (path_of ["ingress"; "port"]))
                            (deref h (attributes b)))).
        -- rewrite dict_get_set_other by discriminate. apply dict_get_set_same.
        -- apply dict_get_set_same.
      * intros k Hk. simpl in Hk. assert (Hk2 : k = 2) by lia. subst k. discriminate.
    + exact (Hledger 2 ltac:(simpl; lia)).
    + rewrite update_attribute_chains, chain_of_store_same by exact Hcrumbs.
      rewrite Hempty. reflexivity.
  - intros c ds v Hc. rewrite update_inner_attribute_list by exact Hc.
    rewrite for_each_all.
    + rewrite map_map. f_equal. f_equal. apply map_ext. intros d.
      rewrite update_inner_attribute_entry by exact Hc. reflexivity.
    + apply Forall_map. apply Forall_forall. intros d _.
      rewrite update_inner_attribute_entry by exact Hc. exact I.
  - intros c l v Hc Hall. rewrite update_inner_attribute_list by exact Hc.
    rewrite for_each_all by exact Hall. reflexivity.
  - intros c l1 x l2 v e Hc Hall Hx. rewrite update_inner_attribute_list by exact Hc.
    rewrite (for_each_stops _ l1 l2 x e Hall Hx). reflexivity.
Qed.

Lemma broadcast_rewrites_elements_until_a_raise_witness :
  let h0 := [[]; [(KStr "ingress", VList [port 80; port 443])]] in
  let built := Block_init sample_env h0 "aws_security_group.sg" 0 "" RESOURCE 1 "" "" false in
  let r := update_attribute (fst built) [[]] (snd built) "ingress.port" (VInt 8080)
             (VStr "origin") 0 in
  (raised r = None
   /\ dict_get (KStr "ingress") (deref (heap_after r) 1) = Some (VList [port 8080; port 8080])
   /\ ledger_get "ingress.port" (changed_attributes (block_after r)) = Some 0
   /\ chain_of (chains_after r) 0 = [VStr "origin"])
  /\ update_inner_attribute "port" (VList [port 80; VInt 5; port 443]) (VInt 8080)
     = (VList [port 8080; VInt 5; port 443], Raise TypeError).
Proof.
  destruct broadcast_rewrites_elements_until_a_raise as [H1 [_ [_ H4]]].
  cbv zeta. split.
  - apply (H1 (fst (Block_init sample_env
                      [[]; [(KStr "ingress", VList [port 80; port 443])]]
                      "aws_security_group.sg" 0 "" RESOURCE 1 "" "" false))
              [[]]
              (snd (Block_init sample_env
                      [[]; [(KStr "ingress", VList [port 80; port 443])]]
                      "aws_security_group.sg" 0 "" RESOURCE 1 "" "" false))
              (VStr "origin") 0); [simpl; lia | simpl; lia | reflexivity | reflexivity].
  - apply (H4 "port" [port 80] (VInt 5) [port 443] (VInt 8080) TypeError).
    + split; reflexivity.
    + repeat constructor.
    + reflexivity.
Defined.

(** The scenario on a block the constructor built from
    [{"ingress": [{"port": 80}, {"port": 443}]}]. *)
Example broadcast_scenario :
  let h0 := [[]; [(KStr "ingress", VList [port 80; port 443])]] in
  let built := Block_init sample_env h0 "aws_security_group.sg" 0 "" RESOURCE 1 "" "" false in
  let r := update_attribute (fst built) [[]] (snd built) "ingress.port" (VInt 8080)
             (VStr "origin") 0 in
  dict_get (KStr "ingress") (deref (heap_after r) 1) = Some (VList [port 8080; port 8080])
  /\ changed_attributes (block_after r) = [("ingress.port", 0)]
  /\ chains_after r = [[VStr "origin"]].
Proof. cbv zeta. repeat split. Qed.

(** C5, the claim as stated fails: on [{"ingress": [5, {"port": 80}]}] the
    rewrite of ["ingress.port"] raises on the first element, and the second
    element keeps its port. *)
Lemma broadcast_stops_at_first_raise :
  let h := [[(KStr "ingress", VList [VInt 5; port 80])]] in
  let r := update_attribute h [[]] (new_block "r" RESOURCE 0 0) "ingress.port" (VInt 8080)
             (VStr "origin") 0 in
  dict_get (KStr "ingress") (deref (heap_after r) 0) = Some (VList [VInt 5; port 80])
  /\ update_inner_attribute "port" (VList [VInt 5; port 80]) (VInt 8080)
     = (VList [VInt 5; port 80], Raise TypeError).
Proof. cbv zeta. split; reflexivity. Qed.

(** ** Flattening and the nested form read back *)

Lemma get_inner_attributes_unwrap (k : key) (v : value) :
  get_inner_attributes k v = flatten_from k (unwrap_singleton v).
Proof.
  destruct v as [| | | |l|d]; try reflexivity.
  destruct l as [|x [|y l]]; try reflexivity.
  destruct x; reflexivity.
Qed.

Lemma unwrap_levels_unwrap (v : value) :
  unwrap_levels v = levels_from (unwrap_singleton v).
Proof.
  destruct v as [| | | |l|d]; try reflexivity.
  destruct l as [|x [|y l]]; try reflexivity.
  destruct x; reflexivity.
Qed.

(** Induction that follows the flattening: the hypothesis for an element is
    about the element after its unwrapping. *)
Lemma value_flat_ind (P : value -> Prop) :
  P VNone -> (forall b, P (VBool b)) -> (forall z, P (VInt z)) ->
  (forall s, P (VStr s)) ->
  (forall l, Forall (fun x => P (unwrap_singleton x)) l -> P (VList l)) ->
  (forall d, Forall (fun kv => P (unwrap_singleton (snd kv))) d -> P (VDict d)) ->
  forall v, P v.
Proof.
  intros HNone HBool HInt HStr HList HDict v.
  assert (H : P v /\ P (unwrap_singleton v)); [|exact (proj1 H)].
  induction v as [| b | z | s | l IH | d IH] using value_ind; simpl; auto.
  - assert (Hl : P (VList l)).
    { apply HList. eapply Forall_impl; [|exact IH]. intros x Hx. exact (proj2 Hx). }
    split; [exact Hl|].
    destruct l as [|x [|y l]]; try exact Hl.
    inversion IH as [|? ? Hx _]; subst. exact (proj1 Hx).
  - assert (Hd : P (VDict d)).
    { apply HDict. eapply Forall_impl; [|exact IH]. intros kv Hkv. exact (proj2 Hkv). }
    split; exact Hd.
Qed.

Lemma string_length_append (a b : string) :
  String.length (a ++ b)%string = String.length a + String.length b.
Proof. induction a as [|c a IH]; simpl; [reflexivity | rewrite IH; reflexivity]. Qed.

Lemma inner_key_longer (k j : key) : longer k (KStr (inner_key_of k j)).
Proof.
  unfold longer, inner_key_of. rewrite !string_length_append. simpl. lia.
Qed.

Lemma longer_not_root (k k' : key) : longer k k' -> k' <> k.
Proof.
  intros Hl Heq. subst k'. destruct k as [s|n]; simpl in Hl; [lia | exact Hl].
Qed.

Lemma longer_trans (k j k' : key) :
  longer k (KStr (inner_key_of k j)) ->
  k' = KStr (inner_key_of k j) \/ longer (KStr (inner_key_of k j)) k' -> longer k k'.
Proof.
  intros Hj [->|Hl]; [exact Hj|].
  destruct k' as [s|n]; simpl in *; [lia | exact Hl].
Qed.

(** Keys of an updated dict. *)
Lemma dict_keys_set_In (k k' : key) (v : value) (d : dict) :
  In k' (dict_keys (dict_set k v d)) -> k' = k \/ In k' (dict_keys d).
Proof.
  rewrite dict_keys_set. destruct (existsb (key_eqb k) (dict_keys d)); [auto|].
  intros Hin. apply in_app_or in Hin. destruct Hin as [Hin|[<-|[]]]; auto.
Qed.

Lemma dict_keys_update_In (k' : key) (d other : dict) :
  In k' (dict_keys (dict_update d other)) ->
  In k' (dict_keys d) \/ In k' (dict_keys other).
Proof.
  unfold dict_update. revert d.
  induction other as [|[k v] other IH]; simpl; intros d Hin; [auto|].
  destruct (IH _ Hin) as [H|H]; [|auto].
  apply dict_keys_set_In in H. simpl in H. destruct H as [->|H]; auto.
Qed.

Lemma dict_get_None_keys (k : key) (d : dict) :
  ~ In k (dict_keys d) -> dict_get k d = None.
Proof.
  induction d as [|[k' v] d IH]; simpl; intros Hnot; [reflexivity|].
  destruct (key_eqb k' k) eqn:Hk.
  - apply key_eqb_eq in Hk. subst. exfalso. apply Hnot. auto.
  - apply IH. intro H. apply Hnot. auto.
Qed.

Lemma dict_get_update_other (k : key) (d other : dict) :
  ~ In k (dict_keys other) -> dict_get k (dict_update d other) = dict_get k d.
Proof.
  unfold dict_update. revert d.
  induction other as [|[k' v] other IH]; simpl; intros d Hnot; [reflexivity|].
  rewrite IH by (intro H; apply Hnot; auto).
  apply dict_get_set_other. intro Heq. apply Hnot. auto.
Qed.

Lemma dict_get_update_in (k : key) (x : value) (d other : dict) :
  unique other -> dict_get k other = Some x ->
  dict_get k (dict_update d other) = Some x.
Proof.
  unfold dict_update, unique. revert d.
  induction other as [|[k' v] other IH]; simpl; intros d Hu Hget; [discriminate|].
  inversion Hu as [|? ? Hnotin Hu']; subst.
  destruct (key_eqb k' k) eqn:Hk.
  - apply key_eqb_eq in Hk. subst k'. injection Hget as ->.
    fold (dict_update (dict_set k x d) other).
    rewrite dict_get_update_other by exact Hnotin. apply dict_get_set_same.
  - apply IH; assumption.
Qed.

Lemma flat_ok_single (k : key) (v : value) : flat_ok k [(k, v)].
Proof.
  split.
  - unfold unique. simpl. repeat constructor. simpl. tauto.
  - intros k' [<-|[]]. left. reflexivity.
Qed.

Lemma sub_keys_not_root (k j : key) (sub : dict) :
  keys_within (KStr (inner_key_of k j)) sub -> ~ In k (dict_keys sub).
Proof.
  intros Hsub Hin. pose proof (inner_key_longer k j) as Hl.
  apply (longer_not_root k k); [|reflexivity].
  apply (longer_trans k j k Hl). destruct (Hsub k Hin) as [H|H]; auto.
Qed.

Lemma loop_step_ok (k j : key) (sub acc : dict) :
  flat_ok k acc -> flat_ok (KStr (inner_key_of k j)) sub ->
  flat_ok k (loop_step k j sub acc).
Proof.
  intros [Hu Hk] [Hsu Hsk].
  assert (H1 : flat_ok k (dict_update acc sub)).
  { split; [apply dict_update_unique; exact Hu|].
    intros k' Hin. apply dict_keys_update_In in Hin. destruct Hin as [Hin|Hin].
    - apply Hk. exact Hin.
    - right. apply (longer_trans k j k' (inner_key_longer k j)).
      destruct (Hsk k' Hin); auto. }
  unfold loop_step.
  destruct (dict_get (KStr (inner_key_of k j)) (dict_update acc sub)); [|exact H1].
  destruct (dict_get k (dict_update acc sub)); [|exact H1].
  destruct H1 as [H1u H1k]. split; [apply dict_set_unique; exact H1u|].
  intros k' Hin. apply dict_keys_set_In in Hin. destruct Hin as [->|Hin]; auto.
Qed.

Lemma loop_step_root (k j : key) (sub acc : dict) (x container : value) :
  flat_ok (KStr (inner_key_of k j)) sub ->
  dict_get (KStr (inner_key_of k j)) sub = Some x ->
  dict_get k acc = Some container ->
  dict_get k (loop_step k j sub acc) = Some (set_item container j x).
Proof.
  intros [Hsu Hsk] Hx Hc. unfold loop_step.
  rewrite (dict_get_update_in _ x acc sub Hsu Hx).
  rewrite dict_get_update_other by (apply (sub_keys_not_root k j); exact Hsk).
  rewrite Hc. apply dict_get_set_same.
Qed.

Lemma loop_list_ok (k : key) (l : list value) :
  Forall element_ok l ->
  forall i acc, flat_ok k acc -> flat_ok k (loop_list get_inner_attributes k i l acc).
Proof.
  induction 1 as [|x l Hx Hl IH]; simpl; intros i acc Hacc; [exact Hacc|].
  apply IH. apply loop_step_ok; [exact Hacc | apply Hx].
Qed.

Lemma loop_dict_ok (k : key) (d : dict) :
  Forall (fun kv => element_ok (snd kv)) d ->
  forall acc, flat_ok k acc -> flat_ok k (loop_dict get_inner_attributes k d acc).
Proof.
  induction 1 as [|[j x] d Hx Hd IH]; simpl; intros acc Hacc; [exact Hacc|].
  apply IH. apply loop_step_ok; [exact Hacc | apply Hx].
Qed.

Lemma list_set_middle (done rest : list value) (y x : value) :
  list_set (length done) x (done ++ y :: rest) = done ++ x :: rest.
Proof.
  induction done as [|z done IH]; simpl; [reflexivity | rewrite IH; reflexivity].
Qed.

Lemma loop_list_root (k : key) (l : list value) :
  Forall element_ok l -> Forall element_root l ->
  forall done acc,
    dict_get k acc = Some (VList (done ++ repeat VNone (length l))) ->
    dict_get k (loop_list get_inner_attributes k (length done) l acc)
    = Some (VList (done ++ map unwrap_levels l)).
Proof.
  intros Hok Hroot. revert Hroot.
  induction Hok as [|x l Hx Hl IH]; intros Hroot done acc Hacc; simpl in *.
  - exact Hacc.
  - inversion Hroot as [|? ? Hrx Hrl]; subst.
    replace (done ++ unwrap_levels x :: map unwrap_levels l)
      with ((done ++ [unwrap_levels x]) ++ map unwrap_levels l)
      by (rewrite <- app_assoc; reflexivity).
    replace (S (length done)) with (length (done ++ [unwrap_levels x]))
      by (rewrite length_app; simpl; lia).
    apply IH; [exact Hrl|].
    rewrite (loop_step_root k (KInt (length done)) _ acc (unwrap_levels x)
               (VList (done ++ VNone :: repeat VNone (length l))));
      [| apply Hx | apply Hrx | exact Hacc].
    simpl. rewrite list_set_middle, <- app_assoc. reflexivity.
Qed.

Lemma dict_set_append (k : key) (v : value) (d : dict) :
  ~ In k (dict_keys d) -> dict_set k v d = d ++ [(k, v)].
Proof.
  induction d as [|[k' v'] d IH]; simpl; intros Hnot; [reflexivity|].
  destruct (key_eqb k' k) eqn:Hk.
  - apply key_eqb_eq in Hk. subst. exfalso. apply Hnot. auto.
  - rewrite IH by (intro H; apply Hnot; auto). reflexivity.
Qed.

Lemma loop_dict_root (k : key) (d : dict) :
  Forall (fun kv => element_ok (snd kv)) d ->
  Forall (fun kv => element_root (snd kv)) d ->
  forall done acc,
    NoDup (dict_keys done ++ dict_keys d) ->
    dict_get k acc = Some (VDict done) ->
    dict_get k (loop_dict get_inner_attributes k d acc)
    = Some (VDict (done ++ map unwrap_entry d)).
Proof.
  intros Hok Hroot. revert Hroot.
  induction Hok as [|[j x] d Hx Hd IH]; intros Hroot done acc Hnd Hacc; simpl in *.
  - rewrite app_nil_r. exact Hacc.
  - inversion Hroot as [|? ? Hrx Hrd]; subst. simpl in Hrx.
    replace (done ++ unwrap_entry (j, x) :: map unwrap_entry d)
      with ((done ++ [(j, unwrap_levels x)]) ++ map unwrap_entry d)
      by (rewrite <- app_assoc; reflexivity).
    apply IH; [exact Hrd | |].
    + unfold dict_keys in *. rewrite map_app, <- app_assoc. simpl. exact Hnd.
    + rewrite (loop_step_root k j _ acc (unwrap_levels x) (VDict done));
        [| apply Hx | apply Hrx | exact Hacc].
      simpl. rewrite dict_set_append; [reflexivity|].
      intro Hin. apply NoDup_remove_2 in Hnd. apply Hnd.
      apply in_or_app. left. exact Hin.
Qed.

Lemma flatten_from_ok (u : value) : forall k, flat_ok k (flatten_from k u).
Proof.
  induction u as [| b | z | s | l IH | d IH] using value_flat_ind; intros k;
    try apply flat_ok_single.
  - simpl. apply loop_list_ok; [|apply flat_ok_single].
    eapply Forall_impl; [|exact IH]. intros x Hx k'.
    rewrite get_inner_attributes_unwrap. apply Hx.
  - simpl. apply loop_dict_ok; [|apply flat_ok_single].
    eapply Forall_impl; [|exact IH]. intros kv Hkv k'.
    rewrite get_inner_attributes_unwrap. apply Hkv.
Qed.

Lemma get_inner_attributes_ok (x : value) : element_ok x.
Proof. intros k. rewrite get_inner_attributes_unwrap. apply flatten_from_ok. Qed.

Lemma well_formed_unwrap (x : value) :
  well_formed x = true -> well_formed (unwrap_singleton x) = true.
Proof.
  destruct x as [| | | |l|d]; simpl; auto.
  destruct l as [|x [|y l]]; simpl; auto.
  rewrite andb_true_r. auto.
Qed.

Lemma unique_keys_NoDup (ks : list key) : unique_keys ks = true -> NoDup ks.
Proof.
  induction ks as [|k ks IH]; simpl; intros H; [constructor|].
  apply andb_true_iff in H. destruct H as [Hk Hks].
  constructor; [|apply IH; exact Hks].
  intro Hin. apply existsb_key_In in Hin. rewrite Hin in Hk. discriminate.
Qed.

Lemma flatten_from_root (u : value) :
  well_formed u = true ->
  forall k, dict_get k (flatten_from k u) = Some (levels_from u).
Proof.
  induction u as [| b | z | s | l IH | d IH] using value_flat_ind; intros Hwf k;
    try (simpl; rewrite key_eqb_refl; reflexivity).
  - simpl in Hwf |- *.
    change (loop_list get_inner_attributes k 0 l)
      with (loop_list get_inner_attributes k (length (@nil value)) l).
    rewrite (loop_list_root k l) with (done := []).
    + reflexivity.
    + apply Forall_forall. intros x _. apply get_inner_attributes_ok.
    + rewrite forallb_forall in Hwf. rewrite Forall_forall in IH |- *.
      intros x Hx k'. rewrite get_inner_attributes_unwrap, unwrap_levels_unwrap.
      apply IH; [exact Hx | apply well_formed_unwrap; apply Hwf; exact Hx].
    + simpl. rewrite key_eqb_refl. reflexivity.
  - simpl in Hwf |- *. apply andb_true_iff in Hwf. destruct Hwf as [Hkeys Hwf].
    rewrite (loop_dict_root k d) with (done := []).
    + reflexivity.
    + apply Forall_forall. intros kv _. apply get_inner_attributes_ok.
    + rewrite forallb_forall in Hwf. rewrite Forall_forall in IH |- *.
      intros kv Hkv k'. rewrite get_inner_attributes_unwrap, unwrap_levels_unwrap.
      apply IH; [exact Hkv | apply well_formed_unwrap; apply Hwf; exact Hkv].
    + simpl. apply unique_keys_NoDup. exact Hkeys.
    + simpl. rewrite key_eqb_refl. reflexivity.
Qed.

(** The root entry of the flattened mapping. *)
Lemma get_inner_attributes_root (k : key) (v : value) :
  well_formed v = true ->
  dict_get k (get_inner_attributes k v) = Some (unwrap_levels v).
Proof.
  intros Hwf. rewrite get_inner_attributes_unwrap, unwrap_levels_unwrap.
  apply flatten_from_root. apply well_formed_unwrap. exact Hwf.
Qed.

Lemma unwrap_not_singleton (v : value) :
  is_singleton_list v = false -> unwrap_singleton v = v.
Proof.
  destruct v as [| | | |l|d]; try reflexivity.
  destruct l as [|x [|y l]]; try reflexivity. discriminate.
Qed.

Lemma is_singleton_levels_from (u : value) :
  is_singleton_list (levels_from u) = is_singleton_list u.
Proof.
  destruct u as [| | | |l|d]; try reflexivity.
  destruct l as [|x [|y l]]; reflexivity.
Qed.

Lemma no_nested_singleton_unwrap (x : value) :
  no_nested_singleton x = true ->
  no_nested_singleton (unwrap_singleton x) = true
  /\ is_singleton_list (unwrap_singleton x) = false.
Proof.
  destruct x as [| | | |l|d]; simpl; auto.
  destruct l as [|x [|y l]]; simpl; auto.
  intros H. apply andb_true_iff in H. destruct H as [Hhead Hx].
  rewrite andb_true_r in Hx. split; [exact Hx|].
  destruct x as [| | | |l'|d']; try reflexivity.
  destruct l' as [|x' [|y' l']]; try reflexivity. discriminate.
Qed.

Lemma loop_list_ext (f : value -> value) (k : key) (l : list value) :
  (forall x, In x l -> forall k', get_inner_attributes k' (f x) = get_inner_attributes k' x) ->
  forall i acc,
    loop_list get_inner_attributes k i (map f l) acc
    = loop_list get_inner_attributes k i l acc.
Proof.
  induction l as [|x l IH]; simpl; intros Hext i acc; [reflexivity|].
  rewrite (Hext x) by (left; reflexivity). apply IH.
  intros y Hy. apply Hext. right. exact Hy.
Qed.

Lemma loop_dict_ext (k : key) (d : dict) :
  (forall kv, In kv d ->
     forall k', get_inner_attributes k' (unwrap_levels (snd kv))
                = get_inner_attributes k' (snd kv)) ->
  forall acc,
    loop_dict get_inner_attributes k (map unwrap_entry d) acc
    = loop_dict get_inner_attributes k d acc.
Proof.
  induction d as [|[j x] d IH]; simpl; intros Hext acc; [reflexivity|].
  rewrite (Hext (j, x)) by (left; reflexivity). apply IH.
  intros kv Hkv. apply Hext. right. exact Hkv.
Qed.

(** The flattening of an element is the flattening of its unwrapped form,
    given the same for what the element unwraps to. *)
Lemma element_idempotent (x : value) :
  no_nested_singleton x = true ->
  (no_nested_singleton (unwrap_singleton x) = true ->
   forall k, flatten_from k (levels_from (unwrap_singleton x))
             = flatten_from k (unwrap_singleton x)) ->
  forall k, get_inner_attributes k (unwrap_levels x) = get_inner_attributes k x.
Proof.
  intros Hx IH k.
  destruct (no_nested_singleton_unwrap x Hx) as [Hn Hs].
  rewrite (get_inner_attributes_unwrap k x), <- (IH Hn k).
  rewrite get_inner_attributes_unwrap, unwrap_levels_unwrap.
  rewrite unwrap_not_singleton; [reflexivity|].
  rewrite is_singleton_levels_from. exact Hs.
Qed.

Lemma flatten_from_idempotent (u : value) :
  no_nested_singleton u = true ->
  forall k, flatten_from k (levels_from u) = flatten_from k u.
Proof.
  induction u as [| b | z | s | l IH | d IH] using value_flat_ind; intros Hn k;
    try reflexivity.
  - simpl in Hn |- *. apply andb_true_iff in Hn. destruct Hn as [_ Hn].
    rewrite length_map. apply loop_list_ext.
    rewrite forallb_forall in Hn. rewrite Forall_forall in IH.
    intros x Hx. apply element_idempotent; [apply Hn; exact Hx | apply IH; exact Hx].
  - simpl in Hn |- *. apply (loop_dict_ext k d).
    rewrite forallb_forall in Hn. rewrite Forall_forall in IH.
    intros kv Hkv. apply element_idempotent; [apply Hn; exact Hkv | apply IH; exact Hkv].
Qed.

Lemma get_inner_attributes_idempotent (k : key) (v : value) :
  no_nested_singleton v = true ->
  get_inner_attributes k (unwrap_levels v) = get_inner_attributes k v.
Proof.
  intros Hn. apply element_idempotent; [exact Hn|].
  intros Hu k'. apply flatten_from_idempotent. exact Hu.
Qed.

Lemma unwrap_levels_all (v : value) :
  no_nested_singleton v = true -> unwrap_levels v = unwrap_all v.
Proof.
  induction v as [| b | z | s | l IH | d IH] using value_ind; intros Hn;
    try reflexivity.
  - simpl in Hn. apply andb_true_iff in Hn. destruct Hn as [Hhead Hn].
    assert (Hmap : map unwrap_all l = map unwrap_levels l).
    { apply map_ext_in. intros x Hx. symmetry.
      rewrite Forall_forall in IH. rewrite forallb_forall in Hn.
      apply IH; [exact Hx | apply Hn; exact Hx]. }
    simpl unwrap_all. rewrite Hmap.
    destruct l as [|x [|y l]]; try reflexivity.
    simpl map. rewrite unwrap_levels_unwrap. simpl unwrap_singleton.
    rewrite (unwrap_levels_unwrap x). rewrite unwrap_not_singleton; [reflexivity|].
    destruct x as [| | | |l'|d']; try reflexivity.
    destruct l' as [|x' [|y' l']]; try reflexivity. discriminate.
  - simpl in Hn |- *. f_equal. apply map_ext_in. intros kv Hkv.
    rewrite Forall_forall in IH. rewrite forallb_forall in Hn.
    rewrite (IH kv Hkv (Hn kv Hkv)). reflexivity.
Qed.

(** C4, as the code has it: the flattened mapping holds under the root key
    the original value with one singleton unwrapping per level (a singleton
    list is replaced by its element, and that element is not unwrapped a
    second time when it is a singleton list itself); when no singleton list
    has a singleton list as its element, this is the value with every
    singleton list unwrapped, and flattening it again gives the same flattened
    mapping. *)
Theorem flatten_root_is_value_unwrapped_by_level :
  (forall k v, well_formed v = true ->
     dict_get k (get_inner_attributes k v) = Some (unwrap_levels v))
  /\ (forall k v, no_nested_singleton v = true ->
        unwrap_levels v = unwrap_all v
        /\ get_inner_attributes k (unwrap_levels v) = get_inner_attributes k v).
Proof.
  split.
  - intros k v Hwf. apply get_inner_attributes_root. exact Hwf.
  - intros k v Hn. split.
    + apply unwrap_levels_all. exact Hn.
    + apply get_inner_attributes_idempotent. exact Hn.
Qed.

Lemma flatten_root_is_value_unwrapped_by_level_witness :
  let v :=
    VDict [(KStr "rule",
            VList [VDict [(KStr "ports", VList [VInt 80; VInt 443]);
                          (KStr "tags", VList [VDict [(KStr "env", VList [VStr "a"])]])]])] in
  dict_get (KStr "r") (get_inner_attributes (KStr "r") v) = Some (unwrap_levels v)
  /\ unwrap_levels v = unwrap_all v
  /\ get_inner_attributes (KStr "r") (unwrap_levels v) = get_inner_attributes (KStr "r") v.
Proof.
  destruct flatten_root_is_value_unwrapped_by_level as [H1 H2].
  cbv zeta. split.
  - apply H1. reflexivity.
  - apply H2. reflexivity.
Defined.

(** A value of depth four, with singleton lists at three levels. *)
Example flatten_depth_four :
  let v :=
    VDict [(KStr "rule",
            VList [VDict [(KStr "ports", VList [VInt 80; VInt 443]);
                          (KStr "tags", VList [VDict [(KStr "env", VList [VStr "a"])]])]])] in
  well_formed v = true
  /\ no_nested_singleton v = true
  /\ dict_get (KStr "r") (get_inner_attributes (KStr "r") v)
     = Some (VDict [(KStr "rule",
                     VDict [(KStr "ports", VList [VInt 80; VInt 443]);
                            (KStr "tags", VDict [(KStr "env", VStr "a")])])])
  /\ dict_get (KStr "r.rule.tags.env") (get_inner_attributes (KStr "r") v)
     = Some (VStr "a")
  /\ dict_get (KStr "r.rule.ports.1") (get_inner_attributes (KStr "r") v)
     = Some (VInt 443).
Proof. cbv zeta. repeat split. Qed.

(** C4, the claim as stated fails: for [[[5]]] the root entry of the
    flattened mapping is [[5]], which is still a singleton list, where
    unwrapping every singleton list gives [5]; and flattening the nested form
    read back gives another mapping than flattening the original. *)
Lemma flatten_keeps_inner_singleton :
  let v := VList [VList [VInt 5]] in
  get_inner_attributes (KStr "k") v
  = [(KStr "k", VList [VInt 5]); (KStr "k.0", VInt 5)]
  /\ unwrap_all v = VInt 5
  /\ dict_get (KStr "k") (get_inner_attributes (KStr "k") v) <> Some (unwrap_all v)
  /\ get_inner_attributes (KStr "k") (VList [VInt 5]) = [(KStr "k", VInt 5)]
  /\ get_inner_attributes (KStr "k") (VList [VInt 5])
     <> get_inner_attributes (KStr "k") v.
Proof. cbv zeta. repeat split; discriminate. Qed.

(** ** The two lookups of a loop turn never miss *)

Lemma dict_keys_set_keeps (k k' : key) (v : value) (d : dict) :
  In k' (dict_keys d) -> In k' (dict_keys (dict_set k v d)).
Proof.
  rewrite dict_keys_set. destruct (existsb (key_eqb k) (dict_keys d)); [auto|].
  intros H. apply in_or_app. left. exact H.
Qed.

Lemma dict_keys_set_has (k : key) (v : value) (d : dict) :
  In k (dict_keys (dict_set k v d)).
Proof.
  rewrite dict_keys_set. destruct (existsb (key_eqb k) (dict_keys d)) eqn:H.
  - apply existsb_key_In. exact H.
  - apply in_or_app. right. left. reflexivity.
Qed.

Lemma dict_keys_update_keeps (k : key) (d other : dict) :
  In k (dict_keys d) \/ In k (dict_keys other) -> In k (dict_keys (dict_update d other)).
Proof.
  unfold dict_update. revert d.
  induction other as [|[k' v] other IH]; simpl; intros d [H|H]; auto; try contradiction.
  - apply IH. left. apply dict_keys_set_keeps. exact H.
  - apply IH. destruct H as [->|H]; [left; apply dict_keys_set_has | right; exact H].
Qed.

Lemma dict_get_of_key (k : key) (d : dict) :
  In k (dict_keys d) -> exists x, dict_get k d = Some x.
Proof.
  induction d as [|[k' v] d IH]; simpl; [contradiction|].
  intros [->|H].
  - rewrite key_eqb_refl. eexists. reflexivity.
  - destruct (key_eqb k' k); [eexists; reflexivity | apply IH; exact H].
Qed.

Lemma loop_step_keeps_root (k j : key) (sub acc : dict) :
  In k (dict_keys acc) -> In k (dict_keys (loop_step k j sub acc)).
Proof.
  intros H. unfold loop_step.
  assert (H1 : In k (dict_keys (dict_update acc sub)))
    by (apply dict_keys_update_keeps; left; exact H).
  destruct (dict_get (KStr (inner_key_of k j)) (dict_update acc sub)); [|exact H1].
  destruct (dict_get k (dict_update acc sub)); [|exact H1].
  apply dict_keys_set_has.
Qed.

Lemma flatten_from_has_root (k : key) (u : value) : In k (dict_keys (flatten_from k u)).
Proof.
  assert (Hl : forall l i acc, In k (dict_keys acc) ->
                 In k (dict_keys (loop_list get_inner_attributes k i l acc))).
  { induction l as [|x l IH]; simpl; intros i acc H; [exact H|].
    apply IH. apply loop_step_keeps_root. exact H. }
  assert (Hd : forall d acc, In k (dict_keys acc) ->
                 In k (dict_keys (loop_dict get_inner_attributes k d acc))).
  { induction d as [|[j x] d IH]; simpl; intros acc H; [exact H|].
    apply IH. apply loop_step_keeps_root. exact H. }
  destruct u; simpl; try (left; reflexivity).
  - apply Hl. left. reflexivity.
  - apply Hd. left. reflexivity.
Qed.

(** In a turn of the loop of [get_inner_attributes] both
    [inner_attributes[inner_key]] and [inner_attributes[attribute_key]] are
    there: the turn always makes the assignment. *)
Lemma loop_step_assigns (k j : key) (x : value) (acc : dict) :
  In k (dict_keys acc) ->
  exists item container,
    dict_get (KStr (inner_key_of k j))
      (dict_update acc (get_inner_attributes (KStr (inner_key_of k j)) x)) = Some item
    /\ dict_get k (dict_update acc (get_inner_attributes (KStr (inner_key_of k j)) x))
       = Some container
    /\ loop_step k j (get_inner_attributes (KStr (inner_key_of k j)) x) acc
       = dict_set k (set_item container j item)
           (dict_update acc (get_inner_attributes (KStr (inner_key_of k j)) x)).
Proof.
  intros H.
  destruct (dict_get_of_key (KStr (inner_key_of k j))
              (dict_update acc (get_inner_attributes (KStr (inner_key_of k j)) x)))
    as [item Hitem].
  { apply dict_keys_update_keeps. right. rewrite get_inner_attributes_unwrap.
    apply flatten_from_has_root. }
  destruct (dict_get_of_key k
              (dict_update acc (get_inner_attributes (KStr (inner_key_of k j)) x)))
    as [container Hcontainer].
  { apply dict_keys_update_keeps. left. exact H. }
  exists item, container. unfold loop_step. rewrite Hitem, Hcontainer. auto.
Qed.

(** * Further properties of the code *)

(** ** The cipher check of the API server *)

Lemma py_in_strings (s : string) (l : list string) :
  py_in (VStr s) (map VStr l) = true <-> In s l.
Proof.
  unfold py_in. rewrite existsb_exists. split.
  - intros [y [Hin Heq]]. apply in_map_iff in Hin. destruct Hin as [t [<- Ht]].
    simpl in Heq. apply String.eqb_eq in Heq. subst. exact Ht.
  - intros Hin. exists (VStr s). split; [apply in_map; exact Hin|].
    simpl. apply String.eqb_refl.
Qed.

Lemma py_split_length_has_char (a : ascii) (s : string) :
  has_char a s = Nat.leb 2 (length (py_split a s)).
Proof.
  induction s as [|c s IH]; [reflexivity|]. simpl.
  destruct (Ascii.eqb c a); simpl.
  - destruct (py_split a s) eqn:Hs; [|reflexivity].
    destruct s; simpl in Hs; [discriminate|].
    destruct (Ascii.eqb a0 a); [discriminate|]. destruct (py_split a s); discriminate.
  - rewrite IH. destruct (py_split a s) as [|p [|q ps]]; reflexivity.
Qed.

(** A command has a field 1 exactly when it holds an ["="]. *)
Lemma cipher_field_has_char (command : string) :
  cipher_field command = None <-> has_char "="%char command = false.
Proof.
  unfold cipher_field. rewrite py_split_length_has_char.
  destruct (py_split "="%char command) as [|p [|q ps]]; simpl; split;
    congruence.
Qed.

Lemma scan_commands_step (command : string) (rest : list value) :
  scan_commands (VStr command :: rest)
  = if flagged command then
      match cipher_field command with
      | None => Raises IndexError
      | Some value =>
          if forallb is_strong (py_split ","%char value)
          then scan_commands rest
          else Returns FAILED
      end
    else scan_commands rest.
Proof. reflexivity. Qed.

Lemma scan_commands_harmless (pre : list string) (rest : list value) :
  Forall harmless pre ->
  scan_commands (map VStr pre ++ rest) = scan_commands rest.
Proof.
  induction 1 as [|c pre Hc Hpre IH]; [reflexivity|].
  simpl app. rewrite scan_commands_step. unfold harmless in Hc.
  destruct (flagged c) eqn:Hf; [|exact IH].
  destruct (Hc eq_refl) as [Hfield Hstrong]. unfold listed_ciphers in Hstrong.
  destruct (cipher_field c) as [value|]; [|congruence].
  replace (forallb is_strong (py_split ","%char value)) with true; [exact IH|].
  symmetry. apply forallb_forall. exact Hstrong.
Qed.

Lemma py_eq_string (s : string) (y : value) : py_eq (VStr s) y = true <-> y = VStr s.
Proof.
  destruct y; simpl; split; try congruence.
  - intros H. apply String.eqb_eq in H. congruence.
  - intros [= ->]. apply String.eqb_refl.
Qed.

Lemma py_in_string (s : string) (l : list value) :
  py_in (VStr s) l = true <-> In (VStr s) l.
Proof.
  rewrite py_in_spec. split.
  - intros [y [Hin Heq]]. apply py_eq_string in Heq. subst. exact Hin.
  - intros Hin. exists (VStr s). split; [exact Hin | apply py_eq_string; reflexivity].
Qed.

(** The check looks at a container only when one of its commands is the
    string ["kube-apiserver"] itself: with no [command] entry, or with a
    command list that has no such element, the verdict is [PASSED], whatever
    the list holds (flags with weak ciphers, items that are not strings). *)
Theorem scan_passes_other_containers (conf : dict) :
  (dict_get (KStr "command") conf = None -> scan_spec_conf conf = Returns PASSED)
  /\ (forall l, dict_get (KStr "command") conf = Some (VList l) ->
        ~ In (VStr "kube-apiserver") l -> scan_spec_conf conf = Returns PASSED).
Proof.
  unfold scan_spec_conf. split.
  - intros ->. reflexivity.
  - intros l -> Hnot.
    destruct (py_in (VStr "kube-apiserver") l) eqn:Hin; [|reflexivity].
    apply py_in_string in Hin. contradiction.
Qed.

Lemma scan_passes_other_containers_witness :
  scan_spec_conf
    [(KStr "name", VStr "proxy");
     (KStr "command", VList [VStr "/usr/local/bin/kube-apiserver";
                             VStr "--tls-cipher-suites=RC4"; VInt 7])]
  = Returns PASSED.
Proof.
  apply (proj2 (scan_passes_other_containers _)
           [VStr "/usr/local/bin/kube-apiserver"; VStr "--tls-cipher-suites=RC4"; VInt 7]);
    [reflexivity|].
  simpl. intros [H|[H|[H|[]]]]; discriminate.
Defined.

Lemma scan_commands_strings (cmds : list string) :
  (forall c, In c cmds -> flagged c = true -> cipher_field c <> None) ->
  scan_commands (map VStr cmds)
  = if forallb passes cmds then Returns PASSED else Returns FAILED.
Proof.
  induction cmds as [|c cmds IH]; intros Hfield; [reflexivity|].
  simpl map. rewrite scan_commands_step. simpl forallb. unfold passes at 1.
  assert (IH' := IH (fun c' Hc' => Hfield c' (or_intror Hc'))).
  destruct (flagged c) eqn:Hf; simpl; [|exact IH'].
  pose proof (Hfield c (or_introl eq_refl) Hf) as Hc. unfold listed_ciphers.
  destruct (cipher_field c) as [value|]; [|congruence].
  destruct (forallb is_strong (py_split ","%char value)); [exact IH' | reflexivity].
Qed.

(** On a command list of strings that names ["kube-apiserver"] and in which
    every command with the flag holds an ["="], the verdict is [FAILED]
    exactly when some command with the flag lists a cipher that is not one of
    [strongCiphers], and [PASSED] exactly when every cipher such commands list
    is one of them. *)
Theorem scan_fails_exactly_on_a_weak_cipher (conf : dict) (cmds : list string)
  (Hcommand : dict_get (KStr "command") conf = Some (VList (map VStr cmds)))
  (Hserver : In "kube-apiserver" cmds)
  (Hfields : forall c, In c cmds -> flagged c = true -> has_char "="%char c = true) :
  (scan_spec_conf conf = Returns FAILED
   <-> exists c cipher, In c cmds /\ flagged c = true
                        /\ In cipher (listed_ciphers c) /\ is_strong cipher = false)
  /\ (scan_spec_conf conf = Returns PASSED
      <-> forall c cipher, In c cmds -> flagged c = true ->
                           In cipher (listed_ciphers c) -> is_strong cipher = true).
Proof.
  assert (Hscan : scan_spec_conf conf
                  = if forallb passes cmds then Returns PASSED else Returns FAILED).
  { unfold scan_spec_conf. rewrite Hcommand.
    replace (py_in (VStr "kube-apiserver") (map VStr cmds)) with true
      by (symmetry; apply py_in_strings; exact Hserver).
    apply scan_commands_strings. intros c Hc Hf Hnone.
    apply cipher_field_has_char in Hnone. rewrite (Hfields c Hc Hf) in Hnone.
    discriminate. }
  assert (Hall : forallb passes cmds = true
                 <-> forall c cipher, In c cmds -> flagged c = true ->
                       In cipher (listed_ciphers c) -> is_strong cipher = true).
  { rewrite forallb_forall. unfold passes. split.
    - intros H c cipher Hc Hf Hcipher. specialize (H c Hc). rewrite Hf in H. simpl in H.
      rewrite forallb_forall in H. apply H. exact Hcipher.
    - intros H c Hc. destruct (flagged c) eqn:Hf; [|reflexivity]. simpl.
      apply forallb_forall. intros cipher Hcipher. apply (H c cipher Hc Hf Hcipher). }
  rewrite Hscan. split.
  - split.
    + intros Hfailed. destruct (forallb passes cmds) eqn:Hp; [discriminate|].
      assert (Hex : exists c, In c cmds /\ passes c = false).
      { clear -Hp. induction cmds as [|c cmds IH]; [discriminate|]. simpl in Hp.
        destruct (passes c) eqn:Hc.
        - destruct (IH Hp) as [c' [Hin Hc']]. exists c'. split; [right|]; assumption.
        - exists c. split; [left; reflexivity | exact Hc]. }
      destruct Hex as [c [Hc Hpc]]. unfold passes in Hpc.
      apply orb_false_iff in Hpc. destruct Hpc as [Hf Hweak].
      apply negb_false_iff in Hf.
      assert (Hex : exists cipher, In cipher (listed_ciphers c) /\ is_strong cipher = false).
      { clear -Hweak. induction (listed_ciphers c) as [|x l IH]; [discriminate|].
        simpl in Hweak. destruct (is_strong x) eqn:Hx.
        - destruct (IH Hweak) as [y [Hy Hs]]. exists y. split; [right|]; assumption.
        - exists x. split; [left; reflexivity | exact Hx]. }
      destruct Hex as [cipher [Hcipher Hs]]. exists c, cipher. auto.
    + intros [c [cipher [Hc [Hf [Hcipher Hs]]]]].
      destruct (forallb passes cmds) eqn:Hp; [|reflexivity].
      rewrite (proj1 Hall eq_refl c cipher Hc Hf Hcipher) in Hs. discriminate.
  - split.
    + intros Hpassed. apply Hall. destruct (forallb passes cmds); [reflexivity | discriminate].
    + intros H. apply Hall in H. rewrite H. reflexivity.
Qed.

Lemma scan_fails_exactly_on_a_weak_cipher_witness :
  scan_spec_conf
    [(KStr "command",
      VList (map VStr ["kube-apiserver"; "--secure-port=6443";
                       "--tls-cipher-suites=TLS_RSA_WITH_AES_128_GCM_SHA256,TLS_RSA_WITH_RC4_128_SHA"]))]
  = Returns FAILED.
Proof.
  assert (Hfields : forall c,
            In c ["kube-apiserver"; "--secure-port=6443";
                  "--tls-cipher-suites=TLS_RSA_WITH_AES_128_GCM_SHA256,TLS_RSA_WITH_RC4_128_SHA"] ->
            flagged c = true -> has_char "="%char c = true).
  { intros c [<-|[<-|[<-|[]]]]; intros Hf; try discriminate; reflexivity. }
  apply (proj1 (scan_fails_exactly_on_a_weak_cipher
                  [(KStr "command",
                    VList (map VStr ["kube-apiserver"; "--secure-port=6443";
                                     "--tls-cipher-suites=TLS_RSA_WITH_AES_128_GCM_SHA256,TLS_RSA_WITH_RC4_128_SHA"]))]
                  ["kube-apiserver"; "--secure-port=6443";
                   "--tls-cipher-suites=TLS_RSA_WITH_AES_128_GCM_SHA256,TLS_RSA_WITH_RC4_128_SHA"]
                  eq_refl (or_introl eq_refl) Hfields)).
  exists "--tls-cipher-suites=TLS_RSA_WITH_AES_128_GCM_SHA256,TLS_RSA_WITH_RC4_128_SHA",
    "TLS_RSA_WITH_RC4_128_SHA".
  repeat split; simpl; auto.
Defined.

(** The first command that carries the flag and is not passed over decides:
    after commands the loop passes over, a command with the flag and no
    ["="] raises [IndexError], and one that lists a cipher outside
    [strongCiphers] gives [FAILED]; what follows it in the list is not read. *)
Theorem scan_stops_at_the_first_decisive_command (conf : dict) (pre : list string)
  (c : string) (post : list value)
  (Hcommand : dict_get (KStr "command") conf
              = Some (VList (map VStr pre ++ VStr c :: post)))
  (Hserver : In (VStr "kube-apiserver") (map VStr pre ++ VStr c :: post))
  (Hpre : Forall harmless pre)
  (Hflag : flagged c = true) :
  (has_char "="%char c = false -> scan_spec_conf conf = Raises IndexError)
  /\ ((exists cipher, In cipher (listed_ciphers c) /\ is_strong cipher = false) ->
      scan_spec_conf conf = Returns FAILED).
Proof.
  assert (Hscan : scan_spec_conf conf = scan_commands (VStr c :: post)).
  { unfold scan_spec_conf. rewrite Hcommand.
    replace (py_in (VStr "kube-apiserver") (map VStr pre ++ VStr c :: post)) with true
      by (symmetry; apply py_in_string; exact Hserver).
    apply scan_commands_harmless. exact Hpre. }
  rewrite Hscan, scan_commands_step, Hflag. split.
  - intros Hchar. apply cipher_field_has_char in Hchar. rewrite Hchar. reflexivity.
  - intros [cipher [Hcipher Hweak]]. unfold listed_ciphers in Hcipher.
    destruct (cipher_field c) as [value|]; [|contradiction].
    destruct (forallb is_strong (py_split ","%char value)) eqn:Hall; [|reflexivity].
    rewrite forallb_forall in Hall. rewrite (Hall cipher Hcipher) in Hweak. discriminate.
Qed.

Lemma scan_stops_at_the_first_decisive_command_witness :
  scan_spec_conf
    [(KStr "command",
      VList [VStr "kube-apiserver"; VStr "--tls-cipher-suites"; VStr "--tls-cipher-suites=RC4"])]
  = Raises IndexError
  /\ scan_spec_conf
       [(KStr "command",
         VList [VStr "kube-apiserver"; VStr "--tls-cipher-suites=RC4"; VNone])]
     = Returns FAILED.
Proof.
  assert (Hpre : Forall harmless ["kube-apiserver"]).
  { constructor; [|constructor]. intros H. discriminate. }
  split.
  - apply (proj1 (scan_stops_at_the_first_decisive_command
                    [(KStr "command",
                      VList [VStr "kube-apiserver"; VStr "--tls-cipher-suites";
                             VStr "--tls-cipher-suites=RC4"])]
                    ["kube-apiserver"] "--tls-cipher-suites" [VStr "--tls-cipher-suites=RC4"]
                    eq_refl (or_introl eq_refl) Hpre eq_refl)).
    reflexivity.
  - apply (proj2 (scan_stops_at_the_first_decisive_command
                    [(KStr "command",
                      VList [VStr "kube-apiserver"; VStr "--tls-cipher-suites=RC4"; VNone])]
                    ["kube-apiserver"] "--tls-cipher-suites=RC4" [VNone]
                    eq_refl (or_introl eq_refl) Hpre eq_refl)).
    exists "RC4". split; [left; reflexivity | reflexivity].
Defined.

(** ** Module connections *)

Lemma connections_after_add (b : Block) (k : string) (vertex_id : value) :
  connections_of (add_module_connection b k vertex_id) k
  = connections_of b k ++ [vertex_id].
Proof.
  unfold connections_of, add_module_connection. simpl.
  rewrite ledger_get_set_same.
  destruct (ledger_get k (module_connections b)) as [[|x l]|] eqn:Hget.
  - rewrite ledger_get_set_same. reflexivity.
  - rewrite Hget. reflexivity.
  - rewrite ledger_get_set_same. reflexivity.
Qed.

(** The connections recorded for a key are the vertex ids in the order of
    the calls: after [add_module_connection] for each of [ids] in turn, the
    list of the key is its former list (none, when the key was absent)
    followed by [ids]. *)
Theorem add_module_connection_appends_in_call_order (b : Block) (k : string)
  (ids : list value) :
  let b' := fold_left (fun blk vertex_id => add_module_connection blk k vertex_id) ids b in
  connections_of b' k = connections_of b k ++ ids.
Proof.
  cbv zeta. revert b. induction ids as [|vertex_id ids IH]; intros b; simpl.
  - rewrite app_nil_r. reflexivity.
  - rewrite (IH (add_module_connection b k vertex_id)).
    rewrite connections_after_add, <- app_assoc. reflexivity.
Qed.

(** ** Breadcrumbs *)

Lemma dict_get_of_entry (k : key) (x : value) (d : dict) :
  NoDup (dict_keys d) -> In (k, x) d -> dict_get k d = Some x.
Proof.
  induction d as [|[k' y] d IH]; simpl; intros Hnd Hin; [contradiction|].
  inversion Hnd as [|? ? Hnotin Hnd']; subst.
  destruct Hin as [[= -> ->]|Hin].
  - rewrite key_eqb_refl. reflexivity.
  - destruct (key_eqb k' k) eqn:Hk.
    + apply key_eqb_eq in Hk. subst k'. exfalso. apply Hnotin.
      apply (in_map fst) in Hin. exact Hin.
    + apply IH; assumption.
Qed.

(** [x == x] for a value of Python. *)
Lemma py_eq_refl (x : value) : well_formed x = true -> py_eq x x = true.
Proof.
  induction x as [| b | z | s | l IH | d IH] using value_ind; intros Hwf; simpl.
  - reflexivity.
  - apply Bool.eqb_reflx.
  - apply Z.eqb_refl.
  - apply String.eqb_refl.
  - simpl in Hwf. induction l as [|x l IHl]; [reflexivity|].
    simpl in Hwf. apply andb_true_iff in Hwf. destruct Hwf as [Hx Hl].
    inversion IH as [|? ? Px Pl]; subst.
    rewrite (Px Hx). simpl. apply IHl; assumption.
  - simpl in Hwf. apply andb_true_iff in Hwf. destruct Hwf as [Hkeys Hwf].
    rewrite Nat.eqb_refl. simpl.
    apply unique_keys_NoDup in Hkeys.
    assert (Hsub : forall d', incl d' d ->
              (fix entries (d0 : dict) : bool :=
                 match d0 with
                 | [] => true
                 | (k, x) :: d1 =>
                     match dict_get k d with
                     | Some y => py_eq x y
                     | None => false
                     end && entries d1
                 end) d' = true).
    { induction d' as [|[k x] d' IHd']; intros Hincl; [reflexivity|].
      rewrite (dict_get_of_entry k x d Hkeys) by (apply Hincl; left; reflexivity).
      rewrite Forall_forall in IH. rewrite forallb_forall in Hwf.
      assert (Hx : py_eq x x = true).
      { apply (IH (k, x)); [|apply (Hwf (k, x))]; apply Hincl; left; reflexivity. }
      rewrite Hx. simpl. apply IHd'. intros e He. apply Hincl. right. exact He. }
    apply Hsub. apply incl_refl.
Qed.

Lemma last_app_one (l : list value) (x d : value) : last (l ++ [x]) d = x.
Proof.
  induction l as [|y l IH]; [reflexivity|]. simpl.
  destruct (l ++ [x]) eqn:H; [destruct l; discriminate | exact IH].
Qed.

Lemma extend_breadcrumbs_twice (crumbs : list value) (origin : value) :
  well_formed origin = true ->
  extend_breadcrumbs (extend_breadcrumbs crumbs origin) origin
  = extend_breadcrumbs crumbs origin.
Proof.
  intros Hwf.
  assert (Happ : extend_breadcrumbs (crumbs ++ [origin]) origin = crumbs ++ [origin]).
  { unfold extend_breadcrumbs. destruct (crumbs ++ [origin]) eqn:H.
    - destruct crumbs; discriminate.
    - rewrite <- H, last_app_one, (py_eq_refl origin Hwf). reflexivity. }
  assert (Hcases : extend_breadcrumbs crumbs origin = crumbs ++ [origin]
                   \/ extend_breadcrumbs crumbs origin = crumbs).
  { unfold extend_breadcrumbs. destruct crumbs as [|c crumbs]; [left; reflexivity|].
    destruct (negb (py_eq (last (c :: crumbs) VNone) origin)); [left | right]; reflexivity. }
  destruct Hcases as [H|H].
  - rewrite H. exact Happ.
  - rewrite H. exact H.
Qed.

Lemma update_attribute_chain (h : heap) (c : chains) (b : Block) (k : string)
  (v origin : value) (crumbs : chain) :
  crumbs < length c ->
  chain_of (chains_after (update_attribute h c b k v origin crumbs)) crumbs
  = extend_breadcrumbs (chain_of c crumbs) origin.
Proof.
  intros Hcrumbs. rewrite update_attribute_chains. apply chain_of_store_same. exact Hcrumbs.
Qed.

Lemma length_store_chain (c : chains) (r : chain) (l : list value) :
  length (store_chain c r l) = length c.
Proof.
  revert r. induction c as [|x c IH]; intros [|r]; simpl; try reflexivity.
  rewrite IH. reflexivity.
Qed.

(** The breadcrumb list never comes to end in the same origin twice.  After
    a call of [update_attribute], whether it returns or raises, the caller's
    list is: the origin alone when the list was empty; the list as it was when
    its last element equals the origin; the list with the origin appended
    otherwise.  No other list changes, and a second call with the same origin
    and the same list leaves the list as the first call left it. *)
Theorem update_does_not_repeat_the_origin (h : heap) (c : chains) (b : Block)
  (k1 k2 : string) (v1 v2 origin : value) (crumbs : chain)
  (Hcrumbs : crumbs < length c) :
  let r1 := update_attribute h c b k1 v1 origin crumbs in
  let r2 := update_attribute (heap_after r1) (chains_after r1) (block_after r1) k2 v2
              origin crumbs in
  let before := chain_of c crumbs in
  let after := chain_of (chains_after r1) crumbs in
  (before = [] -> after = [origin])
  /\ (before <> [] -> py_eq (last before VNone) origin = true -> after = before)
  /\ (before <> [] -> py_eq (last before VNone) origin = false ->
      after = before ++ [origin])
  /\ (forall other, other <> crumbs -> chain_of (chains_after r1) other = chain_of c other)
  /\ (well_formed origin = true -> chain_of (chains_after r2) crumbs = after).
Proof.
  cbv zeta. rewrite (update_attribute_chain h c b k1 v1 origin crumbs Hcrumbs).
  split; [|split; [|split; [|split]]].
  - intros Hempty. rewrite Hempty. reflexivity.
  - intros Hne Heq. unfold extend_breadcrumbs.
    destruct (chain_of c crumbs); [congruence|]. rewrite Heq. reflexivity.
  - intros Hne Heq. unfold extend_breadcrumbs.
    destruct (chain_of c crumbs); [congruence|]. rewrite Heq. reflexivity.
  - intros other Hne. rewrite update_attribute_chains.
    apply chain_of_store_other. exact Hne.
  - intros Hwf. rewrite update_attribute_chain.
    + rewrite (update_attribute_chain h c b k1 v1 origin crumbs Hcrumbs).
      apply extend_breadcrumbs_twice. exact Hwf.
    + rewrite update_attribute_chains, length_store_chain. exact Hcrumbs.
Qed.

Lemma update_does_not_repeat_the_origin_witness :
  let h := [[(KStr "cidr", VStr "var.cidr"); (KStr "tags", VDict [])]] in
  let r1 := update_attribute h [[VInt 3]] (new_block "r" RESOURCE 0 0) "cidr"
              (VStr "10.0.0.0/16") (VInt 7) 0 in
  let r2 := update_attribute (heap_after r1) (chains_after r1) (block_after r1) "tags.env"
              (VStr "prod") (VInt 7) 0 in
  chain_of (chains_after r1) 0 = [VInt 3; VInt 7]
  /\ chain_of (chains_after r2) 0 = [VInt 3; VInt 7].
Proof.
  pose proof (update_does_not_repeat_the_origin
                [[(KStr "cidr", VStr "var.cidr"); (KStr "tags", VDict [])]] [[VInt 3]]
                (new_block "r" RESOURCE 0 0) "cidr" "tags.env" (VStr "10.0.0.0/16")
                (VStr "prod") (VInt 7) 0 ltac:(simpl; lia)) as H.
  cbv zeta in H. destruct H as [_ [_ [H3 [_ H5]]]]. cbv zeta. split.
  - exact (H3 ltac:(discriminate) eq_refl).
  - rewrite (H5 eq_refl). exact (H3 ltac:(discriminate) eq_refl).
Defined.

(** ** [update_attribute] on a key without a dot *)

Lemma update_attribute_plain (h : heap) (c : chains) (b : Block) (k : string)
  (v origin : value) (crumbs : chain) (key' : key) :
  has_dot k = false -> curr_key_of [k] = Some key' ->
  update_attribute h c b k v origin crumbs
  = {| heap_after :=
         store h (attributes b) (dict_set key' v (first_if k v (deref h (attributes b))));
       chains_after :=
         store_chain c crumbs (extend_breadcrumbs (chain_of c crumbs) origin);
       block_after :=
         with_changed_attributes b (ledger_set k crumbs (changed_attributes b));
       raised := None |}.
Proof.
  intros Hdot Hk.
  assert (Hsplit : py_split "."%char k = [k]).
  { apply py_split_dot_free_part. exact Hdot. }
  pose proof (update_inner_attribute_last k (VDict (deref h (attributes b))) v key'
                (components_one k Hdot) Hk) as Hrew.
  change (path_of [k]) with k in Hrew.
  unfold update_attribute. rewrite Hrew, Hsplit. reflexivity.
Qed.

Lemma curr_key_of_plain_key (k : string) :
  curr_key_of [k] = if isnumeric k then option_map KInt (int k) else Some (KStr k).
Proof. reflexivity. Qed.

(** For a key without a dot, [update_attribute] assigns the value under the
    key read as [update_inner_attribute] reads a component.  A numeric key
    that [int] rejects makes the call raise [ValueError]: the attributes and
    the ledger are as they were.  A numeric key that [int] reads, such as
    ["0"], is the integer key, so the string key then holds the value only if
    it held a truthy value before.  Any other key is the string key.  When
    the call returns, the ledger records the key with the caller's breadcrumb
    list, and no other entry of the mapping changes. *)
Theorem update_of_a_plain_key (h : heap) (c : chains) (b : Block) (k : string)
  (v origin : value) (crumbs : chain)
  (Href : attributes b < length h) (Hdot : has_dot k = false) :
  let r := update_attribute h c b k v origin crumbs in
  let attrs := deref h (attributes b) in
  let attrs' := deref (heap_after r) (attributes (block_after r)) in
  let changed' := changed_attributes (block_after r) in
  (isnumeric k = true -> int k = None ->
   raised r = Some ValueError /\ attrs' = attrs /\ changed' = changed_attributes b)
  /\ (forall n, isnumeric k = true -> int k = Some n ->
        raised r = None
        /\ dict_get (KInt n) attrs' = Some v
        /\ dict_get (KStr k) attrs'
           = (if truthy (py_get (KStr k) attrs) then Some v else dict_get (KStr k) attrs)
        /\ (forall k', k' <> KStr k -> k' <> KInt n ->
              dict_get k' attrs' = dict_get k' attrs)
        /\ ledger_get k changed' = Some crumbs)
  /\ (isnumeric k = false ->
      raised r = None
      /\ dict_get (KStr k) attrs' = Some v
      /\ (forall k', k' <> KStr k -> dict_get k' attrs' = dict_get k' attrs)
      /\ ledger_get k changed' = Some crumbs).
Proof.
  cbv zeta. pose proof (curr_key_of_plain_key k) as Hcurr.
  assert (Hsplit : py_split dot k = [k]) by (apply py_split_dot_free_part; exact Hdot).
  split; [|split].
  - intros Hnum Hint. rewrite Hnum, Hint in Hcurr. simpl in Hcurr.
    destruct (update_attribute_rejected h c b k v origin crumbs) as [H1 [H2 H3]];
      [rewrite Hsplit; exact Hcurr|].
    rewrite H1, H2, H3. auto.
  - intros n Hnum Hint. rewrite Hnum, Hint in Hcurr. simpl in Hcurr.
    rewrite (update_attribute_plain h c b k v origin crumbs (KInt n) Hdot Hcurr). simpl.
    rewrite deref_store_same by exact Href. unfold first_if.
    split; [reflexivity|]. split; [apply dict_get_set_same|]. split; [|split].
    + rewrite dict_get_set_other by discriminate.
      destruct (truthy (py_get (KStr k) (deref h (attributes b)))).
      * apply dict_get_set_same.
      * reflexivity.
    + intros k' Hk1 Hk2. rewrite dict_get_set_other by exact Hk2.
      destruct (truthy (py_get (KStr k) (deref h (attributes b)))); [|reflexivity].
      apply dict_get_set_other. exact Hk1.
    + apply ledger_get_set_same.
  - intros Hnum. rewrite Hnum in Hcurr.
    rewrite (update_attribute_plain h c b k v origin crumbs (KStr k) Hdot Hcurr). simpl.
    rewrite deref_store_same by exact Href. unfold first_if.
    split; [reflexivity|]. split; [apply dict_get_set_same|]. split.
    + intros k' Hk1. rewrite dict_get_set_other by exact Hk1.
      destruct (truthy (py_get (KStr k) (deref h (attributes b)))); [|reflexivity].
      apply dict_get_set_other. exact Hk1.
    + apply ledger_get_set_same.
Qed.

Lemma update_of_a_plain_key_witness :
  let h := [[(KStr "count", VInt 1)]] in
  let b := new_block "r" RESOURCE 0 0 in
  let r := update_attribute h [[]] b "0" (VStr "x") (VInt 7) 0 in
  let r' := update_attribute h [[]] b superscript_two (VStr "x") (VInt 7) 0 in
  deref (heap_after r) 0 = [(KStr "count", VInt 1); (KInt 0, VStr "x")]
  /\ dict_get (KStr "0") (deref (heap_after r) 0) = None
  /\ dict_get (KStr "count") (deref (heap_after r) 0) = Some (VInt 1)
  /\ raised r' = Some ValueError
  /\ deref (heap_after r') 0 = [(KStr "count", VInt 1)].
Proof.
  pose proof (update_of_a_plain_key [[(KStr "count", VInt 1)]] [[]]
                (new_block "r" RESOURCE 0 0) "0" (VStr "x") (VInt 7) 0
                ltac:(simpl; lia) eq_refl) as H.
  pose proof (update_of_a_plain_key [[(KStr "count", VInt 1)]] [[]]
                (new_block "r" RESOURCE 0 0) superscript_two (VStr "x") (VInt 7) 0
                ltac:(simpl; lia) eq_refl) as H'.
  cbv zeta in H, H'. destruct H as [_ [H _]]. destruct H' as [H' _].
  destruct (H 0 eq_refl eq_refl) as [_ [_ [H2 [H3 _]]]].
  destruct (H' eq_refl eq_refl) as [H4 [H5 _]].
  cbv zeta. split; [reflexivity|]. split; [exact H2|]. split; [|split].
  - refine (eq_trans (H3 (KStr "count") _ _) eq_refl); discriminate.
  - exact H4.
  - exact H5.
Defined.

(** After [update_attribute] with a truthy value, [find_attribute] finds the
    key as first candidate, for every key that has a dot or is not numeric
    (a numeric key without a dot is stored under the integer key, which the
    lookup does not read) and whose first component [int] does not reject.
    When [int] rejects the first component, the call raises [ValueError] and
    every lookup answers as before the call. *)
Theorem update_then_find_attribute (h : heap) (c : chains) (b : Block) (k : string)
  (v origin : value) (crumbs : chain) (others : list string)
  (Href : attributes b < length h) (Htruthy : truthy v = true)
  (Hkey : has_dot k = true \/ isnumeric k = false) :
  let r := update_attribute h c b k v origin crumbs in
  (curr_key_of (py_split dot k) = None ->
   raised r = Some ValueError
   /\ forall candidates,
        find_attribute (heap_after r) (block_after r) candidates
        = find_attribute h b candidates)
  /\ (curr_key_of (py_split dot k) <> None ->
      raised r = None
      /\ find_attribute (heap_after r) (block_after r) (k :: others) = Some k).
Proof.
  cbv zeta. split.
  - intros Hfirst.
    destruct (update_attribute_rejected h c b k v origin crumbs Hfirst) as [H1 [H2 H3]].
    rewrite H1, H2, H3. auto.
  - intros Hfirst.
    assert (Hget : raised (update_attribute h c b k v origin crumbs) = None
                   /\ attributes (block_after (update_attribute h c b k v origin crumbs))
                      = attributes b
                   /\ dict_get (KStr k)
                        (deref (heap_after (update_attribute h c b k v origin crumbs))
                           (attributes b)) = Some v).
    { destruct (has_dot k) eqn:Hdot.
      - destruct (update_attribute_dotted h c b k v origin crumbs Href Hdot Hfirst)
          as [Hreturns [Hsame [Hwritten _]]].
        split; [exact Hreturns|]. split; [exact Hsame|].
        pose proof (Hwritten (length (py_split dot k))
                      (conj (length_split_dotted k Hdot) (le_n _))) as H.
        rewrite prefix_all, skipn_all in H. exact H.
      - destruct Hkey as [Hk|Hnum]; [discriminate|].
        assert (Hcurr : curr_key_of [k] = Some (KStr k))
          by (rewrite curr_key_of_plain_key, Hnum; reflexivity).
        rewrite (update_attribute_plain h c b k v origin crumbs (KStr k) Hdot Hcurr).
        simpl. split; [reflexivity|]. split; [reflexivity|].
        rewrite deref_store_same by exact Href. apply dict_get_set_same. }
    destruct Hget as [Hreturns [Hsame Hget]]. split; [exact Hreturns|].
    unfold find_attribute. rewrite Hsame. unfold py_get. rewrite Hget, Htruthy.
    reflexivity.
Qed.

Lemma update_then_find_attribute_witness :
  let h := [[(KStr "tags", VDict [(KStr "env", VStr "dev")])]] in
  let r := update_attribute h [[]] (new_block "r" RESOURCE 0 0) "tags.env" (VStr "prod")
             (VInt 7) 0 in
  raised r = None
  /\ find_attribute (heap_after r) (block_after r) ["tags.env"] = Some "tags.env".
Proof.
  exact (proj2 (update_then_find_attribute
                  [[(KStr "tags", VDict [(KStr "env", VStr "dev")])]] [[]]
                  (new_block "r" RESOURCE 0 0) "tags.env" (VStr "prod") (VInt 7) 0 []
                  ltac:(simpl; lia) eq_refl (or_introl eq_refl))
           ltac:(discriminate)).
Defined.

(** ** The keys of a flattened mapping *)

Lemma loop_step_keys (k j k' : key) (sub acc : dict) :
  In k' (dict_keys (loop_step k j sub acc)) ->
  k' = k \/ In k' (dict_keys acc) \/ In k' (dict_keys sub).
Proof.
  unfold loop_step. intros Hin.
  assert (Hupd : In k' (dict_keys (dict_update acc sub)) ->
                 k' = k \/ In k' (dict_keys acc) \/ In k' (dict_keys sub)).
  { intros H. right. apply dict_keys_update_In. exact H. }
  destruct (dict_get (KStr (inner_key_of k j)) (dict_update acc sub)); [|auto].
  destruct (dict_get k (dict_update acc sub)); [|auto].
  apply dict_keys_set_In in Hin. destruct Hin as [->|Hin]; auto.
Qed.

(** Every key of a flattened mapping is the root key or has a property that
    all the keys [f'{attribute_key}.{key}'] have. *)
Lemma flatten_from_keys (Q : key -> Prop) :
  (forall k j, Q (KStr (inner_key_of k j))) ->
  forall u k k', In k' (dict_keys (flatten_from k u)) -> k' = k \/ Q k'.
Proof.
  intros HQ.
  induction u as [| b | z | s | l IH | d IH] using value_flat_ind; intros k k';
    try (simpl; intros [<-|[]]; left; reflexivity).
  - simpl.
    assert (Hloop : forall i acc,
              (forall x, In x (dict_keys acc) -> x = k \/ Q x) ->
              In k' (dict_keys (loop_list get_inner_attributes k i l acc)) ->
              k' = k \/ Q k').
    { induction IH as [|x l Hx Hl IHl]; simpl; intros i acc Hacc Hin; [auto|].
      eapply IHl; [|exact Hin].
      intros y Hy. apply loop_step_keys in Hy. destruct Hy as [->|[Hy|Hy]]; auto.
      rewrite get_inner_attributes_unwrap in Hy.
      destruct (Hx _ _ Hy) as [->|HQy]; auto. }
    apply Hloop. intros x [<-|[]]. left. reflexivity.
  - simpl.
    assert (Hloop : forall acc,
              (forall x, In x (dict_keys acc) -> x = k \/ Q x) ->
              In k' (dict_keys (loop_dict get_inner_attributes k d acc)) ->
              k' = k \/ Q k').
    { induction IH as [|[j x] d Hx Hd IHd]; simpl; intros acc Hacc Hin; [auto|].
      eapply IHd; [|exact Hin].
      intros y Hy. apply loop_step_keys in Hy. destruct Hy as [->|[Hy|Hy]]; auto.
      rewrite get_inner_attributes_unwrap in Hy.
      destruct (Hx _ _ Hy) as [->|HQy]; auto. }
    apply Hloop. intros x [<-|[]]. left. reflexivity.
Qed.

Lemma inner_key_dotted (k j : key) : dotted_key (KStr (inner_key_of k j)).
Proof.
  unfold dotted_key, inner_key_of. rewrite !has_dot_app. simpl.
  apply orb_true_r.
Qed.

(** The keys of [get_inner_attributes]: the root key, and keys with a dot. *)
Lemma get_inner_attributes_keys (k k' : key) (v : value) :
  In k' (dict_keys (get_inner_attributes k v)) -> k' = k \/ dotted_key k'.
Proof.
  rewrite get_inner_attributes_unwrap. apply flatten_from_keys. apply inner_key_dotted.
Qed.

Lemma plain_not_dotted (k : key) : key_without_dot k -> ~ dotted_key k.
Proof. destruct k; simpl; [congruence | auto]. Qed.

Lemma get_inner_attributes_misses (k k' : key) (v : value) :
  key_without_dot k' -> k' <> k -> ~ In k' (dict_keys (get_inner_attributes k v)).
Proof.
  intros Hplain Hne Hin. apply get_inner_attributes_keys in Hin.
  destruct Hin as [H|H]; [contradiction | exact (plain_not_dotted k' Hplain H)].
Qed.

Lemma get_inner_attributes_has_root (k : key) (v : value) :
  exists x, dict_get k (get_inner_attributes k v) = Some x.
Proof.
  apply dict_get_of_key. rewrite get_inner_attributes_unwrap. apply flatten_from_has_root.
Qed.

Lemma dict_get_update (k : key) (d other : dict) :
  unique other ->
  dict_get k (dict_update d other)
  = match dict_get k other with
    | Some x => Some x
    | None => dict_get k d
    end.
Proof.
  intros Hu. destruct (dict_get k other) as [x|] eqn:Hget.
  - apply dict_get_update_in; assumption.
  - apply dict_get_update_other. intro Hin.
    destruct (dict_get_of_key k other Hin) as [x Hx]. congruence.
Qed.

Lemma dict_get_not_key (k : key) (d : dict) :
  dict_get k d = None -> ~ In k (dict_keys d).
Proof.
  intros Hget Hin. destruct (dict_get_of_key k d Hin) as [x Hx]. congruence.
Qed.

(** ** What the constructor does to each attribute *)

Lemma extract_fold_get (k : key) (attrs acc : dict) :
  key_without_dot k -> unique attrs ->
  dict_get k
    (fold_left
       (fun attributes_to_add kv =>
          if is_list_of_dict (snd kv)
          then dict_update attributes_to_add (get_inner_attributes (fst kv) (snd kv))
          else attributes_to_add)
       attrs acc)
  = match dict_get k attrs with
    | Some v =>
        if is_list_of_dict v then dict_get k (get_inner_attributes k v)
        else dict_get k acc
    | None => dict_get k acc
    end.
Proof.
  intros Hplain. revert acc.
  induction attrs as [|[k2 v2] attrs IH]; intros acc Hu; [reflexivity|].
  inversion Hu as [|? ? Hnotin Hu']; subst. simpl fold_left. simpl dict_get.
  rewrite (IH _ Hu'). simpl fst. simpl snd.
  destruct (key_eqb k2 k) eqn:Hk.
  - apply key_eqb_eq in Hk. subst k2.
    rewrite (dict_get_None_keys k attrs Hnotin).
    destruct (is_list_of_dict v2); [|reflexivity].
    destruct (get_inner_attributes_has_root k v2) as [x Hx].
    rewrite Hx. apply dict_get_update_in; [|exact Hx].
    apply get_inner_attributes_ok.
  - apply key_eqb_neq in Hk.
    assert (Hacc : dict_get k
                     (if is_list_of_dict v2
                      then dict_update acc (get_inner_attributes k2 v2) else acc)
                   = dict_get k acc).
    { destruct (is_list_of_dict v2); [|reflexivity].
      apply dict_get_update_other. apply get_inner_attributes_misses; [exact Hplain|].
      congruence. }
    rewrite Hacc. reflexivity.
Qed.

Lemma extract_unique (attrs : dict) : unique (_extract_inner_attributes attrs).
Proof.
  unfold _extract_inner_attributes.
  assert (H : forall acc, unique acc ->
            unique (fold_left
                      (fun attributes_to_add kv =>
                         if is_list_of_dict (snd kv)
                         then dict_update attributes_to_add
                                (get_inner_attributes (fst kv) (snd kv))
                         else attributes_to_add)
                      attrs acc)).
  { induction attrs as [|kv attrs IH]; simpl; intros acc Hacc; [exact Hacc|].
    apply IH. destruct (is_list_of_dict (snd kv)); [|exact Hacc].
    apply dict_update_unique. exact Hacc. }
  apply H. constructor.
Qed.

Lemma dict_del_unique (k : key) (d : dict) : unique d -> unique (dict_del k d).
Proof.
  unfold unique. induction d as [|[k' v] d IH]; simpl; intros Hu; [exact Hu|].
  inversion Hu as [|? ? Hnotin Hu']; subst.
  destruct (key_eqb k' k); [exact Hu'|]. simpl. constructor; [|apply IH; exact Hu'].
  intro Hin. apply Hnotin. clear -Hin.
  induction d as [|[k0 v0] d IH]; simpl in *; [contradiction|].
  destruct (key_eqb k0 k); simpl in *; auto. destruct Hin; auto.
Qed.

Lemma Block_init_attributes (E : Env) (h : heap) (nm : string) (cfg : loc)
  (pth : string) (kind : BlockType) (attrs : loc) (i src : string) (enc : bool) :
  attrs < length h ->
  deref (fst (Block_init E h nm cfg pth kind attrs i src enc)) attrs
  = init_attributes E (deref h attrs).
Proof.
  intros Hattrs. unfold Block_init, deepcopy, alloc. simpl.
  rewrite deref_store_same by (rewrite length_app; simpl; lia).
  rewrite deref_app_old by exact Hattrs. reflexivity.
Qed.

Lemma list_of_dict_truthy (v : value) : is_list_of_dict v = true -> truthy v = true.
Proof. destruct v as [| | | |[|x l]|]; simpl; try discriminate. reflexivity. Qed.

Lemma init_attributes_get (E : Env) (attrs : dict) (k : key) :
  unique attrs -> key_without_dot k -> k <> KStr (RESOLVED_MODULE_ENTRY_NAME E) ->
  dict_get k (init_attributes E attrs)
  = match dict_get k attrs with
    | Some v =>
        if is_list_of_dict v then dict_get k (get_inner_attributes k v) else Some v
    | None => None
    end.
Proof.
  intros Hu Hplain Hne. unfold init_attributes.
  set (attrs1 := if truthy (py_get (KStr (RESOLVED_MODULE_ENTRY_NAME E)) attrs)
                 then dict_del (KStr (RESOLVED_MODULE_ENTRY_NAME E)) attrs else attrs).
  assert (Hu1 : unique attrs1).
  { unfold attrs1. destruct (truthy _); [apply dict_del_unique|]; exact Hu. }
  assert (Hget1 : dict_get k attrs1 = dict_get k attrs).
  { unfold attrs1. destruct (truthy _); [|reflexivity].
    apply dict_get_del_other. exact Hne. }
  rewrite dict_get_update by apply extract_unique.
  unfold _extract_inner_attributes. rewrite (extract_fold_get k attrs1 [] Hplain Hu1).
  rewrite Hget1. destruct (dict_get k attrs) as [v|]; [|reflexivity].
  destruct (is_list_of_dict v); [|reflexivity].
  destruct (get_inner_attributes_has_root k v) as [x Hx]. rewrite Hx. reflexivity.
Qed.

(** The constructor leaves under every key without a dot what the caller
    put there, except that an attribute whose value is a list starting with a
    mapping is replaced by its value with the singleton lists unwrapped level by
    level (a single block [[{...}]] becomes the mapping itself). *)
Theorem constructor_normalises_block_lists (E : Env) (h : heap) (nm : string)
  (cfg : loc) (pth : string) (kind : BlockType) (attrs : loc) (i src : string)
  (enc : bool) (k : key) (v : value)
  (Hattrs : attrs < length h)
  (Hunique : unique (deref h attrs))
  (Hplain : key_without_dot k)
  (Hreserved : k <> KStr (RESOLVED_MODULE_ENTRY_NAME E))
  (Hget : dict_get k (deref h attrs) = Some v)
  (Hwf : well_formed v = true) :
  dict_get k (deref (fst (Block_init E h nm cfg pth kind attrs i src enc)) attrs)
  = Some (if is_list_of_dict v then unwrap_levels v else v).
Proof.
  rewrite Block_init_attributes by exact Hattrs.
  rewrite (init_attributes_get E _ k Hunique Hplain Hreserved), Hget.
  destruct (is_list_of_dict v); [|reflexivity].
  apply get_inner_attributes_root. exact Hwf.
Qed.

Lemma constructor_normalises_block_lists_witness :
  let h := [[]; [(KStr "cidr", VList [VStr "10.0.0.0/16"]);
                 (KStr "lifecycle", VList [VDict [(KStr "ignore", VList [VBool true])]])]] in
  let r := Block_init sample_env h "aws_vpc.v" 0 "" RESOURCE 1 "" "" false in
  dict_get (KStr "lifecycle") (deref (fst r) 1) = Some (VDict [(KStr "ignore", VBool true)])
  /\ dict_get (KStr "cidr") (deref (fst r) 1) = Some (VList [VStr "10.0.0.0/16"]).
Proof.
  cbv zeta. split.
  - refine (eq_trans (constructor_normalises_block_lists sample_env
             [[]; [(KStr "cidr", VList [VStr "10.0.0.0/16"]);
                   (KStr "lifecycle", VList [VDict [(KStr "ignore", VList [VBool true])]])]]
             "aws_vpc.v" 0 "" RESOURCE 1 "" "" false (KStr "lifecycle")
             (VList [VDict [(KStr "ignore", VList [VBool true])]])
             ltac:(simpl; lia) _ eq_refl _ eq_refl eq_refl) eq_refl).
    + unfold unique. simpl. repeat constructor; simpl; intuition discriminate.
    + discriminate.
  - refine (eq_trans (constructor_normalises_block_lists sample_env
             [[]; [(KStr "cidr", VList [VStr "10.0.0.0/16"]);
                   (KStr "lifecycle", VList [VDict [(KStr "ignore", VList [VBool true])]])]]
             "aws_vpc.v" 0 "" RESOURCE 1 "" "" false (KStr "cidr")
             (VList [VStr "10.0.0.0/16"])
             ltac:(simpl; lia) _ eq_refl _ eq_refl eq_refl) eq_refl).
    + unfold unique. simpl. repeat constructor; simpl; intuition discriminate.
    + discriminate.
Defined.

(** ** What the export holds under a top-level key *)

Lemma origin_step_get_other (k : key) (base : dict) (kv : key * value) :
  key_without_dot k -> fst kv <> k ->
  (fst kv = KStr "self" -> k <> KStr "self_") ->
  dict_get k (origin_step base kv) = dict_get k base.
Proof.
  intros Hplain Hne Hself. destruct kv as [k2 v2]. simpl in Hne, Hself.
  unfold origin_step. simpl fst. simpl snd.
  assert (Hflat : dict_get k
                    (dict_update base (get_inner_attributes k2 (unwrap_singleton v2)))
                  = dict_get k base).
  { apply dict_get_update_other. apply get_inner_attributes_misses; [exact Hplain|].
    congruence. }
  assert (Hbase : dict_get k
                    match unwrap_singleton v2 with
                    | VList _ | VDict _ =>
                        dict_update base
                          (get_inner_attributes k2 (unwrap_singleton v2))
                    | _ => base
                    end = dict_get k base).
  { destruct (unwrap_singleton v2); try reflexivity; exact Hflat. }
  destruct (key_eqb k2 (KStr "self")) eqn:Hk2.
  - apply key_eqb_eq in Hk2. rewrite dict_get_set_other by (apply Hself; exact Hk2).
    exact Hbase.
  - rewrite dict_get_set_other by congruence. exact Hbase.
Qed.

Lemma origin_step_get_same (k : key) (base : dict) (v : value) :
  k <> KStr "self" ->
  dict_get k (origin_step base (k, v)) = Some (unwrap_singleton v).
Proof.
  intros Hne. unfold origin_step. simpl fst. simpl snd.
  apply key_eqb_neq in Hne. rewrite Hne. apply dict_get_set_same.
Qed.

Lemma get_origin_attributes_get (k : key) (attrs base : dict) :
  unique attrs -> key_without_dot k -> k <> KStr "self" -> k <> KStr "self_" ->
  dict_get k (get_origin_attributes attrs base)
  = match dict_get k attrs with
    | Some v => Some (unwrap_singleton v)
    | None => dict_get k base
    end.
Proof.
  intros Hu Hplain Hself Hself_. unfold get_origin_attributes. revert base.
  induction attrs as [|[k2 v2] attrs IH]; intros base; [reflexivity|].
  inversion Hu as [|? ? Hnotin Hu']; subst. simpl.
  rewrite (IH Hu'). destruct (key_eqb k2 k) eqn:Hk.
  - apply key_eqb_eq in Hk. subst k2.
    rewrite (dict_get_None_keys k attrs Hnotin). apply origin_step_get_same. exact Hself.
  - apply key_eqb_neq in Hk. destruct (dict_get k attrs); [reflexivity|].
    apply origin_step_get_other; auto.
Qed.

Lemma get_attribute_dict_get (E : Env) (h : heap) (b : Block) (k : key) :
  k <> KStr "changed_attributes" -> k <> KStr (HASH E) ->
  dict_get k (get_attribute_dict E h b) = dict_get k (hashed_attributes E h b).
Proof.
  intros Hchanged Hhash. unfold get_attribute_dict.
  destruct (truthy _).
  - rewrite dict_get_del_other by exact Hchanged.
    apply dict_get_set_other. exact Hhash.
  - apply dict_get_set_other. exact Hhash.
Qed.

Lemma hashed_attributes_get (E : Env) (h : heap) (b : Block) (k : key) :
  k <> KStr "changed_attributes" -> k <> KStr (RENDERING_BREADCRUMBS E) ->
  dict_get k (hashed_attributes E h b)
  = let found :=
      dict_get k (get_origin_attributes (deref h (attributes b))
                    (get_base_attributes E h b)) in
    if encode b then option_map (encode_graph_property_value E) found else found.
Proof.
  intros Hchanged Hcrumbs. unfold hashed_attributes. cbv zeta.
  set (origin := get_origin_attributes _ _).
  set (with_changed := match changed_attributes b with [] => origin | _ => _ end).
  set (with_crumbs := match breadcrumbs b with [] => with_changed | _ => _ end).
  assert (H1 : dict_get k with_changed = dict_get k origin).
  { unfold with_changed. destruct (changed_attributes b); [reflexivity|].
    apply dict_get_set_other. exact Hchanged. }
  assert (H2 : dict_get k with_crumbs = dict_get k origin).
  { unfold with_crumbs. destruct (breadcrumbs b); [exact H1|].
    rewrite dict_get_set_other by exact Hcrumbs. exact H1. }
  destruct (encode b); [rewrite dict_get_map_values|]; rewrite H2; reflexivity.
Qed.

(** A top-level attribute whose key has no dot is exported under that key
    with one singleton list removed from its value, encoded when the block
    encodes; this holds also when the key is the name of a base field, whose
    value the attribute then replaces.  The keys the export treats on their
    own ([self], [self_], the changed keys, the breadcrumbs and the hash) are
    left out. *)
Theorem export_of_a_top_level_attribute (E : Env) (h : heap) (b : Block)
  (k : key) (v : value)
  (Hunique : unique (deref h (attributes b)))
  (Hplain : key_without_dot k)
  (Hself : k <> KStr "self" /\ k <> KStr "self_")
  (Hchanged : k <> KStr "changed_attributes")
  (Hcrumbs : k <> KStr (RENDERING_BREADCRUMBS E))
  (Hhash : k <> KStr (HASH E))
  (Hget : dict_get k (deref h (attributes b)) = Some v) :
  dict_get k (get_attribute_dict E h b)
  = Some (if encode b
          then encode_graph_property_value E (unwrap_singleton v)
          else unwrap_singleton v).
Proof.
  destruct Hself as [Hself Hself_].
  rewrite get_attribute_dict_get by assumption.
  rewrite hashed_attributes_get by assumption. cbv zeta.
  rewrite get_origin_attributes_get by assumption. rewrite Hget.
  destruct (encode b); reflexivity.
Qed.

Lemma export_of_a_top_level_attribute_witness :
  let h := [[(KStr "id_", VList [VStr "i-1"])]] in
  dict_get (KStr "id_") (get_attribute_dict sample_env h (new_block "r" RESOURCE 0 0))
  = Some (VStr "i-1").
Proof.
  cbv zeta.
  refine (eq_trans (export_of_a_top_level_attribute sample_env
            [[(KStr "id_", VList [VStr "i-1"])]] (new_block "r" RESOURCE 0 0)
            (KStr "id_") (VList [VStr "i-1"]) _ eq_refl _ _ _ _ eq_refl) eq_refl).
  - unfold unique. simpl. repeat constructor. simpl. intuition.
  - split; discriminate.
  - discriminate.
  - discriminate.
  - discriminate.
Defined.

Lemma origin_self_underscore (attrs base : dict) :
  unique attrs -> dict_get (KStr "self_") attrs = None ->
  dict_get (KStr "self_") (get_origin_attributes attrs base)
  = match dict_get (KStr "self") attrs with
    | Some v => Some (unwrap_singleton v)
    | None => dict_get (KStr "self_") base
    end.
Proof.
  unfold get_origin_attributes. revert base.
  induction attrs as [|[k2 v2] attrs IH]; intros base Hu Hnone; [reflexivity|].
  inversion Hu as [|? ? Hnotin Hu']; subst. simpl in Hnone |- *.
  destruct (key_eqb k2 (KStr "self_")) eqn:Hk2_; [discriminate|].
  rewrite (IH _ Hu' Hnone). destruct (key_eqb k2 (KStr "self")) eqn:Hk2.
  - apply key_eqb_eq in Hk2. subst k2.
    rewrite (dict_get_None_keys _ attrs Hnotin).
    unfold origin_step. simpl fst. simpl snd.
    change (key_eqb (KStr "self") (KStr "self")) with true. cbv iota.
    apply dict_get_set_same.
  - apply key_eqb_neq in Hk2. apply key_eqb_neq in Hk2_.
    destruct (dict_get (KStr "self") attrs); [reflexivity|].
    apply origin_step_get_other; [reflexivity | exact Hk2_ | intros H; contradiction].
Qed.

Lemma origin_self (attrs base : dict) :
  unique attrs ->
  dict_get (KStr "self") (get_origin_attributes attrs base)
  = match dict_get (KStr "self") attrs with
    | Some v =>
        match unwrap_singleton v with
        | VList _ | VDict _ =>
            dict_get (KStr "self") (get_inner_attributes (KStr "self") (unwrap_singleton v))
        | _ => dict_get (KStr "self") base
        end
    | None => dict_get (KStr "self") base
    end.
Proof.
  unfold get_origin_attributes. revert base.
  induction attrs as [|[k2 v2] attrs IH]; intros base Hu; [reflexivity|].
  inversion Hu as [|? ? Hnotin Hu']; subst. simpl.
  rewrite (IH _ Hu'). destruct (key_eqb k2 (KStr "self")) eqn:Hk2.
  - apply key_eqb_eq in Hk2. subst k2.
    rewrite (dict_get_None_keys _ attrs Hnotin).
    unfold origin_step. simpl fst. simpl snd.
    change (key_eqb (KStr "self") (KStr "self")) with true. cbv iota.
    rewrite dict_get_set_other by discriminate.
    destruct (get_inner_attributes_has_root (KStr "self") (unwrap_singleton v2))
      as [x Hx].
    assert (Hflat : dict_get (KStr "self")
                      (dict_update base
                         (get_inner_attributes (KStr "self") (unwrap_singleton v2)))
                    = dict_get (KStr "self")
                        (get_inner_attributes (KStr "self") (unwrap_singleton v2))).
    { rewrite Hx. apply dict_get_update_in; [apply get_inner_attributes_ok | exact Hx]. }
    destruct (unwrap_singleton v2); try reflexivity; exact Hflat.
  - apply key_eqb_neq in Hk2.
    rewrite (origin_step_get_other (KStr "self") base (k2, v2));
      [reflexivity | reflexivity | exact Hk2 | intros H; contradiction].
Qed.

(** An attribute named [self] is exported under [self_], with one singleton
    list removed from its value.  The export still has an entry [self] when
    that value is a list or a mapping: the flattening of the value writes its
    root entry under the attribute's own key before the renaming, and nothing
    removes it.  When the value is anything else no entry [self] comes from
    the attribute. *)
Theorem self_is_exported_as_self_underscore (attrs base : dict) (v : value)
  (Hunique : unique attrs)
  (Hget : dict_get (KStr "self") attrs = Some v)
  (Hnone : dict_get (KStr "self_") attrs = None)
  (Hwf : well_formed v = true) :
  dict_get (KStr "self_") (get_origin_attributes attrs base) = Some (unwrap_singleton v)
  /\ dict_get (KStr "self") (get_origin_attributes attrs base)
     = if is_container (unwrap_singleton v)
       then Some (unwrap_levels (unwrap_singleton v))
       else dict_get (KStr "self") base.
Proof.
  split.
  - rewrite (origin_self_underscore attrs base Hunique Hnone), Hget. reflexivity.
  - rewrite (origin_self attrs base Hunique), Hget.
    pose proof (get_inner_attributes_root (KStr "self") (unwrap_singleton v)
                  (well_formed_unwrap v Hwf)) as Hroot.
    destruct (unwrap_singleton v); try reflexivity; exact Hroot.
Qed.

Lemma self_is_exported_as_self_underscore_witness :
  let attrs := [(KStr "self", VList [VDict [(KStr "cidr", VList [VStr "0.0.0.0/0"])]])] in
  dict_get (KStr "self_") (get_origin_attributes attrs [])
  = Some (VDict [(KStr "cidr", VList [VStr "0.0.0.0/0"])])
  /\ dict_get (KStr "self") (get_origin_attributes attrs [])
     = Some (VDict [(KStr "cidr", VStr "0.0.0.0/0")]).
Proof.
  cbv zeta.
  refine (self_is_exported_as_self_underscore
            [(KStr "self", VList [VDict [(KStr "cidr", VList [VStr "0.0.0.0/0"])]])] []
            (VList [VDict [(KStr "cidr", VList [VStr "0.0.0.0/0"])]]) _ eq_refl eq_refl
            eq_refl).
  unfold unique. simpl. repeat constructor. simpl. intuition.
Defined.

(** ** The reserved entry of the constructor *)

(** The constructor removes the entry of the resolved module from the
    caller's attributes exactly when its value is truthy: a falsy value (an
    empty list, an empty string, [None], [False], [0]) stays. *)
Theorem constructor_drops_truthy_module_entry (E : Env) (h : heap) (nm : string)
  (cfg : loc) (pth : string) (kind : BlockType) (attrs : loc) (i src : string)
  (enc : bool)
  (Hattrs : attrs < length h)
  (Hunique : unique (deref h attrs))
  (Hplain : has_dot (RESOLVED_MODULE_ENTRY_NAME E) = false) :
  let entry := KStr (RESOLVED_MODULE_ENTRY_NAME E) in
  dict_get entry (deref (fst (Block_init E h nm cfg pth kind attrs i src enc)) attrs)
  = if truthy (py_get entry (deref h attrs)) then None
    else dict_get entry (deref h attrs).
Proof.
  cbv zeta. rewrite Block_init_attributes by exact Hattrs.
  set (entry := KStr (RESOLVED_MODULE_ENTRY_NAME E)).
  unfold init_attributes. fold entry.
  rewrite dict_get_update by apply extract_unique.
  unfold _extract_inner_attributes.
  destruct (truthy (py_get entry (deref h attrs))) eqn:Htruthy.
  - rewrite (extract_fold_get entry _ [] Hplain (dict_del_unique entry _ Hunique)).
    rewrite (dict_get_del_same entry _ Hunique). reflexivity.
  - rewrite (extract_fold_get entry _ [] Hplain Hunique).
    unfold py_get in Htruthy.
    destruct (dict_get entry (deref h attrs)) as [v|]; [|reflexivity].
    destruct (is_list_of_dict v) eqn:Hlist; [|reflexivity].
    apply list_of_dict_truthy in Hlist. congruence.
Qed.

Lemma constructor_drops_truthy_module_entry_witness :
  let h := [[(KStr "resolved_module_entry", VList [VStr "modules/vpc"])];
            [(KStr "resolved_module_entry", VList [])]] in
  dict_get (KStr "resolved_module_entry")
    (deref (fst (Block_init sample_env h "m" 0 "" MODULE 0 "" "" false)) 0) = None
  /\ dict_get (KStr "resolved_module_entry")
       (deref (fst (Block_init sample_env h "m" 1 "" MODULE 1 "" "" false)) 1)
     = Some (VList []).
Proof.
  cbv zeta. split.
  - refine (eq_trans (constructor_drops_truthy_module_entry sample_env
              [[(KStr "resolved_module_entry", VList [VStr "modules/vpc"])];
               [(KStr "resolved_module_entry", VList [])]]
              "m" 0 "" MODULE 0 "" "" false ltac:(simpl; lia) _ eq_refl) eq_refl).
    unfold unique. simpl. repeat constructor. simpl. intuition.
  - refine (eq_trans (constructor_drops_truthy_module_entry sample_env
              [[(KStr "resolved_module_entry", VList [VStr "modules/vpc"])];
               [(KStr "resolved_module_entry", VList [])]]
              "m" 1 "" MODULE 1 "" "" false ltac:(simpl; lia) _ eq_refl) eq_refl).
    unfold unique. simpl. repeat constructor. simpl. intuition.
Defined.

(** ** The decoded export *)

Lemma hashed_attributes_encoded (E : Env) (h : heap) (b : Block) :
  encode b = true ->
  hashed_attributes E h b
  = map (fun kv => (fst kv, encode_graph_property_value E (snd kv)))
      (hashed_attributes E h (with_encode b false)).
Proof.
  intros Henc. unfold hashed_attributes. rewrite Henc. reflexivity.
Qed.

(** For a block that encodes, decoding the export gives back, under every key
    but the hash, the export of the same block without encoding, provided the
    decoder undoes the encoder.  The hash entry is computed over the encoded
    mapping, is not encoded itself, and is passed through the decoder all the
    same. *)
Theorem decoded_export_undoes_the_encoding (E : Env) (decode : value -> value)
  (h : heap) (b : Block) (k : key)
  (Hround : forall v, decode (encode_graph_property_value E v) = v)
  (Henc : encode b = true)
  (Hchanged : k <> KStr "changed_attributes")
  (Hhash : k <> KStr (HASH E))
  (Hname : HASH E <> "changed_attributes") :
  dict_get k (get_decoded_attribute_dict E decode h b)
  = dict_get k (get_attribute_dict E h (with_encode b false))
  /\ dict_get (KStr (HASH E)) (get_decoded_attribute_dict E decode h b)
     = Some (decode (calculate_hash E (hashed_attributes E h b))).
Proof.
  unfold get_decoded_attribute_dict. rewrite Henc. rewrite !dict_get_map_values.
  split.
  - rewrite !get_attribute_dict_get by assumption.
    rewrite (hashed_attributes_encoded E h b Henc), dict_get_map_values.
    destruct (dict_get k (hashed_attributes E h (with_encode b false))) as [x|];
      [|reflexivity].
    simpl. rewrite Hround. reflexivity.
  - unfold get_attribute_dict.
    assert (Hne : KStr (HASH E) <> KStr "changed_attributes") by congruence.
    destruct (truthy _).
    + rewrite dict_get_del_other by exact Hne. rewrite dict_get_set_same. reflexivity.
    + rewrite dict_get_set_same. reflexivity.
Qed.

Lemma decoded_export_undoes_the_encoding_witness :
  let h := [[(KStr "port", VList [VInt 22])]] in
  let b := with_encode (new_block "r" RESOURCE 0 0) true in
  dict_get (KStr "port") (get_decoded_attribute_dict tagging_env untag h b)
  = Some (VInt 22)
  /\ dict_get (KStr "hash") (get_decoded_attribute_dict tagging_env untag h b)
     = Some (VInt 8).
Proof.
  cbv zeta.
  assert (Hround : forall v, untag (encode_graph_property_value tagging_env v) = v)
    by (intros v; reflexivity).
  destruct (decoded_export_undoes_the_encoding tagging_env untag
              [[(KStr "port", VList [VInt 22])]]
              (with_encode (new_block "r" RESOURCE 0 0) true) (KStr "port")
              Hround eq_refl ltac:(discriminate) ltac:(discriminate)
              ltac:(discriminate)) as [Hport Hhash].
  split.
  - exact (eq_trans Hport eq_refl).
  - exact (eq_trans Hhash eq_refl).
Defined.

(** ** The flattened entry of each child *)

Lemma string_app_assoc (a b c : string) :
  ((a ++ b) ++ c)%string = (a ++ b ++ c)%string.
Proof. induction a as [|x a IH]; simpl; [reflexivity | rewrite IH; reflexivity]. Qed.

Lemma string_app_inv_head (a b c : string) :
  (a ++ b)%string = (a ++ c)%string -> b = c.
Proof.
  induction a as [|x a IH]; simpl; intros H; [exact H|].
  injection H as H. apply IH. exact H.
Qed.

Lemma str_of_nat_inj (a b : nat) : str_of_nat a = str_of_nat b -> a = b.
Proof.
  unfold str_of_nat. intros H.
  apply (f_equal NilEmpty.uint_of_string) in H.
  rewrite !NilEmpty.usu in H. injection H as H.
  apply DecimalNat.Unsigned.to_uint_inj. exact H.
Qed.

Lemma str_of_nat_no_dot (n : nat) : has_dot (str_of_nat n) = false.
Proof.
  unfold str_of_nat. generalize (Nat.to_uint n). intros d.
  induction d; simpl; auto.
Qed.

Lemma inner_key_below (k j : key) : below k (KStr (inner_key_of k j)).
Proof. exists (key_str j). reflexivity. Qed.

Lemma below_trans (k j y : key) : below (KStr (inner_key_of k j)) y -> below k y.
Proof.
  intros [rest ->]. exists (key_str j ++ "." ++ rest)%string.
  simpl key_str. unfold inner_key_of. rewrite string_app_assoc. reflexivity.
Qed.

(** Every key of a flattened mapping is the root key or extends it. *)
Lemma flatten_from_below (u : value) :
  forall k k', In k' (dict_keys (flatten_from k u)) -> k' = k \/ below k k'.
Proof.
  induction u as [| b | z | s | l IH | d IH] using value_flat_ind; intros k k';
    try (simpl; intros [<-|[]]; left; reflexivity).
  - simpl.
    assert (Hloop : forall i acc,
              (forall x, In x (dict_keys acc) -> x = k \/ below k x) ->
              In k' (dict_keys (loop_list get_inner_attributes k i l acc)) ->
              k' = k \/ below k k').
    { induction IH as [|x l Hx Hl IHl]; simpl; intros i acc Hacc Hin; [auto|].
      eapply IHl; [|exact Hin].
      intros y Hy. apply loop_step_keys in Hy. destruct Hy as [->|[Hy|Hy]]; auto.
      rewrite get_inner_attributes_unwrap in Hy. right.
      destruct (Hx _ _ Hy) as [->|Hb];
        [apply inner_key_below | exact (below_trans _ _ _ Hb)]. }
    apply Hloop. intros x [<-|[]]. left. reflexivity.
  - simpl.
    assert (Hloop : forall acc,
              (forall x, In x (dict_keys acc) -> x = k \/ below k x) ->
              In k' (dict_keys (loop_dict get_inner_attributes k d acc)) ->
              k' = k \/ below k k').
    { induction IH as [|[j x] d Hx Hd IHd]; simpl; intros acc Hacc Hin; [auto|].
      eapply IHd; [|exact Hin].
      intros y Hy. apply loop_step_keys in Hy. destruct Hy as [->|[Hy|Hy]]; auto.
      rewrite get_inner_attributes_unwrap in Hy. right.
      destruct (Hx _ _ Hy) as [->|Hb];
        [apply inner_key_below | exact (below_trans _ _ _ Hb)]. }
    apply Hloop. intros x [<-|[]]. left. reflexivity.
Qed.

(** The flattening of one child writes nothing under the key of another,
    when the other's key has no dot and the two keys are printed
    differently. *)
Lemma sibling_misses (k j j' : key) (x : value) :
  key_str j' <> key_str j -> has_dot (key_str j) = false ->
  ~ In (KStr (inner_key_of k j))
      (dict_keys (get_inner_attributes (KStr (inner_key_of k j')) x)).
Proof.
  intros Hne Hdot Hin. rewrite get_inner_attributes_unwrap in Hin.
  apply flatten_from_below in Hin. destruct Hin as [Heq|[rest Heq]].
  - injection Heq as Heq. unfold inner_key_of in Heq.
    apply string_app_inv_head in Heq. simpl in Heq. injection Heq as Heq.
    congruence.
  - injection Heq as Heq. simpl key_str in Heq. unfold inner_key_of in Heq.
    rewrite string_app_assoc in Heq. apply string_app_inv_head in Heq.
    simpl in Heq. injection Heq as Heq.
    rewrite Heq, has_dot_app in Hdot. simpl in Hdot.
    rewrite orb_true_r in Hdot. discriminate.
Qed.

Lemma loop_step_get (k j t : key) (sub acc : dict) :
  t <> k -> unique sub ->
  dict_get t (loop_step k j sub acc)
  = match dict_get t sub with
    | Some y => Some y
    | None => dict_get t acc
    end.
Proof.
  intros Hne Hu. unfold loop_step.
  destruct (dict_get (KStr (inner_key_of k j)) (dict_update acc sub));
    [destruct (dict_get k (dict_update acc sub))|];
    rewrite ?dict_get_set_other by exact Hne; apply dict_get_update; exact Hu.
Qed.

Lemma inner_key_not_root (k j : key) : KStr (inner_key_of k j) <> k.
Proof. apply longer_not_root. apply inner_key_longer. Qed.

Lemma loop_step_child (k j : key) (x : value) (acc : dict) :
  well_formed x = true ->
  dict_get (KStr (inner_key_of k j))
    (loop_step k j (get_inner_attributes (KStr (inner_key_of k j)) x) acc)
  = Some (unwrap_levels x).
Proof.
  intros Hwf. rewrite loop_step_get;
    [|apply inner_key_not_root | apply get_inner_attributes_ok].
  rewrite (get_inner_attributes_root _ x Hwf). reflexivity.
Qed.

Lemma loop_step_sibling (k j j' : key) (x : value) (acc : dict) :
  key_str j' <> key_str j -> has_dot (key_str j) = false ->
  dict_get (KStr (inner_key_of k j))
    (loop_step k j' (get_inner_attributes (KStr (inner_key_of k j')) x) acc)
  = dict_get (KStr (inner_key_of k j)) acc.
Proof.
  intros Hne Hdot. rewrite loop_step_get;
    [|apply inner_key_not_root | apply get_inner_attributes_ok].
  rewrite (dict_get_None_keys _ _ (sibling_misses k j j' x Hne Hdot)). reflexivity.
Qed.

Lemma loop_dict_child (k j : key) (d : dict) :
  has_dot (key_str j) = false ->
  (forall j', In j' (dict_keys d) -> key_str j' = key_str j -> j' = j) ->
  NoDup (dict_keys d) ->
  Forall (fun kv => well_formed (snd kv) = true) d ->
  forall acc,
    dict_get (KStr (inner_key_of k j)) (loop_dict get_inner_attributes k d acc)
    = match dict_get j d with
      | Some x => Some (unwrap_levels x)
      | None => dict_get (KStr (inner_key_of k j)) acc
      end.
Proof.
  intros Hdot Hkeys Hnd Hwf. revert Hkeys Hnd.
  induction Hwf as [|[j' x'] d Hx Hd IH]; intros Hkeys Hnd acc; [reflexivity|].
  simpl in Hx, Hkeys, Hnd |- *.
  inversion Hnd as [|? ? Hnotin Hnd']; subst.
  rewrite (IH (fun y Hy => Hkeys y (or_intror Hy)) Hnd').
  destruct (key_eqb j' j) eqn:Hj.
  - apply key_eqb_eq in Hj. subst j'.
    rewrite (dict_get_None_keys j d Hnotin). apply loop_step_child. exact Hx.
  - apply key_eqb_neq in Hj.
    destruct (dict_get j d); [reflexivity|].
    apply loop_step_sibling; [|exact Hdot].
    intro Heq. apply Hj. apply Hkeys; auto.
Qed.

Lemma loop_list_child (k : key) (n : nat) (l : list value) :
  Forall (fun x => well_formed x = true) l ->
  forall i acc,
    dict_get (KStr (inner_key_of k (KInt n))) (loop_list get_inner_attributes k i l acc)
    = if Nat.ltb n i then dict_get (KStr (inner_key_of k (KInt n))) acc
      else match nth_error l (n - i) with
           | Some x => Some (unwrap_levels x)
           | None => dict_get (KStr (inner_key_of k (KInt n))) acc
           end.
Proof.
  intros Hwf. induction Hwf as [|x l Hx Hl IH]; intros i acc.
  - simpl. destruct (Nat.ltb n i); [reflexivity|]. destruct (n - i); reflexivity.
  - simpl loop_list. rewrite IH.
    assert (Hsib : i <> n ->
              dict_get (KStr (inner_key_of k (KInt n)))
                (loop_step k (KInt i)
                   (get_inner_attributes (KStr (inner_key_of k (KInt i))) x) acc)
              = dict_get (KStr (inner_key_of k (KInt n))) acc).
    { intros Hne. apply loop_step_sibling; [|apply str_of_nat_no_dot].
      simpl. intro Heq. apply Hne. apply str_of_nat_inj. exact Heq. }
    destruct (Nat.ltb n (S i)) eqn:HSi.
    + apply Nat.ltb_lt in HSi. destruct (Nat.ltb n i) eqn:Hi.
      * apply Hsib. apply Nat.ltb_lt in Hi. lia.
      * apply Nat.ltb_ge in Hi. assert (n = i) by lia. subst n.
        rewrite Nat.sub_diag. simpl nth_error. apply loop_step_child. exact Hx.
    + apply Nat.ltb_ge in HSi.
      assert (Hi : Nat.ltb n i = false) by (apply Nat.ltb_ge; lia). rewrite Hi.
      replace (n - i) with (S (n - S i)) by lia. simpl nth_error.
      destruct (nth_error l (n - S i)); [reflexivity|]. apply Hsib. lia.
Qed.

Lemma well_formed_list (l : list value) :
  well_formed (VList l) = true -> Forall (fun x => well_formed x = true) l.
Proof. simpl. intros H. apply Forall_forall. apply forallb_forall. exact H. Qed.

Lemma well_formed_dict (d : dict) :
  well_formed (VDict d) = true ->
  NoDup (dict_keys d) /\ Forall (fun kv => well_formed (snd kv) = true) d.
Proof.
  simpl. intros H. apply andb_true_iff in H. destruct H as [Hk Hv]. split.
  - apply unique_keys_NoDup. exact Hk.
  - apply Forall_forall. intros kv Hin.
    exact (proj1 (forallb_forall _ d) Hv kv Hin).
Qed.

(** Beside the root entry, the flattened mapping holds one entry for each
    child of the value (after its opening singleton unwrapping): under
    [f'{attribute_key}.{i}'] element [i] of a list, and under
    [f'{attribute_key}.{j}'] the value of key [j] of a mapping, each with its
    singleton lists unwrapped level by level.  For a mapping the key [j] has
    no dot and no integer key of the mapping is printed as [j]: entries
    written for such keys can replace the entry of [j]. *)
Theorem flatten_has_an_entry_for_each_child (k : key) (v : value)
  (Hwf : well_formed v = true) :
  (forall l n x, unwrap_singleton v = VList l -> nth_error l n = Some x ->
     dict_get (KStr (inner_key_of k (KInt n))) (get_inner_attributes k v)
     = Some (unwrap_levels x))
  /\ (forall d j x, unwrap_singleton v = VDict d -> dict_get (KStr j) d = Some x ->
        has_dot j = false ->
        (forall n, In (KInt n) (dict_keys d) -> str_of_nat n <> j) ->
        dict_get (KStr (inner_key_of k (KStr j))) (get_inner_attributes k v)
        = Some (unwrap_levels x)).
Proof.
  pose proof (well_formed_unwrap v Hwf) as Hu.
  rewrite get_inner_attributes_unwrap. split.
  - intros l n x Hshape Hnth. rewrite Hshape in Hu |- *. simpl flatten_from.
    rewrite (loop_list_child k n l (well_formed_list l Hu)).
    simpl Nat.ltb. rewrite Nat.sub_0_r, Hnth. reflexivity.
  - intros d j x Hshape Hget Hdot Hints. rewrite Hshape in Hu |- *.
    destruct (well_formed_dict d Hu) as [Hnd Hvals]. simpl flatten_from.
    rewrite (loop_dict_child k (KStr j) d Hdot); [rewrite Hget; reflexivity | | exact Hnd | exact Hvals].
    intros [s|n] Hin Heq; simpl in Heq; [congruence|].
    exfalso. exact (Hints n Hin Heq).
Qed.

Lemma flatten_has_an_entry_for_each_child_witness :
  let v := VList [VDict [(KStr "from_port", VList [VInt 22]);
                         (KStr "cidr_blocks", VList [VList [VStr "a"; VStr "b"]])]] in
  dict_get (KStr "ingress.from_port") (get_inner_attributes (KStr "ingress") v)
  = Some (VInt 22)
  /\ dict_get (KStr "ingress.cidr_blocks") (get_inner_attributes (KStr "ingress") v)
     = Some (VList [VStr "a"; VStr "b"]).
Proof.
  cbv zeta.
  pose proof (proj2 (flatten_has_an_entry_for_each_child (KStr "ingress")
                (VList [VDict [(KStr "from_port", VList [VInt 22]);
                               (KStr "cidr_blocks", VList [VList [VStr "a"; VStr "b"]])]])
                eq_refl)) as H.
  assert (Hints : forall n,
            In (KInt n) (dict_keys [(KStr "from_port", VList [VInt 22]);
                                   (KStr "cidr_blocks", VList [VList [VStr "a"; VStr "b"]])]) ->
            forall j : string, str_of_nat n <> j).
  { simpl. intros n [Hn|[Hn|[]]]; discriminate. }
  split.
  - exact (H _ "from_port" _ eq_refl eq_refl eq_refl (fun n Hin => Hints n Hin _)).
  - exact (H _ "cidr_blocks" _ eq_refl eq_refl eq_refl (fun n Hin => Hints n Hin _)).
Defined.
